(** * rekall / volatility [plugins/windows/procdump.py]

    A shallow embedding of the PE dumping plugins ([PEDump], [ProcExeDump],
    [DLLDump], [ModDump], [ProcMemDump]) and the properties of the image
    reconstruction algorithm stated about them.

    Conventions.  Decoded unsigned header fields are [N]; addresses and
    python integers that may go negative are [Z]; byte strings are
    [list byte].  Code with effects runs in a state monad with exceptions;
    the state survives an exception, as the effects of a python program do. *)

From Stdlib Require Import ZArith NArith Strings.Ascii Strings.String.
From Stdlib Require Import Strings.Byte HexString DecimalString.
From stdpp Require Import base list option numbers strings.

Set Default Proof Using "Type".

(** ** Exceptions and the monad *)

Inductive exn :=
| PluginError (msg : string)
| NameError (name : string)
| AttributeError (attr : string)
| TypeError
| StructError
| IndexError.

Inductive result (A : Type) :=
| Ok (a : A)
| Raise (e : exn).
Arguments Ok {A} a.
Arguments Raise {A} e.

Definition M (S A : Type) : Type := S → result A * S.

Definition ret {S A} (a : A) : M S A := λ s, (Ok a, s).
Definition raise {S A} (e : exn) : M S A := λ s, (Raise e, s).
Definition bind {S A B} (m : M S A) (k : A → M S B) : M S B :=
  λ s, match m s with
       | (Ok a, s') => k a s'
       | (Raise e, s') => (Raise e, s')
       end.
Definition get {S} : M S S := λ s, (Ok s, s).
Definition modify {S} (f : S → S) : M S unit := λ s, (Ok tt, f s).
Definition lift_result {S A} (r : result A) : M S A := λ s, (r, s).

Notation "'let*' x ':=' m 'in' k" := (bind m (λ x, k))
  (at level 10, x pattern, m at level 100, k at level 200).
Notation "m ';;' k" := (bind m (λ _, k))
  (at level 100, k at level 200, right associativity).

(** [for x in l: body(x)] *)
Fixpoint for_each {S A} (l : list A) (body : A → M S unit) : M S unit :=
  match l with
  | [] => ret tt
  | x :: l' => body x ;; for_each l' body
  end.

(** ** Python builtins used by the plugin *)

Module Py.

(** [min(a, b)]: the first argument is kept unless the second is
    strictly smaller.  The clamp constants of the source are the float
    literals [1e6], [10e6] and [100e6], which are exactly the integers
    1000000, 10000000 and 100000000; the model keeps the numeric value. *)
Definition min (a b : N) : N := if (b <? a)%N then b else a.

(** Truth value of a byte string and of a python string. *)
Definition truthy_bytes (data : list byte) : bool :=
  match data with [] => false | _ => true end.
Definition truthy_str (s : string) : bool :=
  match s with EmptyString => false | _ => true end.
Definition truthy_opt_str (s : option string) : bool :=
  match s with Some s => truthy_str s | None => false end.

(** Slice bounds: a negative bound counts from the end, and every bound
    is clipped to the sequence. *)
Definition slice_index {A} (l : list A) (i : Z) : nat :=
  if (i <? 0)%Z then Z.to_nat (Z.of_nat (length l) + i) else Z.to_nat i.
(** [l[:stop]] *)
Definition slice_to {A} (l : list A) (stop : Z) : list A :=
  take (slice_index l stop) l.
(** [l[start:]] *)
Definition slice_from {A} (l : list A) (start : Z) : list A :=
  drop (slice_index l start) l.
(** [l[start:stop]] *)
Definition slice {A} (l : list A) (start stop : Z) : list A :=
  drop (slice_index l start) (take (slice_index l stop) l).

(** ["{0:x}".format(z)] and ["{0}".format(n)]. *)
Definition hex (z : Z) : string :=
  match z with
  | Z0 => "0"
  | Zpos p => HexString.Raw.of_pos p ""
  | Zneg p => "-" +:+ HexString.Raw.of_pos p ""
  end.
Definition dec (n : N) : string := NilZero.string_of_uint (N.to_uint n).

(** [str(x)] of a string that may be [None]. *)
Definition str_opt (s : option string) : string := default "None" s.

(** The character class [[^a-zA-Z0-9-_]] of the name sanitizer. *)
Definition in_name_class (c : Ascii.ascii) : bool :=
  let n := Ascii.N_of_ascii c in
  ((97 <=? n) && (n <=? 122) || (65 <=? n) && (n <=? 90)
   || (48 <=? n) && (n <=? 57) || (n =? 45) || (n =? 95))%N.

(** [re.sub("[^a-zA-Z0-9-_]", "_", s)] *)
Fixpoint sanitize (s : string) : string :=
  match s with
  | EmptyString => EmptyString
  | String c s' => String (if in_name_class c then c else "_"%char) (sanitize s')
  end.

Fixpoint ends_with_slash (s : string) : bool :=
  match s with
  | EmptyString => false
  | String c EmptyString => Ascii.eqb c "/"%char
  | String _ s' => ends_with_slash s'
  end.

(** [os.path.join(a, b)] (posix) *)
Definition path_join (a b : string) : string :=
  match b with
  | String "/"%char _ => b
  | _ => if truthy_str a && negb (ends_with_slash a) then a +:+ "/" +:+ b
         else a +:+ b
  end.

End Py.

(** ** The [struct] module: little-endian integer formats *)

Module Struct.

Definition byte_of_Z (z : Z) : byte :=
  default x00 (Byte.of_N (Z.to_N (z mod 256))).
Definition Z_of_byte (b : byte) : Z := Z.of_N (Byte.to_N b).

(** The integer format strings of the windows profiles:
    ["<B"], ["<H"], ["<I"], ["<Q"] and their signed versions. *)
Inductive format := fmt_B | fmt_H | fmt_I | fmt_Q | fmt_b | fmt_h | fmt_i | fmt_q.

Definition calcsize (f : format) : nat :=
  match f with
  | fmt_B | fmt_b => 1
  | fmt_H | fmt_h => 2
  | fmt_I | fmt_i => 4
  | fmt_Q | fmt_q => 8
  end.

Definition signed (f : format) : bool :=
  match f with
  | fmt_b | fmt_h | fmt_i | fmt_q => true
  | _ => false
  end.

Definition bits (f : format) : Z := 8 * Z.of_nat (calcsize f).

Fixpoint le_bytes (n : nat) (v : Z) : list byte :=
  match n with
  | O => []
  | S n' => byte_of_Z (v mod 256) :: le_bytes n' (v / 256)
  end.

Fixpoint le_decode (bs : list byte) : Z :=
  match bs with
  | [] => 0
  | b :: bs' => Z_of_byte b + 256 * le_decode bs'
  end.

Definition in_range (f : format) (v : Z) : bool :=
  if signed f
  then (- 2 ^ (bits f - 1) <=? v)%Z && (v <? 2 ^ (bits f - 1))%Z
  else (0 <=? v)%Z && (v <? 2 ^ bits f)%Z.

(** [struct.pack(fmt, v)]: a value outside the format's range raises
    [struct.error]. *)
Definition pack (f : format) (v : Z) : result (list byte) :=
  if in_range f v
  then Ok (le_bytes (calcsize f) (v mod 2 ^ bits f))
  else Raise StructError.

(** [struct.unpack(fmt, bs)[0]]: the block must have the format's size. *)
Definition unpack (f : format) (bs : list byte) : result Z :=
  if decide (length bs = calcsize f)
  then
    let u := le_decode bs in
    Ok (if signed f && (2 ^ (bits f - 1) <=? u)%Z then u - 2 ^ bits f else u)%Z
  else Raise StructError.

End Struct.

(** ** The output sink: a seekable, writable file-like object *)

Module Sink.

(** [repr] is what [str(fd)] prints. *)
Record t := mk { repr : string; pos : N; bytes : list byte }.

(** [open(name, "w")]: the file is created or truncated. *)
Definition open (name : string) : t :=
  {| repr := name; pos := 0; bytes := [] |}.

(** [fd.seek(offset, 0)] *)
Definition seek (offset : N) (fd : t) : t :=
  {| repr := repr fd; pos := offset; bytes := bytes fd |}.

(** The content of a file after [data] is written at position [p].
    Writing no bytes leaves the file as it is, also when [p] is beyond
    its end: the file grows only when bytes are written, and then a gap
    between the old end and [p] reads as zero bytes. *)
Definition write_at (p : nat) (data content : list byte) : list byte :=
  match data with
  | [] => content
  | _ :: _ =>
      take p content ++ replicate (p - length content) x00
        ++ data ++ drop (p + length data) content
  end.

(** [fd.write(data)]: overwrite at the current position and advance. *)
Definition write (data : list byte) (fd : t) : t :=
  {| repr := repr fd;
     pos := pos fd + N.of_nat (length data);
     bytes := write_at (N.to_nat (pos fd)) data (bytes fd) |}.

End Sink.

(** ** Collaborators: address spaces and decoded header objects *)

Module AddressSpace.

(** [zread] never fails (unreadable ranges are zero filled by the
    address space); [vtop] gives the physical offset when the virtual
    address translates. *)
Record t := mk {
  zread : Z → N → list byte;
  read : Z → N → list byte;
  is_valid_address : Z → bool;
  vtop : Z → option N
}.

End AddressSpace.

(** A decoded integer member of a struct: where it lives, how wide it is,
    how it is packed, and its value. *)
Module NativeType.

Record t := mk {
  obj_offset : Z;
  size : Z;
  format_string : Struct.format;
  v : N
}.

End NativeType.

(** [_IMAGE_SECTION_HEADER] *)
Module SectionHeader.

Record t := mk {
  obj_offset : Z;
  Misc_VirtualSize : NativeType.t;
  VirtualAddress : NativeType.t;
  SizeOfRawData : NativeType.t;
  PointerToRawData : NativeType.t
}.

End SectionHeader.

Module OptionalHeader.

Record t := mk {
  obj_offset : Z;
  SizeOfHeaders : N;
  SectionAlignment : N;
  SizeOfImage : N
}.

End OptionalHeader.

Module FileHeader.

Record t := mk { SizeOfOptionalHeader : N }.

End FileHeader.

Module NTHeader.

(** [Sections] is the attribute iterated by [WritePEFile];
    [get_sections(unsafe)] is the accessor used by [get_image]. *)
Record t := mk {
  FileHeader : FileHeader.t;
  OptionalHeader : OptionalHeader.t;
  Sections : list SectionHeader.t;
  get_sections : bool → list SectionHeader.t
}.

End NTHeader.

(** [_IMAGE_DOS_HEADER] *)
Module DosHeader.

Record t := mk {
  obj_offset : Z;
  NTHeader : NTHeader.t
}.

End DosHeader.

(** [pe_vtypes.PEProfile()]: the decoder.  Decoded objects read through
    the address space they were decoded from ([obj_vm]). *)
Module PEProfile.

Record t := mk {
  Object_IMAGE_DOS_HEADER : AddressSpace.t → Z → DosHeader.t;
  get_obj_size_IMAGE_SECTION_HEADER : N
}.

End PEProfile.

(** The messages written to the diagnostic stream, one constructor per
    format string of the source, with the arguments of the format. *)
Inductive line :=
| LDumpingPE (image_base : Z) (dest : string)
| LDone
| LNoAddressSpace
| LStars
| LDumpingToFd (image : string) (pid : N)
| LDumpingToFile (image : string) (pid : N) (filename : string)
| LDumpingModule (name image : string) (base : Z) (dump_file : string)
| LCannotDump (image name : string) (base : Z)
| LDumpingDriver (name : string) (base : Z) (dump_file : string).

(** ** PEDump *)

Module PEDump.

(** What [WritePEFile] does to its collaborators, in program order. *)
Inductive io_event :=
| EvRead (addr : Z) (len : N)
| EvSeek (offset : N)
| EvWrite (data : list byte).

Record fd_state := mk_fd_state { fd : Sink.t; log : list io_event }.

Definition emit (e : io_event) (s : fd_state) : fd_state :=
  {| fd := fd s; log := log s ++ [e] |}.

Definition vm_zread (vm : AddressSpace.t) (addr : Z) (len : N)
  : M fd_state (list byte) :=
  modify (emit (EvRead addr len)) ;; ret (AddressSpace.zread vm addr len).

Definition fd_seek (offset : N) : M fd_state unit :=
  modify (λ s, {| fd := Sink.seek offset (fd s); log := log s ++ [EvSeek offset] |}).

Definition fd_write (data : list byte) : M fd_state unit :=
  modify (λ s, {| fd := Sink.write data (fd s); log := log s ++ [EvWrite data] |}).

(** The body of the section loop of [WritePEFile]. *)
Definition write_section (address_space : AddressSpace.t) (image_base : Z)
    (section : SectionHeader.t) : M fd_state unit :=
  (* Force some sensible maximum values here. *)
  let size_of_section :=
    Py.min 10000000 (NativeType.v (SectionHeader.SizeOfRawData section)) in
  let physical_offset :=
    Py.min 100000000 (NativeType.v (SectionHeader.PointerToRawData section)) in
  let* data := vm_zread address_space
                 (Z.of_N (NativeType.v (SectionHeader.VirtualAddress section))
                  + image_base) size_of_section in
  fd_seek physical_offset ;;
  fd_write data.

(** [PEDump.WritePEFile(self, fd, address_space, image_base)]; [fd] is
    the sink of the state. *)
Definition WritePEFile (pe_profile : PEProfile.t)
    (address_space : AddressSpace.t) (image_base : Z) : M fd_state unit :=
  let dos_header :=
    PEProfile.Object_IMAGE_DOS_HEADER pe_profile address_space image_base in
  let image_base := DosHeader.obj_offset dos_header in
  let nt_header := DosHeader.NTHeader dos_header in
  (* First copy the PE file header, then copy the sections. *)
  let* data := vm_zread address_space image_base
                 (Py.min 1000000
                    (OptionalHeader.SizeOfHeaders (NTHeader.OptionalHeader nt_header))) in
  if negb (Py.truthy_bytes data) then ret tt else
  fd_seek 0 ;;
  fd_write data ;;
  for_each (NTHeader.Sections nt_header) (write_section address_space image_base).

(** The pieces of a run, named: the base the decoder resolves, the
    declared header size, the sections in declared order, and the bytes
    the header read returns. *)
Definition effective_base (pe_profile : PEProfile.t) (vm : AddressSpace.t)
    (base : Z) : Z :=
  DosHeader.obj_offset (PEProfile.Object_IMAGE_DOS_HEADER pe_profile vm base).
Definition size_of_headers (pe_profile : PEProfile.t) (vm : AddressSpace.t)
    (base : Z) : N :=
  OptionalHeader.SizeOfHeaders
    (NTHeader.OptionalHeader
       (DosHeader.NTHeader (PEProfile.Object_IMAGE_DOS_HEADER pe_profile vm base))).
Definition sections_of (pe_profile : PEProfile.t) (vm : AddressSpace.t)
    (base : Z) : list SectionHeader.t :=
  NTHeader.Sections
    (DosHeader.NTHeader (PEProfile.Object_IMAGE_DOS_HEADER pe_profile vm base)).
Definition header_data (pe_profile : PEProfile.t) (vm : AddressSpace.t)
    (base : Z) : list byte :=
  AddressSpace.zread vm (effective_base pe_profile vm base)
    (Py.min 1000000 (size_of_headers pe_profile vm base)).

(** One round of the section loop, seen from outside: the bytes it
    reads, the events it logs, and what it does to the sink. *)
Definition section_data (vm : AddressSpace.t) (image_base : Z)
    (section : SectionHeader.t) : list byte :=
  AddressSpace.zread vm
    (Z.of_N (NativeType.v (SectionHeader.VirtualAddress section)) + image_base)
    (Py.min 10000000 (NativeType.v (SectionHeader.SizeOfRawData section))).
Definition section_events (vm : AddressSpace.t) (image_base : Z)
    (section : SectionHeader.t) : list io_event :=
  [EvRead (Z.of_N (NativeType.v (SectionHeader.VirtualAddress section)) + image_base)
     (Py.min 10000000 (NativeType.v (SectionHeader.SizeOfRawData section)));
   EvSeek (Py.min 100000000 (NativeType.v (SectionHeader.PointerToRawData section)));
   EvWrite (section_data vm image_base section)].
Definition section_sink (vm : AddressSpace.t) (image_base : Z)
    (f : Sink.t) (section : SectionHeader.t) : Sink.t :=
  Sink.write (section_data vm image_base section)
    (Sink.seek
       (Py.min 100000000 (NativeType.v (SectionHeader.PointerToRawData section))) f).

(** Running [WritePEFile] against a sink, with an empty log. *)
Definition run_WritePEFile pe_profile (fd0 : Sink.t) address_space image_base
  : result unit * fd_state :=
  WritePEFile pe_profile address_space image_base {| fd := fd0; log := [] |}.

(** The lengths read from the address space, the offsets the sink was
    positioned at, and the byte strings written to it, in order. *)
Definition read_lengths (l : list io_event) : list N :=
  omap (λ e, match e with EvRead _ len => Some len | _ => None end) l.
Definition read_addresses (l : list io_event) : list Z :=
  omap (λ e, match e with EvRead addr _ => Some addr | _ => None end) l.
Definition seek_offsets (l : list io_event) : list N :=
  omap (λ e, match e with EvSeek o => Some o | _ => None end) l.
Definition writes (l : list io_event) : list (list byte) :=
  omap (λ e, match e with EvWrite d => Some d | _ => None end) l.

(** The command object.  [out_fd] and [filename] are [None] while the
    attribute does not exist on the object. *)
Record t := mk {
  address_space : AddressSpace.t;
  image_base : Z;
  out_fd : option Sink.t;
  filename : option string;
  pe_profile : PEProfile.t
}.

(** [PEDump.__init__(self, address_space, image_base, fd, filename)] *)
Definition init (address_space : AddressSpace.t) (image_base : Z)
    (fd : option Sink.t) (filename : option string)
    (profile : PEProfile.t) : t :=
  match fd with
  | Some f =>
      mk address_space image_base (Some f)
        (Some ("FD <" +:+ Sink.repr f +:+ ">")) profile
  | None =>
      if Py.truthy_opt_str filename
      then mk address_space image_base (Sink.open <$> filename) filename profile
      else mk address_space image_base None None profile
  end.

Definition set_out_fd (f : Sink.t) (self : t) : t :=
  mk (address_space self) (image_base self) (Some f) (filename self)
    (pe_profile self).

(** [PEDump.render(self, outfd)]: the state is the object and the
    diagnostic stream. *)
Definition render (self : t) (outfd : list line)
  : result unit * (t * list line) :=
  match filename self with
  | None => (Raise (AttributeError "filename"), (self, outfd))
  | Some name =>
      let outfd := outfd ++ [LDumpingPE (image_base self) name] in
      match out_fd self with
      | None => (Raise (AttributeError "out_fd"), (self, outfd))
      | Some f =>
          let '(r, st) :=
            run_WritePEFile (pe_profile self) f (address_space self)
              (image_base self) in
          let self := set_out_fd (fd st) self in
          match r with
          | Ok _ => (Ok tt, (self, outfd ++ [LDone]))
          | Raise e => (Raise e, (self, outfd))
          end
      end
  end.

End PEDump.

(** ** The plugins that walk processes, modules and drivers *)

(** [_LDR_DATA_TABLE_ENTRY] as the plugins use it. *)
Module LdrModule.

Record t := mk { BaseDllName : string; DllBase : Z }.

End LdrModule.

(** [_EPROCESS] as the plugins use it.  [get_process_address_space] is
    [None] when the address space cannot be built: the framework then
    hands out a null object, which is false and whose method calls give
    a null object again. *)
Module Task.

Record t := mk {
  obj_offset : Z;
  UniqueProcessId : N;
  ImageFileName : string;
  Peb_ImageBaseAddress : Z;
  get_process_address_space : option AddressSpace.t;
  get_load_modules : list LdrModule.t
}.

End Task.

(** Method calls on an address space that may be the null object. *)
Definition as_is_valid_address (vm : option AddressSpace.t) (addr : Z) : bool :=
  match vm with
  | Some a => AddressSpace.is_valid_address a addr
  | None => false
  end.

(** The plugin object ([self]) and its surroundings.  The first group are
    the attributes of the object; [fd] is the caller's file object, which
    the object shares with the caller.  The second group is the
    environment: the diagnostic stream, the files created so far (in
    creation order), the directory test of the file system, what the
    process and module enumerations give, and a count of the process
    enumerations made. *)
Record state := mk_state {
  dump_dir : option string;
  fd : option Sink.t;
  pe_profile : PEProfile.t;
  regex_search : string → bool;
  processes : option (list Task.t);
  address_spaces : option (list (option AddressSpace.t));
  kernel_address_space : AddressSpace.t;
  outfd : list line;
  files : list (string * Sink.t);
  isdir : string → bool;
  process_list : list Task.t;
  lsmod : list LdrModule.t;
  enum_calls : nat
}.

Definition set_fd (x : option Sink.t) (s : state) : state :=
  mk_state (dump_dir s) x (pe_profile s) (regex_search s) (processes s)
    (address_spaces s) (kernel_address_space s) (outfd s) (files s) (isdir s)
    (process_list s) (lsmod s) (enum_calls s).
Definition set_address_spaces (x : option (list (option AddressSpace.t)))
    (s : state) : state :=
  mk_state (dump_dir s) (fd s) (pe_profile s) (regex_search s) (processes s)
    x (kernel_address_space s) (outfd s) (files s) (isdir s)
    (process_list s) (lsmod s) (enum_calls s).
Definition set_outfd (x : list line) (s : state) : state :=
  mk_state (dump_dir s) (fd s) (pe_profile s) (regex_search s) (processes s)
    (address_spaces s) (kernel_address_space s) x (files s) (isdir s)
    (process_list s) (lsmod s) (enum_calls s).
Definition set_files (x : list (string * Sink.t)) (s : state) : state :=
  mk_state (dump_dir s) (fd s) (pe_profile s) (regex_search s) (processes s)
    (address_spaces s) (kernel_address_space s) (outfd s) x (isdir s)
    (process_list s) (lsmod s) (enum_calls s).
Definition set_enum_calls (x : nat) (s : state) : state :=
  mk_state (dump_dir s) (fd s) (pe_profile s) (regex_search s) (processes s)
    (address_spaces s) (kernel_address_space s) (outfd s) (files s) (isdir s)
    (process_list s) (lsmod s) x.

(** The environment moves on: the process set changes. *)
Definition set_process_list (x : list Task.t) (s : state) : state :=
  mk_state (dump_dir s) (fd s) (pe_profile s) (regex_search s) (processes s)
    (address_spaces s) (kernel_address_space s) (outfd s) (files s) (isdir s)
    x (lsmod s) (enum_calls s).

(** [outfd.write(line)] *)
Definition outfd_write (l : line) : M state unit :=
  modify (λ s, set_outfd (outfd s ++ [l]) s).

(** [self.filter_processes()] *)
Definition filter_processes : M state (list Task.t) :=
  λ s, (Ok (process_list s), set_enum_calls (S (enum_calls s)) s).

(** [with open(path, "wb") as fd: self.pedump.WritePEFile(fd, vm, base)]:
    the file is created empty, written, and closed whatever happens. *)
Definition dump_to_new_file (path : string) (vm : AddressSpace.t) (base : Z)
  : M state unit :=
  λ s, let '(r, f) := PEDump.run_WritePEFile (pe_profile s) (Sink.open path) vm base in
       (r, set_files (files s ++ [(path, PEDump.fd f)]) s).

(** [os.path.join(self.dump_dir, name)] *)
Definition join_dump_dir (name : string) : M state string :=
  let* s := get in
  match dump_dir s with
  | Some d => ret (Py.path_join d name)
  | None => raise (AttributeError "endswith")
  end.

Module ProcExeDump.

(** [self.dump_dir = dump_dir or self.session.dump_dir] *)
Definition init_dump_dir (dump_dir session_dump_dir : option string)
  : option string :=
  if Py.truthy_opt_str dump_dir then dump_dir else session_dump_dir.

Definition check_dump_dir (dir : option string) : M state unit :=
  let* s := get in
  if negb (Py.truthy_opt_str dir)
  then raise (PluginError "Please specify a dump directory.")
  else if negb (isdir s (default "" dir))
  then raise (PluginError (Py.str_opt (dump_dir s) +:+ " is not a directory"))
  else ret tt.

(** [self.pedump.WritePEFile(self.fd, vm, base)] on the caller's file
    object. *)
Definition dump_to_fd (user_fd : Sink.t) (vm : AddressSpace.t) (base : Z)
  : M state unit :=
  λ s, let '(r, f) := PEDump.run_WritePEFile (pe_profile s) user_fd vm base in
       (r, set_fd (Some (PEDump.fd f)) s).

Definition exe_filename (image : string) (pid : N) : string :=
  "executable." +:+ image +:+ "_" +:+ Py.dec pid +:+ ".exe".

(** The body of the loop of [render] for one task. *)
Definition render_task (task : Task.t) : M state unit :=
  let pid := Task.UniqueProcessId task in
  match Task.get_process_address_space task with
  | None => outfd_write LNoAddressSpace          (* ... continue *)
  | Some task_address_space =>
      let* s := get in
      match fd s with
      | Some user_fd =>
          dump_to_fd user_fd task_address_space (Task.Peb_ImageBaseAddress task) ;;
          outfd_write LStars ;;
          outfd_write (LDumpingToFd (Task.ImageFileName task) pid)
      | None =>
          (* Create a new file. *)
          check_dump_dir (dump_dir s) ;;
          let sanitized_image_name := Py.sanitize (Task.ImageFileName task) in
          let* filename :=
            join_dump_dir (exe_filename sanitized_image_name pid) in
          outfd_write LStars ;;
          outfd_write (LDumpingToFile (Task.ImageFileName task) pid filename) ;;
          dump_to_new_file filename task_address_space
            (Task.Peb_ImageBaseAddress task)
      end
  end.

(** [ProcExeDump.render(self, outfd)] *)
Definition render : M state unit :=
  let* tasks := filter_processes in
  for_each tasks render_task.

End ProcExeDump.

Module DLLDump.

Definition dll_filename (pid : N) (process_offset : N) (base : Z) : string :=
  "module." +:+ Py.dec pid +:+ "." +:+ Py.hex (Z.of_N process_offset)
    +:+ "." +:+ Py.hex base +:+ ".dll".

(** Truth value of what [vtop] returns: no translation and offset zero
    are both false. *)
Definition truthy_offset (o : option N) : bool :=
  match o with Some n => negb (n =? 0)%N | None => false end.

(** The body of the inner loop of [render] for one module of [task]. *)
Definition render_module (task : Task.t) (module : LdrModule.t) : M state unit :=
  let task_as := Task.get_process_address_space task in
  let process_offset :=
    task_as ≫= λ vm, AddressSpace.vtop vm (Task.obj_offset task) in
  match task_as, process_offset with
  | Some vm, Some offset =>
      if truthy_offset process_offset then
        let* s := get in
        (* Skip the modules which do not match the regex. *)
        if negb (regex_search s (LdrModule.BaseDllName module)) then ret tt else
        let dump_file :=
          dll_filename (Task.UniqueProcessId task) offset (LdrModule.DllBase module) in
        outfd_write (LDumpingModule (LdrModule.BaseDllName module)
                       (Task.ImageFileName task) (LdrModule.DllBase module) dump_file) ;;
        (* Use the procdump module to dump out the binary: *)
        let* path := join_dump_dir dump_file in
        dump_to_new_file path vm (LdrModule.DllBase module)
      else
        (* the message names [proc], which is bound nowhere *)
        raise (NameError "proc")
  | _, _ => raise (NameError "proc")
  end.

(** [DLLDump.render(self, outfd)] *)
Definition render : M state unit :=
  (* Make sure the dump dir is ok. *)
  let* s := get in
  ProcExeDump.check_dump_dir (dump_dir s) ;;
  let* tasks := filter_processes in
  for_each tasks (λ task,
    (* Skip kernel and invalid processes. *)
    for_each (Task.get_load_modules task) (render_module task)).

End DLLDump.

Module ModDump.

(** [self.address_spaces.append(x)] *)
Definition address_spaces_append (x : option AddressSpace.t) : M state unit :=
  let* s := get in
  match address_spaces s with
  | Some l => modify (set_address_spaces (Some (l ++ [x])))
  | None => raise (AttributeError "append")
  end.

(** The search loop of [find_space]: the first candidate that reports
    the address valid is returned; falling off the loop returns [None]. *)
Fixpoint search (candidates : list (option AddressSpace.t)) (image_base : Z)
  : option AddressSpace.t :=
  match candidates with
  | [] => None
  | address_space :: rest =>
      if as_is_valid_address address_space image_base
      then address_space
      else search rest image_base
  end.

(** [ModDump.find_space(self, image_base)] *)
Definition find_space (image_base : Z) : M state (option AddressSpace.t) :=
  let* s := get in
  match processes s with
  | None =>
      modify (set_address_spaces (Some [Some (kernel_address_space s)])) ;;
      let* tasks := filter_processes in
      for_each tasks (λ task,
        address_spaces_append (Task.get_process_address_space task))
  | Some _ => ret tt
  end ;;
  let* s := get in
  match address_spaces s with
  | Some candidates => ret (search candidates image_base)
  | None => raise TypeError          (* iteration over [None] *)
  end.

Definition driver_filename (base : Z) : string :=
  "driver." +:+ Py.hex base +:+ ".sys".

(** [ModDump.render(self, outfd)] *)
Definition render : M state unit :=
  (* Make sure the dump dir is ok. *)
  let* s := get in
  ProcExeDump.check_dump_dir (dump_dir s) ;;
  for_each (lsmod s) (λ module,
    let* s := get in
    if regex_search s (LdrModule.BaseDllName module) then
      let* address_space := find_space (LdrModule.DllBase module) in
      match address_space with
      | Some vm =>
          let dump_file := driver_filename (LdrModule.DllBase module) in
          outfd_write (LDumpingDriver (LdrModule.BaseDllName module)
                         (LdrModule.DllBase module) dump_file) ;;
          let* path := join_dump_dir dump_file in
          dump_to_new_file path vm (LdrModule.DllBase module)
      | None => ret tt
      end
    else ret tt).

End ModDump.

(** ** ProcMemDump: the remap variant *)

Definition result_bind {A B} (r : result A) (k : A → result B) : result B :=
  match r with
  | Ok a => k a
  | Raise e => Raise e
  end.

Notation "'let+' x ':=' r 'in' k" := (result_bind r (λ x, k))
  (at level 10, x pattern, r at level 100, k at level 200).

(** What a generator has produced when it stops: the items yielded, and
    how it stopped ([Ok] for a normal end). *)
Record gen (A : Type) := mk_gen { yielded : list A; outcome : result unit }.
Arguments mk_gen {A} yielded outcome.
Arguments yielded {A} g.
Arguments outcome {A} g.

Definition gen_yield {A} (x : A) (rest : gen A) : gen A :=
  {| yielded := x :: yielded rest; outcome := outcome rest |}.

Module ProcMemDump.

(** The object.  [get_nt_header], [get_code] and [round] are helpers of
    the class that this file of the repository does not define; they
    are taken as they are called. *)
Record t := mk {
  pe_profile : PEProfile.t;
  unsafe : bool;
  get_nt_header : AddressSpace.t → Z → NTHeader.t;
  get_code : AddressSpace.t → Z → N → Z → Z * list byte;
  round : Z → Z → bool → Z
}.

(** [ProcMemDump.replace_header_field(self, sect, header, item, value)] *)
Definition replace_header_field (sect : SectionHeader.t) (header : list byte)
    (item : NativeType.t) (value : Z) : result (list byte) :=
  let field_size := NativeType.size item in
  let start := (NativeType.obj_offset item - SectionHeader.obj_offset sect)%Z in
  let end_ := (start + field_size)%Z in
  let+ newval := Struct.pack (NativeType.format_string item) value in
  let result := Py.slice_to header start ++ newval ++ Py.slice_from header end_ in
  Ok result.

Definition va (sect : SectionHeader.t) : Z :=
  Z.of_N (NativeType.v (SectionHeader.VirtualAddress sect)).

(** The first loop of [get_image]. *)
Fixpoint sect_sizes_loop (sects : list SectionHeader.t)
    (prevsect : option SectionHeader.t) (sect_sizes : list Z)
  : option SectionHeader.t * list Z :=
  match sects with
  | [] => (prevsect, sect_sizes)
  | sect :: rest =>
      let sect_sizes :=
        match prevsect with
        | Some prev => sect_sizes ++ [(va sect - va prev)%Z]
        | None => sect_sizes
        end in
      sect_sizes_loop rest (Some sect) sect_sizes
  end.

Definition compute_sect_sizes (self : t) (sa : N)
    (sects : list SectionHeader.t) : list Z :=
  let '(prevsect, sect_sizes) := sect_sizes_loop sects None [] in
  match prevsect with
  | Some prev =>
      sect_sizes ++
        [round self (Z.of_N (NativeType.v (SectionHeader.Misc_VirtualSize prev)))
           (Z.of_N sa) true]
  | None => sect_sizes
  end.

(** [sect_sizes[counter]] *)
Definition index (sect_sizes : list Z) (counter : nat) : result Z :=
  match sect_sizes !! counter with
  | Some x => Ok x
  | None => Raise IndexError
  end.

(** The body of the second loop: the patched header of one section. *)
Definition patch_header (addr_space : AddressSpace.t) (shs : N)
    (sect_sizes : list Z) (counter : nat) (sect : SectionHeader.t)
  : result (list byte) :=
  let sectheader :=
    AddressSpace.read addr_space (SectionHeader.obj_offset sect) shs in
  (* Change the PointerToRawData *)
  let+ sectheader :=
    replace_header_field sect sectheader (SectionHeader.PointerToRawData sect)
      (va sect) in
  let+ size := index sect_sizes counter in
  let+ sectheader :=
    replace_header_field sect sectheader (SectionHeader.SizeOfRawData sect) size in
  let+ size := index sect_sizes counter in
  let+ sectheader :=
    replace_header_field sect sectheader (SectionHeader.Misc_VirtualSize sect) size in
  Ok sectheader.

(** The second loop of [get_image]. *)
Fixpoint headers_loop (addr_space : AddressSpace.t) (shs : N)
    (sect_sizes : list Z) (start_addr : Z)
    (sects : list SectionHeader.t) (counter : nat) : gen (Z * list byte) :=
  match sects with
  | [] => {| yielded := []; outcome := Ok tt |}
  | sect :: rest =>
      match patch_header addr_space shs sect_sizes counter sect with
      | Ok sectheader =>
          gen_yield ((start_addr + Z.of_nat counter * Z.of_N shs)%Z, sectheader)
            (headers_loop addr_space shs sect_sizes start_addr rest (S counter))
      | Raise e => {| yielded := []; outcome := Raise e |}
      end
  end.

(** [ProcMemDump.get_image(self, addr_space, base_addr)] *)
Definition get_image (self : t) (addr_space : AddressSpace.t) (base_addr : Z)
  : gen (Z * list byte) :=
  let nt_header := get_nt_header self addr_space base_addr in
  let sa := OptionalHeader.SectionAlignment (NTHeader.OptionalHeader nt_header) in
  let shs := PEProfile.get_obj_size_IMAGE_SECTION_HEADER (pe_profile self) in
  gen_yield
    (get_code self addr_space base_addr
       (OptionalHeader.SizeOfImage (NTHeader.OptionalHeader nt_header)) 0)
    (let sect_sizes :=
       compute_sect_sizes self sa (NTHeader.get_sections nt_header (unsafe self)) in
     let start_addr :=
       (Z.of_N (FileHeader.SizeOfOptionalHeader (NTHeader.FileHeader nt_header))
        + (OptionalHeader.obj_offset (NTHeader.OptionalHeader nt_header) - base_addr))%Z in
     headers_loop addr_space shs sect_sizes start_addr
       (NTHeader.get_sections nt_header (unsafe self)) 0).

(** Reading a member back from a section header block: the bytes at the
    member's place, unpacked with the member's format. *)
Definition header_field (sect : SectionHeader.t) (header : list byte)
    (item : NativeType.t) : result Z :=
  let start := (NativeType.obj_offset item - SectionHeader.obj_offset sect)%Z in
  Struct.unpack (NativeType.format_string item)
    (Py.slice header start (start + NativeType.size item)).

(** The place of a member inside the header block of its section. *)
Definition member_start (sect : SectionHeader.t) (item : NativeType.t) : Z :=
  (NativeType.obj_offset item - SectionHeader.obj_offset sect)%Z.
Definition member_end (sect : SectionHeader.t) (item : NativeType.t) : Z :=
  (member_start sect item + NativeType.size item)%Z.

(** A member lies inside a block of [len] bytes and is as wide as its
    format packs. *)
Definition member_fits (len : Z) (sect : SectionHeader.t)
    (item : NativeType.t) : Prop :=
  (0 ≤ member_start sect item)%Z
  ∧ (member_end sect item ≤ len)%Z
  ∧ NativeType.size item
    = Z.of_nat (Struct.calcsize (NativeType.format_string item)).

Definition members_apart (sect : SectionHeader.t) (a b : NativeType.t) : Prop :=
  (member_end sect a ≤ member_start sect b)%Z
  ∨ (member_end sect b ≤ member_start sect a)%Z.

(** What the decoder guarantees of a section header of [shs] bytes: the
    three members that [get_image] rewrites lie inside the header and
    do not overlap. *)
Definition well_laid_out (shs : N) (sect : SectionHeader.t) : Prop :=
  member_fits (Z.of_N shs) sect (SectionHeader.PointerToRawData sect)
  ∧ member_fits (Z.of_N shs) sect (SectionHeader.SizeOfRawData sect)
  ∧ member_fits (Z.of_N shs) sect (SectionHeader.Misc_VirtualSize sect)
  ∧ members_apart sect (SectionHeader.PointerToRawData sect)
      (SectionHeader.SizeOfRawData sect)
  ∧ members_apart sect (SectionHeader.PointerToRawData sect)
      (SectionHeader.Misc_VirtualSize sect)
  ∧ members_apart sect (SectionHeader.SizeOfRawData sect)
      (SectionHeader.Misc_VirtualSize sect).

(** The virtual-address steps from [prev] through [sects]. *)
Fixpoint deltas (prev : SectionHeader.t) (sects : list SectionHeader.t) : list Z :=
  match sects with
  | [] => []
  | sect :: rest => (va sect - va prev)%Z :: deltas sect rest
  end.

End ProcMemDump.

(** ** Concrete images and processes, used to run the model *)

Module Fixture.

(** An address space over one mapped block [mem] at [base]; anything
    else reads as zero. *)
Definition byte_at (base : Z) (mem : list byte) (addr : Z) : byte :=
  if (addr <? base)%Z then x00 else default x00 (mem !! Z.to_nat (addr - base)).

Definition zread (base : Z) (mem : list byte) (addr : Z) (len : N) : list byte :=
  (λ i, byte_at base mem (addr + Z.of_nat i)) <$> seq 0 (N.to_nat len).

Definition mapped (base : Z) (mem : list byte) (addr : Z) : bool :=
  (base <=? addr)%Z && (addr <? base + Z.of_nat (length mem))%Z.

Definition space (base : Z) (mem : list byte) : AddressSpace.t :=
  {| AddressSpace.zread := zread base mem;
     AddressSpace.read := zread base mem;
     AddressSpace.is_valid_address := mapped base mem;
     AddressSpace.vtop := λ addr,
       if mapped base mem addr then Some (Z.to_N (addr - base + 4096)) else None |}.

(** A member of a section header at [off] from the header's start. *)
Definition member (sect_offset off : Z) (value : N) : NativeType.t :=
  {| NativeType.obj_offset := sect_offset + off;
     NativeType.size := 4;
     NativeType.format_string := Struct.fmt_I;
     NativeType.v := value |}.

(** A section header decoded at [sect_offset], with the members where
    the PE format puts them. *)
Definition section (sect_offset : Z) (vsize va rawsize rawptr : N)
  : SectionHeader.t :=
  {| SectionHeader.obj_offset := sect_offset;
     SectionHeader.Misc_VirtualSize := member sect_offset 8 vsize;
     SectionHeader.VirtualAddress := member sect_offset 12 va;
     SectionHeader.SizeOfRawData := member sect_offset 16 rawsize;
     SectionHeader.PointerToRawData := member sect_offset 20 rawptr |}.

Definition nt_header (opt_offset : Z) (size_of_headers alignment : N)
    (sects : list SectionHeader.t) : NTHeader.t :=
  {| NTHeader.FileHeader := {| FileHeader.SizeOfOptionalHeader := 224 |};
     NTHeader.OptionalHeader :=
       {| OptionalHeader.obj_offset := opt_offset;
          OptionalHeader.SizeOfHeaders := size_of_headers;
          OptionalHeader.SectionAlignment := alignment;
          OptionalHeader.SizeOfImage := 0x200 |};
     NTHeader.Sections := sects;
     NTHeader.get_sections := λ _, sects |}.

(** A decoder that finds the given NT header at every base. *)
Definition profile (nt : NTHeader.t) : PEProfile.t :=
  {| PEProfile.Object_IMAGE_DOS_HEADER := λ _ offset,
       {| DosHeader.obj_offset := offset; DosHeader.NTHeader := nt |};
     PEProfile.get_obj_size_IMAGE_SECTION_HEADER := 40 |}.

(** The image of the process dump scenario, scaled down: a header of
    [0x20] bytes of [0x4d] at [0x1000], one section of [0x60] bytes of
    [0x90] at virtual address [0x100], stored at file offset [0x40]. *)
Definition image : list byte :=
  replicate 0x20 x4d ++ replicate 0xe0 x00 ++ replicate 0x60 x90.
Definition image_space : AddressSpace.t := space 0x1000 image.
Definition image_nt : NTHeader.t :=
  nt_header 0x1098 0x20 0x1000 [section 0x1178 0x60 0x100 0x60 0x40].
Definition image_profile : PEProfile.t := profile image_nt.

(** An image whose section table is hostile: the declared size and
    file offset are beyond the maxima. *)
Definition hostile_nt : NTHeader.t :=
  nt_header 0x1098 0x20 0x1000
    [section 0x1178 0x60 0x100 0xfffffff0 0xffffff00].
Definition hostile_profile : PEProfile.t := profile hostile_nt.

(** A header of size zero: nothing can be read. *)
Definition empty_nt : NTHeader.t :=
  nt_header 0x1098 0 0x1000 [section 0x1178 0x60 0x100 0x60 0x40].
Definition empty_profile : PEProfile.t := profile empty_nt.

(** A raw section header block, and the same block with the value
    [0x1000] in the member at offset 20. *)
Definition header_block : list byte := replicate 40 xff.
Definition patched_block : list byte :=
  replicate 20 xff ++ [x00; x10; x00; x00] ++ replicate 16 xff.

(** Modelled from the spec: [round] is called by [get_image] and defined
    nowhere in this file; "rounded up to the NT header's section
    alignment" is the next multiple of the alignment, the address
    itself when it is one. *)
Definition round (addr align : Z) (up : bool) : Z :=
  if (addr mod align =? 0)%Z then addr
  else if up then (addr + (align - addr mod align))%Z
  else (addr - addr mod align)%Z.

(** An image of two sections, at virtual addresses [0x1000] and
    [0x3000]; the last has virtual size [0x1234]. *)
Definition remap_sections : list SectionHeader.t :=
  [section 0x1178 0x1800 0x1000 0x600 0x400;
   section 0x11a0 0x1234 0x3000 0x200 0xa00].
Definition remap_nt : NTHeader.t := nt_header 0x1098 0x20 0x1000 remap_sections.
Definition remap_plugin : ProcMemDump.t :=
  {| ProcMemDump.pe_profile := profile remap_nt;
     ProcMemDump.unsafe := false;
     ProcMemDump.get_nt_header := λ _ _, remap_nt;
     ProcMemDump.get_code := λ vm base size offset,
       (offset, AddressSpace.zread vm base size);
     ProcMemDump.round := round |}.

(** Three address spaces: the kernel's, and those of two processes.
    Only the second process maps the image at [0x1000]. *)
Definition K : AddressSpace.t := space 0x80000000 (replicate 0x40 x00).
Definition P1 : AddressSpace.t := space 0x400000 (replicate 0x40 x00).
Definition P2 : AddressSpace.t := image_space.

Definition modules : list LdrModule.t :=
  [ {| LdrModule.BaseDllName := "kernel32.dll"; LdrModule.DllBase := 0x1000 |};
    {| LdrModule.BaseDllName := "ntdll.dll"; LdrModule.DllBase := 0x1000 |};
    {| LdrModule.BaseDllName := "evil.dll"; LdrModule.DllBase := 0x1000 |} ].

Definition task1 : Task.t :=
  {| Task.obj_offset := 0x400010; Task.UniqueProcessId := 4;
     Task.ImageFileName := "System"; Task.Peb_ImageBaseAddress := 0x400000;
     Task.get_process_address_space := Some P1;
     Task.get_load_modules := [] |}.
Definition task2 : Task.t :=
  {| Task.obj_offset := 0x1010; Task.UniqueProcessId := 1234;
     Task.ImageFileName := "evil.exe"; Task.Peb_ImageBaseAddress := 0x1000;
     Task.get_process_address_space := Some P2;
     Task.get_load_modules := modules |}.
(** A process whose address space cannot be built. *)
Definition task3 : Task.t :=
  {| Task.obj_offset := 0x2010; Task.UniqueProcessId := 8;
     Task.ImageFileName := "gone.exe"; Task.Peb_ImageBaseAddress := 0x1000;
     Task.get_process_address_space := None;
     Task.get_load_modules := modules |}.

(** The pattern [.*evil.*]. *)
Definition matches_evil (name : string) : bool :=
  match String.index 0 "evil" name with Some _ => true | None => false end.

(** A plugin object in its surroundings: [/dumps] is the only
    directory, nothing has been written or enumerated yet. *)
Definition plugin (dir : option string) (user_fd : option Sink.t)
    (tasks : list Task.t) : state :=
  {| dump_dir := dir; fd := user_fd; pe_profile := image_profile;
     regex_search := matches_evil; processes := None; address_spaces := None;
     kernel_address_space := K; outfd := []; files := [];
     isdir := String.eqb "/dumps"; process_list := tasks;
     lsmod := modules; enum_calls := 0 |}.

End Fixture.

(** ** Vocabulary for the module filter *)




(** ** Vocabulary for the layout of the output file *)

Module Layout.

(** A write: the position the sink was set to, and the bytes written. *)
Definition write := (nat * list byte)%type.

Definition start (w : write) : nat := w.1.
Definition stop (w : write) : nat := w.1 + length w.2.

(** Position [i] lies in the range of the write. *)
Definition covers (w : write) (i : nat) : Prop := start w ≤ i ∧ i < stop w.

(** Two writes whose ranges do not meet. *)
Definition apart (a b : write) : Prop := stop a ≤ start b ∨ stop b ≤ start a.

(** The content of a file after a sequence of seek-and-write pairs. *)
Definition apply_writes (content : list byte) (ws : list write) : list byte :=
  foldl (λ c w, Sink.write_at w.1 w.2 c) content ws.

(** The write that [WritePEFile] makes for the header and for a section. *)
Definition header_write (pe_profile : PEProfile.t) (vm : AddressSpace.t)
    (base : Z) : write :=
  (0%nat, PEDump.header_data pe_profile vm base).
Definition section_write (vm : AddressSpace.t) (image_base : Z)
    (section : SectionHeader.t) : write :=
  (N.to_nat (Py.min 100000000 (NativeType.v (SectionHeader.PointerToRawData section))),
   PEDump.section_data vm image_base section).

End Layout.

(** ** Vocabulary for the runs over processes *)

Module Run.

(** What [ProcExeDump.render] writes for a process, and what becomes of
    the caller's file object, when it dumps into that object. *)
Definition fd_lines (task : Task.t) : list line :=
  match Task.get_process_address_space task with
  | Some _ => [LStars; LDumpingToFd (Task.ImageFileName task) (Task.UniqueProcessId task)]
  | None => [LNoAddressSpace]
  end.
Definition fd_step (profile : PEProfile.t) (f : Sink.t) (task : Task.t) : Sink.t :=
  match Task.get_process_address_space task with
  | Some vm =>
      PEDump.fd (PEDump.run_WritePEFile profile f vm (Task.Peb_ImageBaseAddress task)).2
  | None => f
  end.

(** The file of a process under the dump directory [d], the lines
    written for the process, and the file created for it. *)
Definition exe_path (d : string) (task : Task.t) : string :=
  Py.path_join d
    (ProcExeDump.exe_filename (Py.sanitize (Task.ImageFileName task))
       (Task.UniqueProcessId task)).
Definition file_lines (d : string) (task : Task.t) : list line :=
  match Task.get_process_address_space task with
  | Some _ =>
      [LStars;
       LDumpingToFile (Task.ImageFileName task) (Task.UniqueProcessId task)
         (exe_path d task)]
  | None => [LNoAddressSpace]
  end.
Definition task_files (profile : PEProfile.t) (d : string) (task : Task.t)
  : list (string * Sink.t) :=
  match Task.get_process_address_space task with
  | Some vm =>
      [(exe_path d task,
        PEDump.fd (PEDump.run_WritePEFile profile (Sink.open (exe_path d task)) vm
                     (Task.Peb_ImageBaseAddress task)).2)]
  | None => []
  end.

(** Every character of a string passes a test. *)
Fixpoint all_chars (test : Ascii.ascii → bool) (s : string) : bool :=
  match s with
  | EmptyString => true
  | String c s' => test c && all_chars test s'
  end.
Definition not_slash (c : Ascii.ascii) : bool := negb (Ascii.eqb c "/"%char).

End Run.

(** ** Vocabulary for the runs over modules and drivers *)

Module DllRun.

(** A state with more lines and more files. *)
Definition extend (ls : list line) (fs : list (string * Sink.t)) (s : state)
  : state :=
  set_files (files s ++ fs) (set_outfd (outfd s ++ ls) s).

(** The physical offset of the process record in the address space of
    the process, and whether [render] takes it for true. *)
Definition process_offset (task : Task.t) : option N :=
  Task.get_process_address_space task
    ≫= λ vm, AddressSpace.vtop vm (Task.obj_offset task).
Definition translates (task : Task.t) : bool :=
  DLLDump.truthy_offset (process_offset task).

(** The line and the file of one module of [task], when its name
    matches. *)
Definition module_lines (regex : string → bool) (task : Task.t) (offset : N)
    (module : LdrModule.t) : list line :=
  if regex (LdrModule.BaseDllName module)
  then [LDumpingModule (LdrModule.BaseDllName module) (Task.ImageFileName task)
          (LdrModule.DllBase module)
          (DLLDump.dll_filename (Task.UniqueProcessId task) offset
             (LdrModule.DllBase module))]
  else [].
Definition module_files (profile : PEProfile.t) (regex : string → bool)
    (d : string) (task : Task.t) (vm : AddressSpace.t) (offset : N)
    (module : LdrModule.t) : list (string * Sink.t) :=
  if regex (LdrModule.BaseDllName module)
  then
    let path :=
      Py.path_join d
        (DLLDump.dll_filename (Task.UniqueProcessId task) offset
           (LdrModule.DllBase module)) in
    [(path,
      PEDump.fd (PEDump.run_WritePEFile profile (Sink.open path) vm
                   (LdrModule.DllBase module)).2)]
  else [].

(** The lines and the files of all modules of [task]. *)
Definition dll_lines (regex : string → bool) (task : Task.t) : list line :=
  match process_offset task with
  | Some offset => Task.get_load_modules task ≫= module_lines regex task offset
  | None => []
  end.
Definition dll_files (profile : PEProfile.t) (regex : string → bool) (d : string)
    (task : Task.t) : list (string * Sink.t) :=
  match Task.get_process_address_space task, process_offset task with
  | Some vm, Some offset =>
      Task.get_load_modules task ≫= module_files profile regex d task vm offset
  | _, _ => []
  end.

(** The line and the file of one driver, when its name matches and an
    address space holds its base. *)
Definition driver_lines (regex : string → bool)
    (candidates : list (option AddressSpace.t)) (module : LdrModule.t)
  : list line :=
  if regex (LdrModule.BaseDllName module)
  then match ModDump.search candidates (LdrModule.DllBase module) with
       | Some _ =>
           [LDumpingDriver (LdrModule.BaseDllName module) (LdrModule.DllBase module)
              (ModDump.driver_filename (LdrModule.DllBase module))]
       | None => []
       end
  else [].
Definition driver_files (profile : PEProfile.t) (regex : string → bool)
    (d : string) (candidates : list (option AddressSpace.t))
    (module : LdrModule.t) : list (string * Sink.t) :=
  if regex (LdrModule.BaseDllName module)
  then match ModDump.search candidates (LdrModule.DllBase module) with
       | Some vm =>
           let path :=
             Py.path_join d (ModDump.driver_filename (LdrModule.DllBase module)) in
           [(path,
             PEDump.fd (PEDump.run_WritePEFile profile (Sink.open path) vm
                          (LdrModule.DllBase module)).2)]
       | None => []
       end
  else [].

End DllRun.

(** ** An image whose section table is out of order *)

Module Unsorted.

(** Two sections, the second at a lower virtual address than the
    first. *)
Definition sections : list SectionHeader.t :=
  [Fixture.section 0x1178 0x1800 0x3000 0x600 0x400;
   Fixture.section 0x11a0 0x1234 0x1000 0x200 0xa00].
Definition nt : NTHeader.t := Fixture.nt_header 0x1098 0x20 0x1000 sections.
Definition plugin : ProcMemDump.t :=
  {| ProcMemDump.pe_profile := Fixture.profile nt;
     ProcMemDump.unsafe := false;
     ProcMemDump.get_nt_header := λ _ _, nt;
     ProcMemDump.get_code := λ vm base size offset,
       (offset, AddressSpace.zread vm base size);
     ProcMemDump.round := Fixture.round |}.

End Unsorted.

(** ** An image with a section of no bytes *)

Module EmptySection.

(** One section that declares no raw data, at file offset [0x40], beyond
    the header of [0x20] bytes. *)
Definition nt : NTHeader.t :=
  Fixture.nt_header 0x1098 0x20 0x1000 [Fixture.section 0x1178 0x60 0x100 0 0x40].
Definition profile : PEProfile.t := Fixture.profile nt.

End EmptySection.

(** * Properties *)

(** ** The monad *)

Lemma for_each_app {S A} (l1 l2 : list A) (body : A → M S unit) (s : S) :
  for_each (l1 ++ l2) body s = (for_each l1 body ;; for_each l2 body) s.
Proof.
  revert s. induction l1 as [|x l1 IH]; intros s; simpl.
  - reflexivity.
  - unfold bind. destruct (body x s) as [[[]|e] s1]; [|reflexivity].
    rewrite IH. reflexivity.
Qed.

Lemma bind_ret {S A B} (a : A) (k : A → M S B) (s : S) :
  bind (ret a) k s = k a s.
Proof. reflexivity. Qed.

Lemma bind_raise {S A B} (e : exn) (k : A → M S B) (s : S) :
  bind (raise e) k s = (Raise e, s).
Proof. reflexivity. Qed.

Lemma bind_get {S B} (k : S → M S B) (s : S) : bind get k s = k s s.
Proof. reflexivity. Qed.

Lemma bind_modify {S B} (f : S → S) (k : unit → M S B) (s : S) :
  bind (modify f) k s = k tt (f s).
Proof. reflexivity. Qed.

Lemma bind_outfd_write {B} (l : line) (k : unit → M state B) (s : state) :
  bind (outfd_write l) k s = k tt (set_outfd (outfd s ++ [l]) s).
Proof. reflexivity. Qed.

Lemma bind_filter_processes {B} (k : list Task.t → M state B) (s : state) :
  bind filter_processes k s
  = k (process_list s) (set_enum_calls (S (enum_calls s)) s).
Proof. reflexivity. Qed.

Lemma bind_join_dump_dir {B} (name : string) (k : string → M state B) (s : state) :
  bind (join_dump_dir name) k s
  = match dump_dir s with
    | Some d => k (Py.path_join d name) s
    | None => (Raise (AttributeError "endswith"), s)
    end.
Proof. unfold join_dump_dir, bind, get. by destruct (dump_dir s). Qed.


Lemma check_dump_dir_eq (dir : option string) (s : state) :
  ProcExeDump.check_dump_dir dir s
  = if negb (Py.truthy_opt_str dir)
    then (Raise (PluginError "Please specify a dump directory."), s)
    else if negb (isdir s (default "" dir))
    then (Raise (PluginError (Py.str_opt (dump_dir s) +:+ " is not a directory")), s)
    else (Ok tt, s).
Proof.
  unfold ProcExeDump.check_dump_dir. rewrite bind_get.
  destruct (negb (Py.truthy_opt_str dir)); [done|].
  by destruct (negb (isdir s (default "" dir))).
Qed.


(** ** Python builtins *)

Lemma py_min_spec (a b : N) : Py.min a b = N.min a b.
Proof. unfold Py.min. destruct (N.ltb_spec b a); lia. Qed.

Lemma truthy_bytes_nil (data : list byte) :
  Py.truthy_bytes data = false ↔ data = [].
Proof. destruct data; simpl; split; congruence. Qed.

(** ** WritePEFile *)

Section WritePEFile.

Variables (pe_profile : PEProfile.t) (vm : AddressSpace.t) (base : Z).

Let image_base := PEDump.effective_base pe_profile vm base.
Let sections := PEDump.sections_of pe_profile vm base.
Let header_len := Py.min 1000000 (PEDump.size_of_headers pe_profile vm base).
Let header := PEDump.header_data pe_profile vm base.
Let section_events := PEDump.section_events vm image_base.
Let section_sink := PEDump.section_sink vm image_base.

Lemma section_loop (sects : list SectionHeader.t) (s : PEDump.fd_state) :
  for_each sects (PEDump.write_section vm image_base) s =
  (Ok tt, {| PEDump.fd := foldl section_sink (PEDump.fd s) sects;
             PEDump.log := PEDump.log s ++ sects ≫= section_events |}).
Proof.
  revert s. induction sects as [|sect sects IH]; intros [f l]; simpl.
  - by rewrite app_nil_r.
  - unfold bind at 1. unfold PEDump.write_section at 1. simpl.
    rewrite IH. simpl. f_equal. f_equal.
    rewrite <- !app_assoc. reflexivity.
Qed.

(** [WritePEFile] in closed form. *)
Lemma run_WritePEFile_eq (fd0 : Sink.t) :
  PEDump.run_WritePEFile pe_profile fd0 vm base =
  if Py.truthy_bytes header
  then (Ok tt,
         {| PEDump.fd :=
              foldl section_sink (Sink.write header (Sink.seek 0 fd0)) sections;
            PEDump.log :=
              [PEDump.EvRead image_base header_len; PEDump.EvSeek 0;
               PEDump.EvWrite header]
                ++ sections ≫= section_events |})
  else (Ok tt, {| PEDump.fd := fd0;
                  PEDump.log := [PEDump.EvRead image_base header_len] |}).
Proof.
  unfold PEDump.run_WritePEFile, PEDump.WritePEFile.
  unfold bind at 1. simpl.
  change (AddressSpace.zread vm _ _) with header.
  destruct (Py.truthy_bytes header); simpl; [|reflexivity].
  unfold bind. simpl.
  change (DosHeader.obj_offset _) with image_base.
  rewrite section_loop. reflexivity.
Qed.

End WritePEFile.

Lemma read_lengths_sections vm b (sects : list SectionHeader.t) :
  PEDump.read_lengths (sects ≫= PEDump.section_events vm b) =
  (λ s, Py.min 10000000 (NativeType.v (SectionHeader.SizeOfRawData s))) <$> sects.
Proof.
  induction sects as [|s sects IH]; [done|].
  change ((s :: sects) ≫= PEDump.section_events vm b)
    with (PEDump.section_events vm b s ++ sects ≫= PEDump.section_events vm b).
  unfold PEDump.read_lengths, PEDump.seek_offsets in *.
  cbn [PEDump.section_events app omap list_omap fmap list_fmap].
  f_equal. exact IH.
Qed.

Lemma seek_offsets_sections vm b (sects : list SectionHeader.t) :
  PEDump.seek_offsets (sects ≫= PEDump.section_events vm b) =
  (λ s, Py.min 100000000 (NativeType.v (SectionHeader.PointerToRawData s))) <$> sects.
Proof.
  induction sects as [|s sects IH]; [done|].
  change ((s :: sects) ≫= PEDump.section_events vm b)
    with (PEDump.section_events vm b s ++ sects ≫= PEDump.section_events vm b).
  unfold PEDump.read_lengths, PEDump.seek_offsets in *.
  cbn [PEDump.section_events app omap list_omap fmap list_fmap].
  f_equal. exact IH.
Qed.

Lemma section_sink_bytes vm1 vm2 b (sects : list SectionHeader.t) (f g : Sink.t) :
  (∀ addr len, AddressSpace.zread vm1 addr len = AddressSpace.zread vm2 addr len) →
  Sink.bytes f = Sink.bytes g →
  Sink.bytes (foldl (PEDump.section_sink vm1 b) f sects) =
  Sink.bytes (foldl (PEDump.section_sink vm2 b) g sects).
Proof.
  intros Hvm. revert f g. induction sects as [|s sects IH]; intros f g Hfg; simpl.
  - exact Hfg.
  - apply IH. unfold PEDump.section_sink, PEDump.section_data. simpl.
    by rewrite Hvm, Hfg.
Qed.

Lemma section_events_ext vm1 vm2 b (sects : list SectionHeader.t) :
  (∀ addr len, AddressSpace.zread vm1 addr len = AddressSpace.zread vm2 addr len) →
  sects ≫= PEDump.section_events vm1 b = sects ≫= PEDump.section_events vm2 b.
Proof.
  intros Hvm. induction sects as [|s sects IH]; [done|].
  change ((s :: sects) ≫= PEDump.section_events vm1 b)
    with (PEDump.section_events vm1 b s ++ sects ≫= PEDump.section_events vm1 b).
  change ((s :: sects) ≫= PEDump.section_events vm2 b)
    with (PEDump.section_events vm2 b s ++ sects ≫= PEDump.section_events vm2 b).
  rewrite IH. unfold PEDump.section_events, PEDump.section_data. by rewrite Hvm.
Qed.

(** C1. Every length read and every offset sought by [WritePEFile] is
    clamped: the header read has length [min(1000000, SizeOfHeaders)];
    for the [i]-th section the read has length
    [min(10000000, SizeOfRawData)] and the sink is positioned at
    [min(100000000, PointerToRawData)]; when a declared value exceeds its
    maximum, the value used is the maximum and not the declared value. *)
Theorem WritePEFile_clamps (pe_profile : PEProfile.t) (fd0 : Sink.t)
    (vm : AddressSpace.t) (base : Z) :
  let events := PEDump.log (PEDump.run_WritePEFile pe_profile fd0 vm base).2 in
  let size_of_headers := PEDump.size_of_headers pe_profile vm base in
  (PEDump.read_lengths events !! 0%nat = Some (N.min 1000000 size_of_headers)
   ∧ ((1000000 < size_of_headers)%N →
      PEDump.read_lengths events !! 0%nat = Some 1000000%N
      ∧ PEDump.read_lengths events !! 0%nat ≠ Some size_of_headers))
  ∧ ∀ (i : nat) (section : SectionHeader.t),
      PEDump.sections_of pe_profile vm base !! i = Some section →
      PEDump.header_data pe_profile vm base ≠ [] →
      let size_of_raw_data := NativeType.v (SectionHeader.SizeOfRawData section) in
      let pointer_to_raw_data :=
        NativeType.v (SectionHeader.PointerToRawData section) in
      PEDump.read_lengths events !! S i = Some (N.min 10000000 size_of_raw_data)
      ∧ PEDump.seek_offsets events !! S i = Some (N.min 100000000 pointer_to_raw_data)
      ∧ ((10000000 < size_of_raw_data)%N →
         PEDump.read_lengths events !! S i = Some 10000000%N
         ∧ PEDump.read_lengths events !! S i ≠ Some size_of_raw_data)
      ∧ ((100000000 < pointer_to_raw_data)%N →
         PEDump.seek_offsets events !! S i = Some 100000000%N
         ∧ PEDump.seek_offsets events !! S i ≠ Some pointer_to_raw_data).
Proof.
  intros events size_of_headers.
  assert (Hhead : PEDump.read_lengths events !! 0%nat
                  = Some (N.min 1000000 size_of_headers)).
  { subst events. rewrite run_WritePEFile_eq.
    destruct (Py.truthy_bytes _); simpl; by rewrite py_min_spec. }
  split.
  - split; [exact Hhead|]. intros Hlt. rewrite Hhead.
    split; [f_equal; lia | intros [= ?]; lia].
  - intros i section Hi Hdata size_of_raw_data pointer_to_raw_data.
    assert (Hread : PEDump.read_lengths events !! S i
                    = Some (N.min 10000000 size_of_raw_data)
                    ∧ PEDump.seek_offsets events !! S i
                      = Some (N.min 100000000 pointer_to_raw_data)).
    { subst events. rewrite run_WritePEFile_eq.
      destruct (Py.truthy_bytes _) eqn:Htruthy.
      2:{ apply truthy_bytes_nil in Htruthy. done. }
      cbn [snd PEDump.log].
      unfold PEDump.read_lengths, PEDump.seek_offsets.
      rewrite !omap_app. cbn [omap app].
      fold (PEDump.read_lengths
              (PEDump.sections_of pe_profile vm base ≫=
                 PEDump.section_events vm (PEDump.effective_base pe_profile vm base))).
      fold (PEDump.seek_offsets
              (PEDump.sections_of pe_profile vm base ≫=
                 PEDump.section_events vm (PEDump.effective_base pe_profile vm base))).
      rewrite read_lengths_sections, seek_offsets_sections.
      simpl. rewrite !list_lookup_fmap, Hi. simpl.
      by rewrite !py_min_spec. }
    destruct Hread as [Hread Hseek]. rewrite Hread, Hseek.
    repeat split; try (f_equal; lia); intros [= ?]; lia.
Qed.

(** C2. When the header read returns no bytes, [WritePEFile] returns
    normally with the sink as it was: it is neither positioned nor
    written, so it receives no byte. *)
Theorem WritePEFile_empty_header (pe_profile : PEProfile.t) (fd0 : Sink.t)
    (vm : AddressSpace.t) (base : Z) :
  PEDump.header_data pe_profile vm base = [] →
  let run := PEDump.run_WritePEFile pe_profile fd0 vm base in
  run.1 = Ok tt
  ∧ PEDump.fd run.2 = fd0
  ∧ PEDump.seek_offsets (PEDump.log run.2) = []
  ∧ PEDump.writes (PEDump.log run.2) = [].
Proof.
  intros Hdata run. subst run. rewrite run_WritePEFile_eq.
  rewrite Hdata. simpl. done.
Qed.

(** C4. The output of [WritePEFile] is a function of what the address
    space holds and of the image base: two runs over address spaces that
    read the same and decode to the same headers, into two sinks that
    start with the same content, make the same reads, seeks and writes
    and leave the same bytes in both sinks. *)
Theorem WritePEFile_deterministic (pe_profile : PEProfile.t)
    (vm1 vm2 : AddressSpace.t) (base : Z) (fd1 fd2 : Sink.t) :
  (∀ addr len, AddressSpace.zread vm1 addr len = AddressSpace.zread vm2 addr len) →
  PEProfile.Object_IMAGE_DOS_HEADER pe_profile vm1 base
  = PEProfile.Object_IMAGE_DOS_HEADER pe_profile vm2 base →
  Sink.bytes fd1 = Sink.bytes fd2 →
  let run1 := PEDump.run_WritePEFile pe_profile fd1 vm1 base in
  let run2 := PEDump.run_WritePEFile pe_profile fd2 vm2 base in
  run1.1 = run2.1
  ∧ PEDump.log run1.2 = PEDump.log run2.2
  ∧ Sink.bytes (PEDump.fd run1.2) = Sink.bytes (PEDump.fd run2.2).
Proof.
  intros Hvm Hdos Hfd run1 run2. subst run1 run2.
  rewrite !run_WritePEFile_eq.
  unfold PEDump.header_data, PEDump.effective_base, PEDump.size_of_headers,
    PEDump.sections_of.
  rewrite Hdos, Hvm.
  destruct (Py.truthy_bytes _); simpl.
  - split; [done|]. split.
    + by rewrite (section_events_ext vm1 vm2).
    + apply section_sink_bytes; [done|]. simpl. by rewrite Hfd.
  - done.
Qed.

Lemma WritePEFile_clamps_witness :
  let events :=
    PEDump.log (PEDump.run_WritePEFile Fixture.hostile_profile (Sink.open "out")
                  Fixture.image_space 0x1000).2 in
  PEDump.read_lengths events !! 1%nat = Some 10000000%N
  ∧ PEDump.seek_offsets events !! 1%nat = Some 100000000%N.
Proof.
  intros events.
  assert (Hdata : PEDump.header_data Fixture.hostile_profile Fixture.image_space
                    0x1000 ≠ []) by (vm_compute; discriminate).
  pose proof (proj2 (WritePEFile_clamps Fixture.hostile_profile (Sink.open "out")
                       Fixture.image_space 0x1000)
                0%nat (Fixture.section 0x1178 0x60 0x100 0xfffffff0 0xffffff00)
                eq_refl Hdata) as (_ & _ & Hsize & Hoffset).
  split.
  - apply Hsize. reflexivity.
  - apply Hoffset. reflexivity.
Defined.

Lemma WritePEFile_empty_header_witness :
  PEDump.fd (PEDump.run_WritePEFile Fixture.empty_profile (Sink.open "out")
               Fixture.image_space 0x1000).2 = Sink.open "out".
Proof.
  apply (WritePEFile_empty_header Fixture.empty_profile (Sink.open "out")
           Fixture.image_space 0x1000).
  reflexivity.
Defined.

Lemma WritePEFile_deterministic_witness :
  Sink.bytes (PEDump.fd (PEDump.run_WritePEFile Fixture.image_profile
                           (Sink.open "first") Fixture.image_space 0x1000).2)
  = Sink.bytes (PEDump.fd (PEDump.run_WritePEFile Fixture.image_profile
                             (Sink.seek 7 (Sink.open "second"))
                             Fixture.image_space 0x1000).2).
Proof.
  apply (WritePEFile_deterministic Fixture.image_profile Fixture.image_space
           Fixture.image_space 0x1000 (Sink.open "first")
           (Sink.seek 7 (Sink.open "second"))).
  - intros addr len. reflexivity.
  - reflexivity.
  - reflexivity.
Defined.

(** The process dump scenario: the header at offset 0, a zero gap, and
    the section at its file offset. *)
Example WritePEFile_scenario :
  Sink.bytes (PEDump.fd (PEDump.run_WritePEFile Fixture.image_profile
                           (Sink.open "out") Fixture.image_space 0x1000).2)
  = replicate 0x20 x4d ++ replicate 0x20 x00 ++ replicate 0x60 x90.
Proof. vm_compute. reflexivity. Qed.

(** ** ModDump.find_space *)

Lemma set_address_spaces_twice x y (s : state) :
  set_address_spaces x (set_address_spaces y s) = set_address_spaces x s.
Proof. reflexivity. Qed.

Lemma set_address_spaces_same (s : state) l :
  address_spaces s = Some l → set_address_spaces (Some l) s = s.
Proof. destruct s; simpl; intros ->; reflexivity. Qed.

Lemma address_spaces_append_loop (tasks : list Task.t) (s : state) l :
  address_spaces s = Some l →
  for_each tasks
    (λ task, ModDump.address_spaces_append (Task.get_process_address_space task)) s
  = (Ok tt,
     set_address_spaces (Some (l ++ (Task.get_process_address_space <$> tasks))) s).
Proof.
  revert s l. induction tasks as [|task tasks IH]; intros s l Hl; simpl.
  - rewrite app_nil_r, set_address_spaces_same; done.
  - unfold bind at 1. unfold ModDump.address_spaces_append at 1.
    unfold bind at 1, get. rewrite Hl. unfold modify.
    rewrite (IH _ (l ++ [Task.get_process_address_space task])); [|done].
    by rewrite set_address_spaces_twice, <- app_assoc.
Qed.

(** The candidates that [find_space] builds: the kernel address space,
    then the address space of each process as enumerated. *)
Lemma find_space_build (image_base : Z) (s : state) :
  processes s = None →
  let candidates :=
    Some (kernel_address_space s)
      :: (Task.get_process_address_space <$> process_list s) in
  ModDump.find_space image_base s
  = (Ok (ModDump.search candidates image_base),
     set_address_spaces (Some candidates)
       (set_enum_calls (S (enum_calls s)) s)).
Proof.
  intros Hp candidates. unfold ModDump.find_space.
  unfold bind at 1, get. rewrite Hp.
  unfold bind at 1. unfold bind at 1, modify.
  unfold bind at 1, filter_processes.
  rewrite (address_spaces_append_loop _ _ [Some (kernel_address_space s)]); [|done].
  unfold bind, get. simpl. reflexivity.
Qed.

(** With [processes] set the list is never built: a list that is there
    is searched as it is, and without one the loop fails. *)
Lemma find_space_no_build (image_base : Z) (s : state) ps :
  processes s = Some ps →
  ModDump.find_space image_base s
  = match address_spaces s with
    | Some candidates => (Ok (ModDump.search candidates image_base), s)
    | None => (Raise TypeError, s)
    end.
Proof.
  intros Hp. unfold ModDump.find_space, bind, get, ret. rewrite Hp.
  destruct (address_spaces s); reflexivity.
Qed.

(** What the search loop returns: the first candidate that reports the
    address valid, and nothing when there is none. *)
Lemma search_first_valid (candidates : list (option AddressSpace.t)) (image_base : Z) :
  match ModDump.search candidates image_base with
  | Some vm =>
      ∃ i : nat,
        candidates !! i = Some (Some vm)
        ∧ AddressSpace.is_valid_address vm image_base = true
        ∧ ∀ (j : nat) c, (j < i)%nat → candidates !! j = Some c →
                          as_is_valid_address c image_base = false
  | None => ∀ c, c ∈ candidates → as_is_valid_address c image_base = false
  end.
Proof.
  induction candidates as [|c candidates IH]; simpl.
  - intros c Hc. by apply elem_of_nil in Hc.
  - destruct (as_is_valid_address c image_base) eqn:Hvalid.
    + destruct c as [vm|]; [|done]. exists 0%nat. repeat split; [done|]. lia.
    + destruct (ModDump.search candidates image_base) as [vm|].
      * destruct IH as (i & Hi & Hvm & Hbefore). exists (S i).
        repeat split; [done..|]. intros [|j] c' Hj Hc'; simpl in Hc'.
        -- congruence.
        -- apply (Hbefore j); [lia|done].
      * intros c' [->|Hc']%elem_of_cons; [done|]. by apply IH.
Qed.

(** C5. [find_space] searches the candidates in order, the kernel address
    space first and then each process's address space as enumerated, and
    returns the first that reports the base valid; it returns nothing
    when none does.  For candidates [K, P1, P2] of which only [P2] reports
    the base valid it returns [P2]. *)
Theorem find_space_first_valid (s : state) (image_base : Z) :
  let run := ModDump.find_space image_base s in
  (processes s = None →
   address_spaces run.2
   = Some (Some (kernel_address_space s)
             :: (Task.get_process_address_space <$> process_list s))
   ∧ ∃ found, run.1 = Ok found)
  ∧ (∀ candidates, address_spaces run.2 = Some candidates →
     match run.1 with
     | Ok (Some vm) =>
         ∃ i : nat,
           candidates !! i = Some (Some vm)
           ∧ AddressSpace.is_valid_address vm image_base = true
           ∧ ∀ (j : nat) c, (j < i)%nat → candidates !! j = Some c →
                             as_is_valid_address c image_base = false
     | Ok None => ∀ c, c ∈ candidates → as_is_valid_address c image_base = false
     | Raise _ => False
     end)
  ∧ (∀ (t1 t2 : Task.t) (P2 : AddressSpace.t),
     processes s = None →
     process_list s = [t1; t2] →
     Task.get_process_address_space t2 = Some P2 →
     AddressSpace.is_valid_address (kernel_address_space s) image_base = false →
     as_is_valid_address (Task.get_process_address_space t1) image_base = false →
     AddressSpace.is_valid_address P2 image_base = true →
     run.1 = Ok (Some P2)).
Proof.
  intros run. subst run. split; [|split].
  - intros Hp. rewrite find_space_build by done. simpl. eauto.
  - intros candidates. destruct (processes s) as [ps|] eqn:Hp.
    + rewrite (find_space_no_build _ _ ps) by done.
      destruct (address_spaces s) as [l|] eqn:Hl; simpl.
      * rewrite Hl. intros [= <-]. apply search_first_valid.
      * rewrite Hl. done.
    + rewrite find_space_build by done. cbn [fst snd address_spaces set_address_spaces].
      intros [= <-]. apply search_first_valid.
  - intros t1 t2 P2 Hp Hlist Ht2 HK Ht1 HP2.
    rewrite find_space_build by done. rewrite Hlist. simpl.
    rewrite HK, Ht1, Ht2. simpl. by rewrite HP2.
Qed.

Lemma find_space_first_valid_witness :
  (ModDump.find_space 0x1000
     (Fixture.plugin (Some "/dumps") None [Fixture.task1; Fixture.task2])).1
  = Ok (Some Fixture.P2).
Proof.
  apply (proj2 (proj2 (find_space_first_valid
                         (Fixture.plugin (Some "/dumps") None
                            [Fixture.task1; Fixture.task2]) 0x1000))
           Fixture.task1 Fixture.task2 Fixture.P2); reflexivity.
Defined.

(** Every call of [find_space] with [processes] unset enumerates the
    processes and builds the list again, whatever list is there. *)
Lemma find_space_builds_again (image_base : Z) (s : state) :
  processes s = None →
  let s' := (ModDump.find_space image_base s).2 in
  enum_calls s' = S (enum_calls s)
  ∧ processes s' = None
  ∧ address_spaces s'
    = Some (Some (kernel_address_space s)
              :: (Task.get_process_address_space <$> process_list s)).
Proof. intros Hp. rewrite find_space_build by done. done. Qed.

(** C6. Two driver lookups in one run: the second call finds the list of
    the first call in place, and still enumerates the processes and
    builds the list again; when the process set has changed in between,
    the second lookup searches the new set. *)
Theorem find_space_rebuilds_on_second_call :
  let s0 := Fixture.plugin (Some "/dumps") None [Fixture.task1] in
  let s1 := (ModDump.find_space 0x1000 s0).2 in
  let s2 := (ModDump.find_space 0x1000 (set_process_list [Fixture.task2] s1)).2 in
  address_spaces s0 = None ∧ enum_calls s0 = 0%nat
  ∧ address_spaces s1 = Some [Some Fixture.K; Some Fixture.P1]
  ∧ enum_calls s1 = 1%nat
  ∧ address_spaces s2 = Some [Some Fixture.K; Some Fixture.P2]
  ∧ enum_calls s2 = 2%nat.
Proof. repeat split; reflexivity. Qed.

(** ** DLLDump.render *)




(** A module whose name the pattern does not match leaves the state as
    it is: nothing is written and no file is created, whether the round
    ends normally or not. *)
Lemma render_module_no_match (task : Task.t) (module : LdrModule.t) (s : state) :
  regex_search s (LdrModule.BaseDllName module) = false →
  (DLLDump.render_module task module s).2 = s.
Proof.
  intros Hmatch. unfold DLLDump.render_module.
  destruct (Task.get_process_address_space task) as [vm|]; simpl; [|done].
  destruct (AddressSpace.vtop vm (Task.obj_offset task)) as [offset|]; simpl; [|done].
  destruct (negb (offset =? 0)%N); simpl; [|done].
  rewrite bind_get, Hmatch. done.
Qed.


(** The module filter scenario: of [kernel32.dll], [ntdll.dll] and
    [evil.dll] only the last is reported and dumped. *)
Example DLLDump_render_scenario :
  let run := DLLDump.render (Fixture.plugin (Some "/dumps") None [Fixture.task2]) in
  run.1 = Ok tt
  ∧ outfd run.2
    = [LDumpingModule "evil.dll" "evil.exe" 0x1000 "module.1234.1010.1000.dll"]
  ∧ fst <$> files run.2 = ["/dumps/module.1234.1010.1000.dll"].
Proof. repeat split; reflexivity. Qed.

(** A process whose own address does not translate stops the run on the
    unbound name of the message, before anything is written. *)
Example DLLDump_render_unbound_name :
  let run := DLLDump.render (Fixture.plugin (Some "/dumps") None [Fixture.task3]) in
  run.1 = Raise (NameError "proc") ∧ outfd run.2 = [] ∧ files run.2 = [].
Proof. repeat split; reflexivity. Qed.

(** ** ProcExeDump.render and the dump directory *)

Lemma render_task_bad_dump_dir (task : Task.t) (vm : AddressSpace.t) (s : state) :
  fd s = None →
  Py.truthy_opt_str (dump_dir s) = false
  ∨ isdir s (default "" (dump_dir s)) = false →
  Task.get_process_address_space task = Some vm →
  ∃ msg, ProcExeDump.render_task task s = (Raise (PluginError msg), s).
Proof.
  intros Hfd Hbad Hvm. unfold ProcExeDump.render_task. rewrite Hvm.
  rewrite bind_get, Hfd. unfold bind at 1. rewrite check_dump_dir_eq.
  destruct Hbad as [Hbad|Hbad]; rewrite Hbad; simpl; [by eexists|].
  destruct (negb (Py.truthy_opt_str (dump_dir s))); by eexists.
Qed.

Lemma render_task_no_address_space (task : Task.t) (s : state) :
  Task.get_process_address_space task = None →
  ProcExeDump.render_task task s
  = (Ok tt, set_outfd (outfd s ++ [LNoAddressSpace]) s).
Proof. intros Hvm. unfold ProcExeDump.render_task. by rewrite Hvm. Qed.

Lemma for_each_cons {S A} (x : A) (l : list A) (body : A → M S unit) (s : S) :
  for_each (x :: l) body s
  = match body x s with
    | (Ok _, s') => for_each l body s'
    | (Raise e, s') => (Raise e, s')
    end.
Proof. reflexivity. Qed.

Lemma render_tasks_bad_dump_dir (tasks : list Task.t) (s : state) :
  fd s = None →
  Py.truthy_opt_str (dump_dir s) = false
  ∨ isdir s (default "" (dump_dir s)) = false →
  let run := for_each tasks ProcExeDump.render_task s in
  files run.2 = files s
  ∧ fd run.2 = None
  ∧ (∃ k : nat, outfd run.2 = outfd s ++ replicate k LNoAddressSpace)
  ∧ match run.1 with
    | Ok _ => ∀ task, task ∈ tasks → Task.get_process_address_space task = None
    | Raise e =>
        (∃ msg, e = PluginError msg)
        ∧ ∃ task, task ∈ tasks ∧ is_Some (Task.get_process_address_space task)
    end.
Proof.
  revert s. induction tasks as [|task tasks IH]; intros s Hfd Hbad run; subst run.
  - simpl. repeat split; [done| |].
    + exists 0%nat. by rewrite app_nil_r.
    + intros task Htask. by apply elem_of_nil in Htask.
  - rewrite for_each_cons.
    destruct (Task.get_process_address_space task) as [vm|] eqn:Hvm.
    + destruct (render_task_bad_dump_dir task vm s Hfd Hbad Hvm) as [msg ->].
      cbn [fst snd]. repeat split; [done| |by eexists|].
      * exists 0%nat. by rewrite app_nil_r.
      * exists task. split; [apply list_elem_of_here|]. rewrite Hvm. by eexists.
    + rewrite render_task_no_address_space by done.
      destruct (IH (set_outfd (outfd s ++ [LNoAddressSpace]) s) Hfd Hbad)
        as (Hfiles & Hfd' & [k Hout] & Hres).
      split; [exact Hfiles|]. split; [exact Hfd'|]. split.
      * exists (S k). rewrite Hout. simpl. by rewrite <- app_assoc.
      * destruct (for_each tasks ProcExeDump.render_task _).1 as [[]|e].
        -- intros t [->|Ht]%elem_of_cons; [done|]. by apply Hres.
        -- destruct Hres as [Hmsg (t & Ht & Has)]. split; [done|].
           exists t. split; [|done]. by apply list_elem_of_further.
Qed.

(** The run of that state: one process skipped, then the error. *)
Example ProcExeDump_skips_then_stops :
  let run :=
    ProcExeDump.render
      (Fixture.plugin None None [Fixture.task3; Fixture.task2; Fixture.task1]) in
  run.1 = Raise (PluginError "Please specify a dump directory.")
  ∧ outfd run.2 = [LNoAddressSpace] ∧ files run.2 = [].
Proof. repeat split; reflexivity. Qed.

(** C8, as stated, fails on a run with the dump directory unset and a
    file object of the caller: the directory is never looked at, and the
    run ends normally after reconstructing the image into that object. *)
Lemma ProcExeDump_render_unset_dump_dir_no_abort :
  let s := Fixture.plugin None (Some (Sink.open "caller")) [Fixture.task2] in
  let run := ProcExeDump.render s in
  dump_dir s = None
  ∧ run.1 = Ok tt
  ∧ outfd run.2 = [LStars; LDumpingToFd "evil.exe" 1234]
  ∧ Sink.bytes <$> fd run.2
    = Some (replicate 0x20 x4d ++ replicate 0x20 x00 ++ replicate 0x60 x90).
Proof. repeat split; reflexivity. Qed.

(** Without a file object, a run that meets no process with an address
    space never looks at the directory either. *)
Example ProcExeDump_render_only_skips :
  let s := Fixture.plugin None None [Fixture.task3] in
  let run := ProcExeDump.render s in
  dump_dir s = None ∧ run.1 = Ok tt ∧ outfd run.2 = [LNoAddressSpace].
Proof. repeat split; reflexivity. Qed.

(** X21. [DLLDump.render] checks the dump directory first: with one that
    is unset, empty or no directory it raises [PluginError] and leaves
    the state as it was: no process enumerated, no line written, no file
    opened. *)
Lemma DLLDump_render_bad_dump_dir (s : state) :
  Py.truthy_opt_str (dump_dir s) = false
  ∨ isdir s (default "" (dump_dir s)) = false →
  ∃ msg, DLLDump.render s = (Raise (PluginError msg), s).
Proof.
  intros Hbad. unfold DLLDump.render. rewrite bind_get.
  unfold bind at 1. rewrite check_dump_dir_eq.
  destruct Hbad as [Hbad|Hbad]; rewrite Hbad; simpl; [by eexists|].
  destruct (negb (Py.truthy_opt_str (dump_dir s))); by eexists.
Qed.

(** X22. [ModDump.render] checks the dump directory first as well: with
    a bad one it raises [PluginError] before it lists a driver or builds
    its address spaces, and leaves the state as it was. *)
Lemma ModDump_render_bad_dump_dir (s : state) :
  Py.truthy_opt_str (dump_dir s) = false
  ∨ isdir s (default "" (dump_dir s)) = false →
  ∃ msg, ModDump.render s = (Raise (PluginError msg), s).
Proof.
  intros Hbad. unfold ModDump.render. rewrite bind_get.
  unfold bind at 1. rewrite check_dump_dir_eq.
  destruct Hbad as [Hbad|Hbad]; rewrite Hbad; simpl; [by eexists|].
  destruct (negb (Py.truthy_opt_str (dump_dir s))); by eexists.
Qed.

(** ** PEDump: the constructor and render *)

(** C10. The constructor sets [out_fd] exactly when it is given a file
    object or a (non-empty) file name.  Given neither, it sets neither
    [out_fd] nor [filename], and [render] then fails on the missing
    attribute before it writes anything: the object and the diagnostic
    stream are as they were. *)
Theorem PEDump_init_out_fd (address_space : AddressSpace.t) (image_base : Z)
    (fd : option Sink.t) (filename : option string) (profile : PEProfile.t) :
  let self := PEDump.init address_space image_base fd filename profile in
  (is_Some (PEDump.out_fd self)
   ↔ is_Some fd ∨ Py.truthy_opt_str filename = true)
  ∧ (fd = None → Py.truthy_opt_str filename = false →
     PEDump.out_fd self = None
     ∧ PEDump.filename self = None
     ∧ ∀ outfd,
         PEDump.render self outfd
         = (Raise (AttributeError "filename"), (self, outfd))).
Proof.
  intros self. subst self. unfold PEDump.init. split.
  - destruct fd as [f|]; simpl.
    + split; eauto.
    + destruct filename as [[|c name]|]; simpl; split;
        try (intros [? [=]]); try (intros [[? [=]]|[=]]); eauto.
  - intros -> ->. simpl. done.
Qed.

Lemma PEDump_init_out_fd_witness :
  PEDump.render (PEDump.init Fixture.image_space 0x1000 None None
                   Fixture.image_profile) []
  = (Raise (AttributeError "filename"),
     (PEDump.init Fixture.image_space 0x1000 None None Fixture.image_profile, [])).
Proof.
  apply (proj2 (PEDump_init_out_fd Fixture.image_space 0x1000 None None
                  Fixture.image_profile) eq_refl eq_refl).
Defined.

(** With a file name the command dumps the image into the new file. *)
Example PEDump_render_to_file :
  let run :=
    PEDump.render (PEDump.init Fixture.image_space 0x1000 None (Some "out.exe")
                     Fixture.image_profile) [] in
  run.1 = Ok tt
  ∧ run.2.2 = [LDumpingPE 0x1000 "out.exe"; LDone]
  ∧ Sink.bytes <$> PEDump.out_fd run.2.1
    = Some (replicate 0x20 x4d ++ replicate 0x20 x00 ++ replicate 0x60 x90).
Proof. repeat split; reflexivity. Qed.

(** ** Slices and splices *)

Lemma slice_index_nonneg {A} (l : list A) (i : Z) :
  (0 ≤ i)%Z → Py.slice_index l i = Z.to_nat i.
Proof. intros Hi. unfold Py.slice_index. destruct (Z.ltb_spec i 0); [lia|done]. Qed.

Section splice.

Context {A : Type}.
Implicit Types (h nv : list A) (s e i : nat).

Lemma splice_lookup_before h nv s e i :
  (i < s)%nat → (i < length h)%nat →
  (take s h ++ nv ++ drop e h) !! i = h !! i.
Proof.
  intros His Hih. rewrite lookup_app_l by (rewrite length_take; lia).
  by apply lookup_take_lt.
Qed.

Lemma splice_lookup_inside h nv s e i :
  (s ≤ length h)%nat → (s ≤ i)%nat → (i < s + length nv)%nat →
  (take s h ++ nv ++ drop e h) !! i = nv !! (i - s)%nat.
Proof.
  intros Hsh Hsi Hi. rewrite lookup_app_r by (rewrite length_take; lia).
  rewrite length_take, Nat.min_l by done.
  apply lookup_app_l. lia.
Qed.

Lemma splice_lookup_after h nv s e i :
  length nv = (e - s)%nat → (s ≤ e)%nat → (e ≤ i)%nat →
  (take s h ++ nv ++ drop e h) !! i = h !! i.
Proof.
  intros Hnv Hse Hei.
  rewrite lookup_app_r by (rewrite length_take; lia).
  rewrite lookup_app_r by (rewrite length_take; lia).
  rewrite lookup_drop, length_take.
  destruct (decide (s ≤ length h)%nat) as [Hsh|Hsh].
  - f_equal. lia.
  - transitivity (@None A); [|symmetry]; apply lookup_ge_None; lia.
Qed.

Lemma splice_length h nv s e :
  length nv = (e - s)%nat → (s ≤ e)%nat → (e ≤ length h)%nat →
  length (take s h ++ nv ++ drop e h) = length h.
Proof.
  intros Hnv Hse Heh. rewrite !length_app, length_take, length_drop. lia.
Qed.

Lemma slice_ext (l1 l2 : list A) s e :
  (∀ i, (s ≤ i < e)%nat → l1 !! i = l2 !! i) →
  drop s (take e l1) = drop s (take e l2).
Proof.
  intros Hagree. apply list_eq. intros i. rewrite !lookup_drop, !lookup_take.
  destruct (decide (s + i < e)%nat); [|done]. apply Hagree. lia.
Qed.

Lemma slice_splice h nv s e :
  (s ≤ length h)%nat → length nv = (e - s)%nat → (s ≤ e)%nat →
  drop s (take e (take s h ++ nv ++ drop e h)) = nv.
Proof.
  intros Hsh Hnv Hse. apply list_eq. intros i.
  rewrite lookup_drop, lookup_take.
  destruct (decide (s + i < e)%nat) as [Hi|Hi].
  - rewrite splice_lookup_inside by lia. f_equal. lia.
  - symmetry. apply lookup_ge_None. lia.
Qed.

End splice.

(** ** struct: packing and unpacking *)

Lemma Z_of_byte_of_Z (z : Z) :
  Struct.Z_of_byte (Struct.byte_of_Z z) = (z mod 256)%Z.
Proof.
  unfold Struct.Z_of_byte, Struct.byte_of_Z.
  pose proof (Z.mod_pos_bound z 256 eq_refl) as Hz.
  destruct (Byte.of_N (Z.to_N (z mod 256))) as [b|] eqn:Hb; simpl.
  - apply Byte.to_of_N in Hb. rewrite Hb. lia.
  - apply Byte.of_N_None_iff in Hb. lia.
Qed.

Lemma length_le_bytes (n : nat) (v : Z) : length (Struct.le_bytes n v) = n.
Proof. revert v. induction n as [|n IH]; intros v; simpl; [done|]. by rewrite IH. Qed.

Lemma le_decode_le_bytes (n : nat) (v : Z) :
  (0 ≤ v < 256 ^ Z.of_nat n)%Z → Struct.le_decode (Struct.le_bytes n v) = v.
Proof.
  revert v. induction n as [|n IH]; intros v Hv.
  - simpl in *. lia.
  - cbn [Struct.le_bytes Struct.le_decode].
    rewrite Z_of_byte_of_Z, Z.mod_mod by lia.
    rewrite IH.
    + pose proof (Z.div_mod v 256). lia.
    + rewrite Nat2Z.inj_succ, Z.pow_succ_r in Hv by lia.
      split; [apply Z.div_pos; lia|]. apply Z.div_lt_upper_bound; lia.
Qed.

Lemma bits_pow (f : Struct.format) :
  (2 ^ Struct.bits f = 256 ^ Z.of_nat (Struct.calcsize f))%Z.
Proof. by destruct f. Qed.

Lemma pack_Ok (f : Struct.format) (v : Z) (bs : list byte) :
  Struct.pack f v = Ok bs →
  Struct.in_range f v = true
  ∧ bs = Struct.le_bytes (Struct.calcsize f) (v mod 2 ^ Struct.bits f)
  ∧ length bs = Struct.calcsize f.
Proof.
  unfold Struct.pack. destruct (Struct.in_range f v); [|done].
  intros [= <-]. by rewrite length_le_bytes.
Qed.

(** Unpacking what was packed gives the value back. *)
Lemma unpack_pack (f : Struct.format) (v : Z) (bs : list byte) :
  Struct.pack f v = Ok bs → Struct.unpack f bs = Ok v.
Proof.
  intros (Hrange & -> & Hlen)%pack_Ok. unfold Struct.unpack.
  rewrite length_le_bytes. rewrite decide_True by done. f_equal.
  assert (Hpos : (0 < 2 ^ Struct.bits f)%Z) by (by destruct f).
  pose proof (Z.mod_pos_bound v _ Hpos) as Hmod.
  rewrite le_decode_le_bytes by (by rewrite <- bits_pow).
  unfold Struct.in_range in Hrange.
  assert (Hhalf : (2 ^ Struct.bits f = 2 * 2 ^ (Struct.bits f - 1))%Z)
    by (by destruct f).
  destruct (Struct.signed f); simpl.
  - apply andb_true_iff in Hrange as [Hlo%Z.leb_le Hhi%Z.ltb_lt].
    destruct (Z.leb_spec (2 ^ (Struct.bits f - 1)) (v mod 2 ^ Struct.bits f)) as [Hu|Hu].
    + destruct (Z.lt_ge_cases v 0) as [Hneg|Hnonneg].
      * rewrite <- (Z.mod_unique_pos v (2 ^ Struct.bits f) (-1)
                      (v + 2 ^ Struct.bits f)); lia.
      * rewrite Z.mod_small in Hu by lia. lia.
    + destruct (Z.lt_ge_cases v 0) as [Hneg|Hnonneg].
      * rewrite <- (Z.mod_unique_pos v (2 ^ Struct.bits f) (-1)
                      (v + 2 ^ Struct.bits f)) in Hu; lia.
      * apply Z.mod_small. lia.
  - apply andb_true_iff in Hrange as [Hlo%Z.leb_le Hhi%Z.ltb_lt].
    apply Z.mod_small. lia.
Qed.

(** ** ProcMemDump.replace_header_field *)

Lemma replace_header_field_Ok (sect : SectionHeader.t) (header : list byte)
    (item : NativeType.t) (value : Z) (result : list byte) :
  ProcMemDump.replace_header_field sect header item value = Ok result →
  ∃ newval,
    Struct.pack (NativeType.format_string item) value = Ok newval
    ∧ result = Py.slice_to header (ProcMemDump.member_start sect item)
                 ++ newval
                 ++ Py.slice_from header (ProcMemDump.member_end sect item).
Proof.
  unfold ProcMemDump.replace_header_field.
  destruct (Struct.pack _ value) as [newval|e]; simpl; [|done].
  intros [= <-]. by exists newval.
Qed.

(** C9. [replace_header_field] returns prefix + new value + suffix: the
    bytes of the block before the member are where they were; when the
    packed value is as wide as the member, so are the bytes after it,
    and a member that lies inside the block leaves the length of the
    block unchanged. *)
Theorem replace_header_field_splice (sect : SectionHeader.t) (header : list byte)
    (item : NativeType.t) (value : Z) (result : list byte) :
  let start := (NativeType.obj_offset item - SectionHeader.obj_offset sect)%Z in
  let end_ := (start + NativeType.size item)%Z in
  ProcMemDump.replace_header_field sect header item value = Ok result →
  (0 ≤ start)%Z →
  ∃ newval,
    Struct.pack (NativeType.format_string item) value = Ok newval
    ∧ result = Py.slice_to header start ++ newval ++ Py.slice_from header end_
    ∧ (∀ i : nat, (Z.of_nat i < start)%Z → (i < length header)%nat →
                  result !! i = header !! i)
    ∧ (Z.of_nat (length newval) = NativeType.size item →
       (∀ i : nat, (end_ ≤ Z.of_nat i)%Z → result !! i = header !! i)
       ∧ ((end_ ≤ Z.of_nat (length header))%Z →
          length result = length header)).
Proof.
  intros start end_ (newval & Hpack & ->)%replace_header_field_Ok Hstart.
  exists newval. split; [done|]. split; [done|].
  unfold ProcMemDump.member_end, ProcMemDump.member_start.
  fold start. fold end_. unfold Py.slice_to, Py.slice_from.
  rewrite (slice_index_nonneg header start) by done. split.
  - intros i Hi Hlen. apply splice_lookup_before; lia.
  - intros Hwidth. rewrite (slice_index_nonneg header end_) by lia. split.
    + intros i Hi. apply splice_lookup_after; lia.
    + intros Hend. apply splice_length; lia.
Qed.

Lemma replace_header_field_splice_witness :
  length Fixture.patched_block = length Fixture.header_block.
Proof.
  destruct (replace_header_field_splice
              (Fixture.section 0x1178 0x60 0x100 0x60 0x40) Fixture.header_block
              (Fixture.member 0x1178 20 0x40) 0x1000 Fixture.patched_block
              eq_refl ltac:(simpl; lia))
    as (newval & Hpack & _ & _ & Hwidth).
  injection Hpack as <-.
  apply (proj2 (Hwidth eq_refl)). simpl. lia.
Defined.

(** ** ProcMemDump.get_image *)

Section replace.

Variables (sect : SectionHeader.t) (header : list byte).
Variables (item : NativeType.t) (value : Z) (result : list byte).
Hypothesis Hreplace :
  ProcMemDump.replace_header_field sect header item value = Ok result.
Hypothesis Hfits :
  ProcMemDump.member_fits (Z.of_nat (length header)) sect item.

Let s := Z.to_nat (ProcMemDump.member_start sect item).
Let e := Z.to_nat (ProcMemDump.member_end sect item).

Lemma replace_header_field_shape :
  ∃ newval,
    Struct.pack (NativeType.format_string item) value = Ok newval
    ∧ result = take s header ++ newval ++ drop e header
    ∧ length newval = (e - s)%nat ∧ (s ≤ e)%nat ∧ (e ≤ length header)%nat.
Proof using Hreplace Hfits.
  destruct (replace_header_field_Ok _ _ _ _ _ Hreplace) as (newval & Hpack & ->).
  destruct Hfits as (Hstart & Hend & Hsize).
  pose proof (pack_Ok _ _ _ Hpack) as (_ & _ & Hlen).
  unfold ProcMemDump.member_end in *.
  exists newval. unfold Py.slice_to, Py.slice_from.
  rewrite !slice_index_nonneg by lia. subst s e.
  unfold ProcMemDump.member_end. repeat split; [done| lia..].
Qed.

Lemma replace_header_field_length : length result = length header.
Proof using Hreplace Hfits.
  destruct replace_header_field_shape as (newval & _ & -> & ? & ? & ?).
  by apply splice_length.
Qed.

(** The member that was replaced reads back as the new value. *)
Lemma header_field_replaced :
  ProcMemDump.header_field sect result item = Ok value.
Proof using Hreplace Hfits.
  destruct replace_header_field_shape as (newval & Hpack & -> & ? & ? & ?).
  destruct Hfits as (Hstart & Hend & Hsize).
  unfold ProcMemDump.header_field, Py.slice.
  fold (ProcMemDump.member_start sect item).
  fold (ProcMemDump.member_end sect item).
  rewrite !slice_index_nonneg by (unfold ProcMemDump.member_end; lia).
  fold s. fold e. rewrite slice_splice by lia.
  by apply unpack_pack.
Qed.

(** A member apart from the one replaced reads back as before. *)
Lemma header_field_kept (other : NativeType.t) :
  ProcMemDump.member_fits (Z.of_nat (length header)) sect other →
  ProcMemDump.members_apart sect item other →
  ProcMemDump.header_field sect result other
  = ProcMemDump.header_field sect header other.
Proof using Hreplace Hfits.
  intros (Hstart' & Hend' & Hsize') Hapart.
  destruct replace_header_field_shape as (newval & Hpack & -> & ? & ? & ?).
  destruct Hfits as (Hstart & Hend & Hsize).
  unfold ProcMemDump.header_field, Py.slice. f_equal.
  fold (ProcMemDump.member_start sect other).
  fold (ProcMemDump.member_end sect other).
  assert (0 ≤ ProcMemDump.member_end sect other)%Z
    by (unfold ProcMemDump.member_end; lia).
  rewrite !slice_index_nonneg by lia.
  apply slice_ext. intros i Hi.
  unfold ProcMemDump.members_apart in Hapart.
  destruct Hapart as [Hbefore|Hafter].
  - apply splice_lookup_after; lia.
  - apply splice_lookup_before; subst s e; lia.
Qed.

End replace.

Lemma member_fits_length (len len' : Z) sect item :
  len = len' → ProcMemDump.member_fits len sect item →
  ProcMemDump.member_fits len' sect item.
Proof. by intros ->. Qed.

(** The header that [patch_header] returns holds the three new values. *)
Lemma patch_header_fields (addr_space : AddressSpace.t) (shs : N)
    (sect_sizes : list Z) (counter : nat) (sect : SectionHeader.t)
    (header : list byte) :
  ProcMemDump.well_laid_out shs sect →
  length (AddressSpace.read addr_space (SectionHeader.obj_offset sect) shs)
  = N.to_nat shs →
  ProcMemDump.patch_header addr_space shs sect_sizes counter sect = Ok header →
  ∃ size,
    sect_sizes !! counter = Some size
    ∧ ProcMemDump.header_field sect header (SectionHeader.PointerToRawData sect)
      = Ok (ProcMemDump.va sect)
    ∧ ProcMemDump.header_field sect header (SectionHeader.SizeOfRawData sect)
      = Ok size
    ∧ ProcMemDump.header_field sect header (SectionHeader.Misc_VirtualSize sect)
      = Ok size.
Proof.
  intros (Hptr & Hraw & Hvs & Hptr_raw & Hptr_vs & Hraw_vs) Hlen.
  unfold ProcMemDump.patch_header.
  set (h0 := AddressSpace.read addr_space (SectionHeader.obj_offset sect) shs) in *.
  assert (Hlen0 : Z.of_N shs = Z.of_nat (length h0)) by lia.
  destruct (ProcMemDump.replace_header_field sect h0 _ _) as [h1|] eqn:H1;
    simpl; [|done].
  unfold ProcMemDump.index.
  destruct (sect_sizes !! counter) as [size|]; simpl; [|done].
  destruct (ProcMemDump.replace_header_field sect h1 _ _) as [h2|] eqn:H2;
    simpl; [|done].
  destruct (ProcMemDump.replace_header_field sect h2 _ _) as [h3|] eqn:H3;
    simpl; [|done].
  intros [= <-]. exists size. split; [done|].
  pose proof (member_fits_length _ _ _ _ Hlen0 Hptr) as Hptr0.
  pose proof (replace_header_field_length _ _ _ _ _ H1 Hptr0) as Hlen1.
  assert (Hlen1' : Z.of_N shs = Z.of_nat (length h1)) by lia.
  pose proof (member_fits_length _ _ _ _ Hlen1' Hraw) as Hraw1.
  pose proof (replace_header_field_length _ _ _ _ _ H2 Hraw1) as Hlen2.
  assert (Hlen2' : Z.of_N shs = Z.of_nat (length h2)) by lia.
  pose proof (member_fits_length _ _ _ _ Hlen2' Hvs) as Hvs2.
  split; [|split].
  - rewrite (header_field_kept _ _ _ _ _ H3 Hvs2).
    + rewrite (header_field_kept _ _ _ _ _ H2 Hraw1).
      * by apply (header_field_replaced _ _ _ _ _ H1).
      * by apply (member_fits_length (Z.of_N shs)).
      * destruct Hptr_raw; [right|left]; done.
    + by apply (member_fits_length (Z.of_N shs)).
    + destruct Hptr_vs; [right|left]; done.
  - rewrite (header_field_kept _ _ _ _ _ H3 Hvs2).
    + by apply (header_field_replaced _ _ _ _ _ H2).
    + by apply (member_fits_length (Z.of_N shs)).
    + destruct Hraw_vs; [right|left]; done.
  - by apply (header_field_replaced _ _ _ _ _ H3).
Qed.

(** The items of the second loop: the [k]-th comes from the [k]-th
    section, patched with the counter at that round. *)
Lemma headers_loop_yielded (addr_space : AddressSpace.t) (shs : N)
    (sect_sizes : list Z) (start_addr : Z) (sects : list SectionHeader.t)
    (counter k : nat) (offset : Z) (header : list byte) :
  yielded (ProcMemDump.headers_loop addr_space shs sect_sizes start_addr sects counter)
    !! k = Some (offset, header) →
  ∃ sect,
    sects !! k = Some sect
    ∧ ProcMemDump.patch_header addr_space shs sect_sizes (counter + k) sect
      = Ok header
    ∧ offset = (start_addr + Z.of_nat (counter + k) * Z.of_N shs)%Z.
Proof.
  revert counter k. induction sects as [|sect sects IH]; intros counter k; simpl.
  - done.
  - destruct (ProcMemDump.patch_header _ _ _ counter sect) as [h|e] eqn:Hpatch;
      simpl; [|done].
    destruct k as [|k]; simpl.
    + intros [= <- <-]. exists sect. by rewrite Nat.add_0_r.
    + intros Hk. destruct (IH _ _ Hk) as (sect' & ? & ? & ?).
      exists sect'. by rewrite <- Nat.add_succ_comm.
Qed.

Lemma sect_sizes_loop_eq (sects : list SectionHeader.t) (prev : SectionHeader.t)
    (acc : list Z) :
  ProcMemDump.sect_sizes_loop sects (Some prev) acc
  = (last (prev :: sects), acc ++ ProcMemDump.deltas prev sects).
Proof.
  revert prev acc. induction sects as [|sect sects IH]; intros prev acc; simpl.
  - by rewrite app_nil_r.
  - rewrite IH, <- app_assoc. done.
Qed.

Lemma deltas_lookup (prev : SectionHeader.t) (sects : list SectionHeader.t)
    (i : nat) (a b : SectionHeader.t) :
  (prev :: sects) !! i = Some a → sects !! i = Some b →
  ProcMemDump.deltas prev sects !! i
  = Some (ProcMemDump.va b - ProcMemDump.va a)%Z.
Proof.
  revert prev i. induction sects as [|sect sects IH]; intros prev i; [done|].
  destruct i as [|i]; simpl.
  - by intros [= ->] [= ->].
  - apply IH.
Qed.

Lemma length_deltas (prev : SectionHeader.t) (sects : list SectionHeader.t) :
  length (ProcMemDump.deltas prev sects) = length sects.
Proof. revert prev. induction sects; intros prev; simpl; [done|]. by f_equal. Qed.

(** The recomputed sizes: the step to the next section, and for the last
    section its virtual size rounded up to the alignment. *)
Lemma compute_sect_sizes_lookup (self : ProcMemDump.t) (sa : N)
    (sects : list SectionHeader.t) (i : nat) (sect : SectionHeader.t) :
  sects !! i = Some sect →
  ProcMemDump.compute_sect_sizes self sa sects !! i
  = Some match sects !! S i with
         | Some next => (ProcMemDump.va next - ProcMemDump.va sect)%Z
         | None =>
             ProcMemDump.round self
               (Z.of_N (NativeType.v (SectionHeader.Misc_VirtualSize sect)))
               (Z.of_N sa) true
         end.
Proof.
  intros Hi. unfold ProcMemDump.compute_sect_sizes.
  destruct sects as [|first rest]; [done|].
  cbn [ProcMemDump.sect_sizes_loop]. rewrite sect_sizes_loop_eq.
  cbn [app]. change ((first :: rest) !! S i) with (rest !! i).
  destruct (last (first :: rest)) as [final|] eqn:Hlast.
  2:{ by apply last_None in Hlast. }
  destruct (rest !! i) as [next|] eqn:Hnext.
  - rewrite lookup_app_l
      by (rewrite length_deltas; by apply lookup_lt_is_Some).
    by apply deltas_lookup.
  - apply lookup_ge_None in Hnext.
    assert (i = length rest) as ->.
    { apply lookup_lt_Some in Hi. simpl in Hi. lia. }
    rewrite lookup_app_r by (rewrite length_deltas; lia).
    rewrite length_deltas, Nat.sub_diag. simpl.
    rewrite last_lookup in Hlast. simpl in Hlast. congruence.
Qed.

Lemma length_compute_sect_sizes (self : ProcMemDump.t) (sa : N)
    (sects : list SectionHeader.t) :
  length (ProcMemDump.compute_sect_sizes self sa sects) = length sects.
Proof.
  unfold ProcMemDump.compute_sect_sizes.
  destruct sects as [|first rest]; [done|].
  cbn [ProcMemDump.sect_sizes_loop]. rewrite sect_sizes_loop_eq.
  destruct (last (first :: rest)) eqn:Hlast.
  - cbn [app]. rewrite length_app, length_deltas. simpl. lia.
  - by apply last_None in Hlast.
Qed.

Lemma patch_header_succeeds (addr_space : AddressSpace.t) (shs : N)
    (sect_sizes : list Z) (counter : nat) (sect : SectionHeader.t) (size : Z) :
  sect_sizes !! counter = Some size →
  Struct.in_range (NativeType.format_string (SectionHeader.PointerToRawData sect))
    (ProcMemDump.va sect) = true →
  Struct.in_range (NativeType.format_string (SectionHeader.SizeOfRawData sect))
    size = true →
  Struct.in_range (NativeType.format_string (SectionHeader.Misc_VirtualSize sect))
    size = true →
  ∃ header,
    ProcMemDump.patch_header addr_space shs sect_sizes counter sect = Ok header.
Proof.
  intros Hsize Hptr Hraw Hvs.
  unfold ProcMemDump.patch_header, ProcMemDump.replace_header_field,
    ProcMemDump.index, Struct.pack.
  rewrite Hptr, Hsize. simpl. rewrite Hraw. simpl. rewrite Hvs. simpl. by eexists.
Qed.

Lemma headers_loop_complete (addr_space : AddressSpace.t) (shs : N)
    (sect_sizes : list Z) (start_addr : Z) (sects : list SectionHeader.t)
    (counter : nat) :
  (∀ k sect, sects !! k = Some sect →
     ∃ header,
       ProcMemDump.patch_header addr_space shs sect_sizes (counter + k) sect
       = Ok header) →
  let loop :=
    ProcMemDump.headers_loop addr_space shs sect_sizes start_addr sects counter in
  outcome loop = Ok tt ∧ length (yielded loop) = length sects.
Proof.
  revert counter. induction sects as [|sect sects IH]; intros counter Hall; simpl.
  - done.
  - destruct (Hall 0%nat sect eq_refl) as [header Hheader].
    rewrite Nat.add_0_r in Hheader. rewrite Hheader. simpl.
    destruct (IH (S counter)) as [Hout Hlen].
    + intros k sect' Hk. rewrite Nat.add_succ_comm. by apply (Hall (S k)).
    + by rewrite Hout, Hlen.
Qed.

(** C3. The section headers that [get_image] yields after the image: in
    the header of every section [PointerToRawData] is the section's
    [VirtualAddress]; [SizeOfRawData] and [Misc.VirtualSize] are both the
    step to the virtual address of the next section, and for the last
    section both are its virtual size rounded up to [SectionAlignment].
    A header is yielded for every section when each new value fits the
    format of its member. *)
Theorem get_image_remap (self : ProcMemDump.t) (addr_space : AddressSpace.t)
    (base_addr : Z) :
  let nt_header := ProcMemDump.get_nt_header self addr_space base_addr in
  let sects := NTHeader.get_sections nt_header (ProcMemDump.unsafe self) in
  let shs := PEProfile.get_obj_size_IMAGE_SECTION_HEADER (ProcMemDump.pe_profile self) in
  let sa := OptionalHeader.SectionAlignment (NTHeader.OptionalHeader nt_header) in
  let image := ProcMemDump.get_image self addr_space base_addr in
  (∀ sect, sect ∈ sects → ProcMemDump.well_laid_out shs sect) →
  (∀ sect, sect ∈ sects →
     length (AddressSpace.read addr_space (SectionHeader.obj_offset sect) shs)
     = N.to_nat shs) →
  (∀ (i : nat) (sect : SectionHeader.t) (offset : Z) (header : list byte),
     sects !! i = Some sect →
     yielded image !! S i = Some (offset, header) →
     ProcMemDump.header_field sect header (SectionHeader.PointerToRawData sect)
     = Ok (ProcMemDump.va sect)
     ∧ (∀ next, sects !! S i = Some next →
          ProcMemDump.header_field sect header (SectionHeader.SizeOfRawData sect)
          = Ok (ProcMemDump.va next - ProcMemDump.va sect)%Z
          ∧ ProcMemDump.header_field sect header (SectionHeader.Misc_VirtualSize sect)
            = Ok (ProcMemDump.va next - ProcMemDump.va sect)%Z)
     ∧ (sects !! S i = None →
          let rounded :=
            ProcMemDump.round self
              (Z.of_N (NativeType.v (SectionHeader.Misc_VirtualSize sect)))
              (Z.of_N sa) true in
          ProcMemDump.header_field sect header (SectionHeader.SizeOfRawData sect)
          = Ok rounded
          ∧ ProcMemDump.header_field sect header (SectionHeader.Misc_VirtualSize sect)
            = Ok rounded))
  ∧ ((∀ (i : nat) (sect : SectionHeader.t) (size : Z),
        sects !! i = Some sect →
        ProcMemDump.compute_sect_sizes self sa sects !! i = Some size →
        Struct.in_range
          (NativeType.format_string (SectionHeader.PointerToRawData sect))
          (ProcMemDump.va sect) = true
        ∧ Struct.in_range
            (NativeType.format_string (SectionHeader.SizeOfRawData sect)) size = true
        ∧ Struct.in_range
            (NativeType.format_string (SectionHeader.Misc_VirtualSize sect)) size
          = true) →
     outcome image = Ok tt ∧ length (yielded image) = S (length sects)).
Proof.
  intros nt_header sects shs sa image Hlayout Hread. split.
  - intros i sect offset header Hi Hyield.
    subst image. unfold ProcMemDump.get_image in Hyield.
    cbn [yielded gen_yield] in Hyield.
    change ((?x :: ?l) !! S i) with (l !! i) in Hyield.
    apply headers_loop_yielded in Hyield as (sect' & Hi' & Hpatch & _).
    fold nt_header in Hi'. fold sects in Hi'.
    assert (sect' = sect) as -> by congruence.
    assert (Hin : sect ∈ sects) by (by eapply list_elem_of_lookup_2).
    apply patch_header_fields in Hpatch as (size & Hsize & Hptr & Hraw & Hvs);
      [|by apply Hlayout|by apply Hread].
    fold nt_header in Hsize. fold sects in Hsize. fold sa in Hsize.
    rewrite (compute_sect_sizes_lookup _ _ _ _ sect) in Hsize by done.
    injection Hsize as <-. split; [done|]. split.
    + intros next Hnext. rewrite Hnext in Hraw, Hvs. done.
    + intros Hnone. rewrite Hnone in Hraw, Hvs. done.
  - intros Hrange. subst image. unfold ProcMemDump.get_image.
    cbn [yielded outcome gen_yield length].
    fold nt_header. fold sects. fold shs. fold sa.
    destruct (headers_loop_complete addr_space shs
                (ProcMemDump.compute_sect_sizes self sa sects)
                (Z.of_N (FileHeader.SizeOfOptionalHeader (NTHeader.FileHeader nt_header))
                 + (OptionalHeader.obj_offset (NTHeader.OptionalHeader nt_header)
                    - base_addr))%Z sects 0%nat) as [Hout Hlen].
    + intros k sect Hk. simpl.
      destruct (ProcMemDump.compute_sect_sizes self sa sects !! k) as [size|] eqn:Hsize.
      * destruct (Hrange k sect size Hk Hsize) as (? & ? & ?).
        by apply (patch_header_succeeds _ _ _ _ _ size).
      * apply lookup_ge_None in Hsize. rewrite length_compute_sect_sizes in Hsize.
        apply lookup_lt_Some in Hk. lia.
    + by rewrite Hout, Hlen.
Qed.

(** The rounding of the sample images rounds up: the result is the
    first multiple of the alignment from the address on. *)
Lemma round_up_multiple (addr align : Z) :
  (0 < align)%Z →
  let rounded := Fixture.round addr align true in
  (addr ≤ rounded < addr + align)%Z ∧ (rounded mod align = 0)%Z.
Proof.
  intros Halign rounded. subst rounded. unfold Fixture.round.
  pose proof (Z.mod_pos_bound addr align Halign) as Hmod.
  destruct (Z.eqb_spec (addr mod align) 0) as [Hzero|Hnonzero].
  - split; [lia|done].
  - split; [lia|].
    rewrite (Z.div_mod addr align) at 1 by lia.
    replace (align * (addr / align) + addr mod align + (align - addr mod align))%Z
      with ((addr / align + 1) * align)%Z by lia.
    apply Z.mod_mul. lia.
Qed.

Lemma get_image_remap_witness :
  ∃ offset header,
    yielded (ProcMemDump.get_image Fixture.remap_plugin Fixture.image_space 0x1000)
      !! 1%nat = Some (offset, header)
    ∧ ProcMemDump.header_field (Fixture.section 0x1178 0x1800 0x1000 0x600 0x400)
        header (Fixture.member 0x1178 20 0x400) = Ok 0x1000%Z
    ∧ ProcMemDump.header_field (Fixture.section 0x1178 0x1800 0x1000 0x600 0x400)
        header (Fixture.member 0x1178 16 0x600) = Ok 0x2000%Z.
Proof.
  eexists _, _. split; [reflexivity|].
  assert (Hlayout : ∀ sect, sect ∈ Fixture.remap_sections →
                            ProcMemDump.well_laid_out 40 sect).
  { intros sect Hin. unfold Fixture.remap_sections in Hin.
    repeat (apply elem_of_cons in Hin as [->|Hin]);
      [..|by apply elem_of_nil in Hin];
      unfold ProcMemDump.well_laid_out, ProcMemDump.member_fits,
        ProcMemDump.members_apart, ProcMemDump.member_end,
        ProcMemDump.member_start; simpl; lia. }
  assert (Hread : ∀ sect, sect ∈ Fixture.remap_sections →
                          length (AddressSpace.read Fixture.image_space
                                    (SectionHeader.obj_offset sect) 40)
                          = N.to_nat 40).
  { intros sect Hin. reflexivity. }
  destruct (proj1 (get_image_remap Fixture.remap_plugin Fixture.image_space 0x1000
                     Hlayout Hread)
              0%nat (Fixture.section 0x1178 0x1800 0x1000 0x600 0x400) _ _
              eq_refl eq_refl) as (Hptr & Hnext & _).
  split; [exact Hptr|]. exact (proj1 (Hnext _ eq_refl)).
Defined.

(** The run on that image: the sizes, and the members of the two headers
    read back. *)
Example get_image_remap_run :
  let image := ProcMemDump.get_image Fixture.remap_plugin Fixture.image_space 0x1000 in
  outcome image = Ok tt
  ∧ fst <$> yielded image = [0; 376; 416]%Z
  ∧ ProcMemDump.compute_sect_sizes Fixture.remap_plugin 0x1000 Fixture.remap_sections
    = [0x2000; 0x2000]%Z
  ∧ (λ item, ProcMemDump.header_field
               (Fixture.section 0x11a0 0x1234 0x3000 0x200 0xa00)
               (default [] (snd <$> yielded image !! 2%nat))
               (Fixture.member 0x11a0 item 0))
      <$> [20; 16; 8]%Z
    = [Ok 0x3000; Ok 0x2000; Ok 0x2000]%Z.
Proof. repeat split; vm_compute; reflexivity. Qed.

(** ** The layout of the file that WritePEFile leaves *)

Lemma length_write_at (p : nat) (data content : list byte) :
  length (Sink.write_at p data content)
  = match data with
    | [] => length content
    | _ :: _ => (length content `max` (p + length data))%nat
    end.
Proof.
  unfold Sink.write_at. destruct data as [|x data]; [done|].
  rewrite !length_app, length_take, length_replicate, length_drop. lia.
Qed.

Lemma length_write_at_ge (p : nat) (data content : list byte) :
  (length content ≤ length (Sink.write_at p data content))%nat.
Proof. rewrite length_write_at. destruct data; lia. Qed.

Lemma length_write_at_le (p : nat) (data content : list byte) :
  (length (Sink.write_at p data content)
   ≤ length content `max` (p + length data))%nat.
Proof. rewrite length_write_at. destruct data; lia. Qed.

Lemma write_at_lookup_inside (p : nat) (data content : list byte) (i : nat) :
  (p ≤ i)%nat → (i < p + length data)%nat →
  Sink.write_at p data content !! i = data !! (i - p)%nat.
Proof.
  intros Hpi Hi. unfold Sink.write_at.
  destruct data as [|x data]; [simpl in Hi; lia|].
  set (d := x :: data) in *. rewrite app_assoc.
  assert (Hlen : length (take p content ++ replicate (p - length content) x00) = p)
    by (rewrite length_app, length_take, length_replicate; lia).
  rewrite lookup_app_r by lia. rewrite Hlen.
  apply lookup_app_l. lia.
Qed.

Lemma write_at_lookup_outside (p : nat) (data content : list byte) (i : nat) :
  (i < length content)%nat → (i < p)%nat ∨ (p + length data ≤ i)%nat →
  Sink.write_at p data content !! i = content !! i.
Proof.
  intros Hi Hout. unfold Sink.write_at.
  destruct data as [|x data]; [done|]. set (d := x :: data) in *.
  destruct Hout as [Hbefore|Hafter].
  - rewrite lookup_app_l by (rewrite length_take; lia).
    by apply lookup_take_lt.
  - rewrite app_assoc.
    assert (Hlen : length (take p content ++ replicate (p - length content) x00) = p)
      by (rewrite length_app, length_take, length_replicate; lia).
    rewrite lookup_app_r by lia. rewrite Hlen.
    rewrite lookup_app_r by lia. rewrite lookup_drop. f_equal. lia.
Qed.

(** The gap that a write beyond the end of the file leaves is there only
    when bytes are written. *)
Lemma write_at_lookup_gap (p : nat) (data content : list byte) (i : nat) :
  data ≠ [] → (length content ≤ i)%nat → (i < p)%nat →
  Sink.write_at p data content !! i = Some x00.
Proof.
  intros Hdata Hci Hip. unfold Sink.write_at.
  destruct data as [|x data]; [done|]. set (d := x :: data) in *.
  rewrite lookup_app_r by (rewrite length_take; lia).
  rewrite length_take, Nat.min_r by lia.
  rewrite lookup_app_l by (rewrite length_replicate; lia).
  apply lookup_replicate_2. lia.
Qed.

Lemma apply_writes_app (content : list byte) (ws1 ws2 : list Layout.write) :
  Layout.apply_writes content (ws1 ++ ws2)
  = Layout.apply_writes (Layout.apply_writes content ws1) ws2.
Proof. apply foldl_app. Qed.

Lemma length_apply_writes_ge (content : list byte) (ws : list Layout.write) :
  (length content ≤ length (Layout.apply_writes content ws))%nat.
Proof.
  revert content. induction ws as [|w ws IH]; intros content; simpl; [done|].
  etrans; [|apply IH]. apply length_write_at_ge.
Qed.

(** Writes that stay apart from a range already in the file leave the
    bytes of that range alone. *)
Lemma apply_writes_keeps (content : list byte) (ws : list Layout.write)
    (a b i : nat) :
  (b ≤ length content)%nat →
  (∀ w, w ∈ ws → (Layout.stop w ≤ a)%nat ∨ (b ≤ Layout.start w)%nat) →
  (a ≤ i)%nat → (i < b)%nat →
  Layout.apply_writes content ws !! i = content !! i.
Proof.
  revert content. induction ws as [|w ws IH]; intros content Hb Hapart Hai Hib;
    simpl; [done|].
  rewrite IH; [| |intros w' Hw'; apply Hapart; by apply list_elem_of_further|done..].
  - apply write_at_lookup_outside; [lia|].
    destruct (Hapart w (list_elem_of_here _ _)) as [Hw|Hw];
      unfold Layout.stop, Layout.start in Hw; lia.
  - pose proof (length_write_at_ge w.1 w.2 content). lia.
Qed.

(** Last write wins: a write that the later writes stay apart from is in
    the file as it was written. *)
Lemma apply_writes_verbatim (content : list byte) (front back : list Layout.write)
    (w : Layout.write) :
  (∀ later, later ∈ back → Layout.apart later w) →
  take (length w.2)
    (drop (Layout.start w) (Layout.apply_writes content (front ++ w :: back)))
  = w.2.
Proof.
  intros Hapart. rewrite apply_writes_app. cbn [Layout.apply_writes foldl].
  fold (Layout.apply_writes (Sink.write_at w.1 w.2 (Layout.apply_writes content front))
          back).
  set (c := Layout.apply_writes content front).
  apply list_eq. intros i. rewrite lookup_take, lookup_drop.
  destruct (decide (i < length w.2)%nat) as [Hi|Hi].
  - rewrite (apply_writes_keeps _ _ (Layout.start w) (Layout.stop w)).
    + unfold Layout.start. rewrite write_at_lookup_inside by lia. f_equal. lia.
    + rewrite length_write_at. unfold Layout.stop.
      destruct w.2; [simpl in Hi|]; lia.
    + intros later Hlater. destruct (Hapart later Hlater); [by left|by right].
    + lia.
    + unfold Layout.stop, Layout.start. lia.
  - symmetry. apply lookup_ge_None. lia.
Qed.

(** A position below the end of the file that no write covers holds what
    the file held there before, or zero where the file was shorter. *)
Lemma apply_writes_uncovered (content : list byte) (ws : list Layout.write)
    (i : nat) :
  (i < length (Layout.apply_writes content ws))%nat →
  (∀ w, w ∈ ws → ¬ Layout.covers w i) →
  Layout.apply_writes content ws !! i
  = if decide (i < length content)%nat then content !! i else Some x00.
Proof.
  revert content. induction ws as [|w ws IH]; intros content Hi Hfree; simpl in *.
  - by rewrite decide_True.
  - assert (Hw : (i < w.1)%nat ∨ (w.1 + length w.2 ≤ i)%nat).
    { pose proof (Hfree w (list_elem_of_here _ _)) as Hw.
      unfold Layout.covers, Layout.start, Layout.stop in Hw. lia. }
    rewrite IH; [|done|intros w' Hw'; apply Hfree; by apply list_elem_of_further].
    destruct (decide (i < length content)%nat) as [Hc|Hc].
    + pose proof (length_write_at_ge w.1 w.2 content).
      rewrite decide_True by lia. by apply write_at_lookup_outside.
    + destruct (decide (i < length (Sink.write_at w.1 w.2 content))%nat)
        as [Hlen|Hlen]; [|done].
      rewrite length_write_at in Hlen.
      destruct w.2 as [|x data] eqn:Hdata; [lia|].
      apply write_at_lookup_gap; [done|lia|]. simpl in Hw, Hlen. lia.
Qed.

Lemma length_apply_writes_bound (content : list byte) (ws : list Layout.write)
    (bound : nat) :
  (∀ w, w ∈ ws → (Layout.stop w ≤ bound)%nat) →
  (length (Layout.apply_writes content ws) ≤ length content `max` bound)%nat.
Proof.
  revert content. induction ws as [|w ws IH]; intros content Hbound; simpl; [lia|].
  etrans; [apply IH; intros w' Hw'; apply Hbound; by apply list_elem_of_further|].
  pose proof (length_write_at_le w.1 w.2 content).
  pose proof (Hbound w (list_elem_of_here _ _)) as Hw. unfold Layout.stop in Hw. lia.
Qed.

Lemma bytes_foldl_section_sink (vm : AddressSpace.t) (image_base : Z)
    (sects : list SectionHeader.t) (f : Sink.t) :
  Sink.bytes (foldl (PEDump.section_sink vm image_base) f sects)
  = Layout.apply_writes (Sink.bytes f) (Layout.section_write vm image_base <$> sects).
Proof.
  revert f. induction sects as [|sect sects IH]; intros f; simpl; [done|].
  by rewrite IH.
Qed.

(** The file that a run with a non-empty header leaves: the header
    written at 0, then the sections in declared order. *)
Lemma run_WritePEFile_bytes (pe_profile : PEProfile.t) (fd0 : Sink.t)
    (vm : AddressSpace.t) (base : Z) :
  PEDump.header_data pe_profile vm base ≠ [] →
  Sink.bytes (PEDump.fd (PEDump.run_WritePEFile pe_profile fd0 vm base).2)
  = Layout.apply_writes (Sink.bytes fd0)
      (Layout.header_write pe_profile vm base
         :: (Layout.section_write vm (PEDump.effective_base pe_profile vm base)
               <$> PEDump.sections_of pe_profile vm base)).
Proof.
  intros Hdata. rewrite run_WritePEFile_eq.
  destruct (Py.truthy_bytes _) eqn:Htruthy.
  - cbn [snd PEDump.fd]. by rewrite bytes_foldl_section_sink.
  - by apply truthy_bytes_nil in Htruthy.
Qed.

Lemma run_WritePEFile_Ok (pe_profile : PEProfile.t) (fd0 : Sink.t)
    (vm : AddressSpace.t) (base : Z) :
  (PEDump.run_WritePEFile pe_profile fd0 vm base).1 = Ok tt.
Proof. rewrite run_WritePEFile_eq. by destruct (Py.truthy_bytes _). Qed.

(** X1. Last write wins: a section that no later section overlaps in
    the file is in the output as it was read, at its clamped offset. *)
Theorem WritePEFile_last_write_wins (pe_profile : PEProfile.t) (fd0 : Sink.t)
    (vm : AddressSpace.t) (base : Z)
    (front back : list SectionHeader.t) (section : SectionHeader.t) :
  let image_base := PEDump.effective_base pe_profile vm base in
  let final := Sink.bytes (PEDump.fd (PEDump.run_WritePEFile pe_profile fd0 vm base).2) in
  PEDump.header_data pe_profile vm base ≠ [] →
  PEDump.sections_of pe_profile vm base = front ++ section :: back →
  (∀ later, later ∈ back →
     Layout.apart (Layout.section_write vm image_base later)
       (Layout.section_write vm image_base section)) →
  take (length (PEDump.section_data vm image_base section))
    (drop (N.to_nat (Py.min 100000000
                       (NativeType.v (SectionHeader.PointerToRawData section))))
       final)
  = PEDump.section_data vm image_base section.
Proof.
  intros image_base final Hdata Hsects Hapart. subst final.
  rewrite run_WritePEFile_bytes by done. rewrite Hsects, fmap_app, fmap_cons.
  apply (apply_writes_verbatim _
           (Layout.header_write pe_profile vm base
              :: (Layout.section_write vm image_base <$> front))
           (Layout.section_write vm image_base <$> back)
           (Layout.section_write vm image_base section)).
  intros later (sect & -> & Hsect)%list_elem_of_fmap. by apply Hapart.
Qed.

Lemma WritePEFile_last_write_wins_witness :
  take 0x60
    (drop 0x40
       (Sink.bytes (PEDump.fd (PEDump.run_WritePEFile Fixture.image_profile
                                 (Sink.open "out") Fixture.image_space 0x1000).2)))
  = replicate 0x60 x90.
Proof.
  apply (WritePEFile_last_write_wins Fixture.image_profile (Sink.open "out")
           Fixture.image_space 0x1000 [] []
           (Fixture.section 0x1178 0x60 0x100 0x60 0x40)).
  - vm_compute. discriminate.
  - reflexivity.
  - intros later Hlater. by apply elem_of_nil in Hlater.
Defined.

(** X2. The header is in the output as it was read, at offset 0, when
    no section is written over it. *)
Theorem WritePEFile_header_verbatim (pe_profile : PEProfile.t) (fd0 : Sink.t)
    (vm : AddressSpace.t) (base : Z) :
  let image_base := PEDump.effective_base pe_profile vm base in
  let header := PEDump.header_data pe_profile vm base in
  let final := Sink.bytes (PEDump.fd (PEDump.run_WritePEFile pe_profile fd0 vm base).2) in
  header ≠ [] →
  (∀ section, section ∈ PEDump.sections_of pe_profile vm base →
     Layout.apart (Layout.section_write vm image_base section)
       (Layout.header_write pe_profile vm base)) →
  take (length header) final = header.
Proof.
  intros image_base header final Hdata Hapart. subst final.
  rewrite run_WritePEFile_bytes by done.
  apply (apply_writes_verbatim _ []
           (Layout.section_write vm image_base <$> PEDump.sections_of pe_profile vm base)
           (Layout.header_write pe_profile vm base)).
  intros later (sect & -> & Hsect)%list_elem_of_fmap. by apply Hapart.
Qed.

Lemma WritePEFile_header_verbatim_witness :
  take 0x20
    (Sink.bytes (PEDump.fd (PEDump.run_WritePEFile Fixture.image_profile
                              (Sink.open "out") Fixture.image_space 0x1000).2))
  = replicate 0x20 x4d.
Proof.
  apply (WritePEFile_header_verbatim Fixture.image_profile (Sink.open "out")
           Fixture.image_space 0x1000).
  - vm_compute. discriminate.
  - intros section Hsection. vm_compute in Hsection.
    apply list_elem_of_singleton in Hsection as ->.
    right. vm_compute. lia.
Defined.

(** X3. Gaps read as zero: in the output of a run into an empty file,
    a position below the end of the file that neither the header nor any
    section covers holds a zero byte. *)
Theorem WritePEFile_gaps_are_zero (pe_profile : PEProfile.t) (fd0 : Sink.t)
    (vm : AddressSpace.t) (base : Z) (i : nat) :
  let image_base := PEDump.effective_base pe_profile vm base in
  let final := Sink.bytes (PEDump.fd (PEDump.run_WritePEFile pe_profile fd0 vm base).2) in
  Sink.bytes fd0 = [] →
  PEDump.header_data pe_profile vm base ≠ [] →
  (i < length final)%nat →
  ¬ Layout.covers (Layout.header_write pe_profile vm base) i →
  (∀ section, section ∈ PEDump.sections_of pe_profile vm base →
     ¬ Layout.covers (Layout.section_write vm image_base section) i) →
  final !! i = Some x00.
Proof.
  intros image_base final Hempty Hdata Hi Hheader Hsections. subst final.
  rewrite run_WritePEFile_bytes in * by done.
  rewrite apply_writes_uncovered; [|done|].
  - rewrite Hempty. simpl. done.
  - intros w [->|(sect & -> & Hsect)%list_elem_of_fmap]%elem_of_cons; [done|].
    by apply Hsections.
Qed.

Lemma WritePEFile_gaps_are_zero_witness :
  Sink.bytes (PEDump.fd (PEDump.run_WritePEFile Fixture.image_profile
                           (Sink.open "out") Fixture.image_space 0x1000).2)
  !! 40%nat = Some x00.
Proof.
  apply (WritePEFile_gaps_are_zero Fixture.image_profile (Sink.open "out")
           Fixture.image_space 0x1000 40).
  - reflexivity.
  - vm_compute. discriminate.
  - vm_compute. lia.
  - unfold Layout.covers. vm_compute. lia.
  - intros section Hsection. vm_compute in Hsection.
    apply list_elem_of_singleton in Hsection as ->.
    unfold Layout.covers. vm_compute. lia.
Defined.

(** A section of no bytes beyond the end of the file does not extend it:
    the seek alone leaves no padding. *)
Example WritePEFile_empty_section :
  let run :=
    PEDump.run_WritePEFile EmptySection.profile (Sink.open "out")
      Fixture.image_space 0x1000 in
  run.1 = Ok tt
  ∧ Sink.bytes (PEDump.fd run.2) = replicate 0x20 x4d
  ∧ PEDump.seek_offsets (PEDump.log run.2) = [0; 0x40]%N.
Proof. repeat split; reflexivity. Qed.

(** X4. However large the sizes and offsets that the headers declare,
    the output does not grow beyond 110,000,000 bytes (unless the file was
    longer before), given that the address space returns no more bytes
    than a read asks for. *)
Theorem WritePEFile_output_size (pe_profile : PEProfile.t) (fd0 : Sink.t)
    (vm : AddressSpace.t) (base : Z) :
  (∀ addr len, (length (AddressSpace.zread vm addr len) ≤ N.to_nat len)%nat) →
  let final := Sink.bytes (PEDump.fd (PEDump.run_WritePEFile pe_profile fd0 vm base).2) in
  (N.of_nat (length final)
   ≤ N.max (N.of_nat (length (Sink.bytes fd0))) 110000000)%N.
Proof.
  intros Hzread final. subst final.
  destruct (decide (PEDump.header_data pe_profile vm base = [])) as [Hdata|Hdata].
  - rewrite run_WritePEFile_eq, Hdata. simpl. lia.
  - rewrite run_WritePEFile_bytes by done.
    pose proof (length_apply_writes_bound (Sink.bytes fd0)
                  (Layout.header_write pe_profile vm base
                     :: (Layout.section_write vm
                           (PEDump.effective_base pe_profile vm base)
                           <$> PEDump.sections_of pe_profile vm base))
                  (N.to_nat 110000000)) as Hbound.
    assert (∀ w, w ∈ Layout.header_write pe_profile vm base
                      :: (Layout.section_write vm
                            (PEDump.effective_base pe_profile vm base)
                            <$> PEDump.sections_of pe_profile vm base) →
                 (Layout.stop w ≤ N.to_nat 110000000)%nat) as Hall.
    { intros w [->|(sect & -> & Hsect)%list_elem_of_fmap]%elem_of_cons.
      - unfold Layout.stop, Layout.header_write, PEDump.header_data. cbn [fst snd].
        etrans; [apply Nat.add_le_mono_l, Hzread|]. rewrite py_min_spec. lia.
      - unfold Layout.stop, Layout.section_write, PEDump.section_data. cbn [fst snd].
        etrans; [apply Nat.add_le_mono_l, Hzread|]. rewrite !py_min_spec. lia. }
    specialize (Hbound Hall). lia.
Qed.

Lemma zread_fixture_length (base : Z) (mem : list byte) (addr : Z) (len : N) :
  length (Fixture.zread base mem addr len) = N.to_nat len.
Proof. unfold Fixture.zread. by rewrite length_fmap, length_seq. Qed.

Lemma WritePEFile_output_size_witness :
  (N.of_nat
     (length (Sink.bytes (PEDump.fd (PEDump.run_WritePEFile Fixture.hostile_profile
                                       (Sink.open "out") Fixture.image_space
                                       0x1000).2)))
   ≤ N.max (N.of_nat (length (Sink.bytes (Sink.open "out")))) 110000000)%N.
Proof.
  apply (WritePEFile_output_size Fixture.hostile_profile (Sink.open "out")
           Fixture.image_space 0x1000).
  intros addr len. simpl. rewrite zread_fixture_length. lia.
Defined.

Lemma read_addresses_sections vm b (sects : list SectionHeader.t) :
  PEDump.read_addresses (sects ≫= PEDump.section_events vm b)
  = (λ s, Z.of_N (NativeType.v (SectionHeader.VirtualAddress s)) + b)%Z <$> sects.
Proof.
  induction sects as [|s sects IH]; [done|].
  change ((s :: sects) ≫= PEDump.section_events vm b)
    with (PEDump.section_events vm b s ++ sects ≫= PEDump.section_events vm b).
  unfold PEDump.read_addresses in *.
  cbn [PEDump.section_events app omap list_omap fmap list_fmap].
  f_equal. exact IH.
Qed.

Lemma writes_sections vm b (sects : list SectionHeader.t) :
  PEDump.writes (sects ≫= PEDump.section_events vm b)
  = PEDump.section_data vm b <$> sects.
Proof.
  induction sects as [|s sects IH]; [done|].
  change ((s :: sects) ≫= PEDump.section_events vm b)
    with (PEDump.section_events vm b s ++ sects ≫= PEDump.section_events vm b).
  unfold PEDump.writes in *.
  cbn [PEDump.section_events app omap list_omap fmap list_fmap].
  f_equal. exact IH.
Qed.

(** X5. What is written is what was read: every section is read at its
    virtual address from the base that the decoder resolved for the DOS
    header (not from the base the caller passed), and the byte strings
    written to the sink are, in order, those that the reads returned. *)
Theorem WritePEFile_writes_what_it_reads (pe_profile : PEProfile.t) (fd0 : Sink.t)
    (vm : AddressSpace.t) (base : Z) :
  let events := PEDump.log (PEDump.run_WritePEFile pe_profile fd0 vm base).2 in
  let image_base := PEDump.effective_base pe_profile vm base in
  PEDump.header_data pe_profile vm base ≠ [] →
  PEDump.read_addresses events
  = image_base
      :: ((λ s, Z.of_N (NativeType.v (SectionHeader.VirtualAddress s)) + image_base)%Z
            <$> PEDump.sections_of pe_profile vm base)
  ∧ PEDump.writes events
    = zip_with (AddressSpace.zread vm) (PEDump.read_addresses events)
        (PEDump.read_lengths events).
Proof.
  intros events image_base Hdata. subst events. rewrite run_WritePEFile_eq.
  destruct (Py.truthy_bytes _) eqn:Htruthy.
  2:{ by apply truthy_bytes_nil in Htruthy. }
  cbn [snd PEDump.log].
  assert (Hsplit : ∀ A (f : PEDump.io_event → option A) a b c l,
            omap f ([a; b; c] ++ l) = omap f [a; b; c] ++ omap f l)
    by (intros; apply omap_app).
  unfold PEDump.read_addresses, PEDump.read_lengths, PEDump.writes.
  rewrite !Hsplit.
  fold (PEDump.read_addresses
          (PEDump.sections_of pe_profile vm base ≫= PEDump.section_events vm image_base)).
  fold (PEDump.read_lengths
          (PEDump.sections_of pe_profile vm base ≫= PEDump.section_events vm image_base)).
  fold (PEDump.writes
          (PEDump.sections_of pe_profile vm base ≫= PEDump.section_events vm image_base)).
  rewrite read_addresses_sections, read_lengths_sections, writes_sections.
  split; [done|]. cbn [omap list_omap app zip_with]. f_equal.
  by rewrite zip_with_fmap_l, zip_with_fmap_r, zip_with_diag.
Qed.

Lemma WritePEFile_writes_what_it_reads_witness :
  PEDump.read_addresses
    (PEDump.log (PEDump.run_WritePEFile Fixture.image_profile (Sink.open "out")
                   Fixture.image_space 0x1000).2)
  = [0x1000; 0x1100]%Z.
Proof.
  apply (WritePEFile_writes_what_it_reads Fixture.image_profile (Sink.open "out")
           Fixture.image_space 0x1000).
  vm_compute. discriminate.
Defined.

(** ** PEDump.render with a sink *)

(** X6. A [PEDump] constructed with a file object or a file name renders
    without error: it writes the start line, dumps the image into its
    sink exactly as [WritePEFile] does, and writes the end line.  A file
    object takes precedence over a file name. *)
Theorem PEDump_render_dumps (address_space : AddressSpace.t) (image_base : Z)
    (fd : option Sink.t) (filename : option string) (profile : PEProfile.t)
    (outfd : list line) :
  is_Some fd ∨ Py.truthy_opt_str filename = true →
  let self := PEDump.init address_space image_base fd filename profile in
  let sink := default (Sink.open (default "" filename)) fd in
  let dest := match fd with
              | Some f => "FD <" +:+ Sink.repr f +:+ ">"
              | None => default "" filename
              end in
  let run := PEDump.render self outfd in
  run.1 = Ok tt
  ∧ run.2.2 = outfd ++ [LDumpingPE image_base dest; LDone]
  ∧ PEDump.out_fd run.2.1
    = Some (PEDump.fd (PEDump.run_WritePEFile profile sink address_space
                         image_base).2).
Proof.
  intros Hgiven self sink dest run. subst self sink dest run.
  unfold PEDump.init, PEDump.render.
  destruct fd as [f|]; simpl.
  - pose proof (run_WritePEFile_Ok profile f address_space image_base) as Hok.
    destruct (PEDump.run_WritePEFile profile f address_space image_base) as [r st].
    simpl in *. subst r. by rewrite <- app_assoc.
  - destruct Hgiven as [[? [=]]|Hname]. rewrite Hname.
    destruct filename as [name|]; [|done]. simpl.
    pose proof (run_WritePEFile_Ok profile (Sink.open name) address_space image_base)
      as Hok.
    destruct (PEDump.run_WritePEFile profile (Sink.open name) address_space image_base)
      as [r st].
    simpl in *. subst r. by rewrite <- app_assoc.
Qed.

Lemma PEDump_render_dumps_witness :
  (PEDump.render
     (PEDump.init Fixture.image_space 0x1000 (Some (Sink.open "caller"))
        (Some "ignored.exe") Fixture.image_profile) []).2.2
  = [] ++ [LDumpingPE 0x1000 "FD <caller>"; LDone].
Proof.
  apply (PEDump_render_dumps Fixture.image_space 0x1000 (Some (Sink.open "caller"))
           (Some "ignored.exe") Fixture.image_profile []).
  left. by eexists.
Defined.

(** ** ProcExeDump.render: where the images go *)

Lemma render_task_with_fd (task : Task.t) (vm : AddressSpace.t) (f : Sink.t)
    (s : state) :
  fd s = Some f →
  Task.get_process_address_space task = Some vm →
  ProcExeDump.render_task task s
  = (Ok tt,
     set_outfd (outfd s ++ Run.fd_lines task)
       (set_fd (Some (Run.fd_step (pe_profile s) f task)) s)).
Proof.
  intros Hfd Hvm. unfold ProcExeDump.render_task, Run.fd_lines, Run.fd_step.
  rewrite Hvm, bind_get, Hfd. unfold bind at 1, ProcExeDump.dump_to_fd.
  pose proof (run_WritePEFile_Ok (pe_profile s) f vm (Task.Peb_ImageBaseAddress task))
    as Hok.
  destruct (PEDump.run_WritePEFile _ f vm _) as [r st]. simpl in Hok. subst r.
  rewrite !bind_outfd_write. unfold outfd_write, modify. simpl.
  by rewrite <- app_assoc.
Qed.

Lemma render_tasks_with_fd (tasks : list Task.t) (f : Sink.t) (s : state) :
  fd s = Some f →
  let run := for_each tasks ProcExeDump.render_task s in
  run.1 = Ok tt
  ∧ files run.2 = files s
  ∧ outfd run.2 = outfd s ++ tasks ≫= Run.fd_lines
  ∧ fd run.2 = Some (foldl (Run.fd_step (pe_profile s)) f tasks).
Proof.
  revert f s. induction tasks as [|task tasks IH]; intros f s Hfd run; subst run.
  - simpl. by rewrite app_nil_r.
  - rewrite for_each_cons, bind_cons. cbn [foldl].
    destruct (Task.get_process_address_space task) as [vm|] eqn:Hvm.
    + rewrite (render_task_with_fd task vm f) by done.
      destruct (IH (Run.fd_step (pe_profile s) f task)
                  (set_outfd (outfd s ++ Run.fd_lines task)
                     (set_fd (Some (Run.fd_step (pe_profile s) f task)) s))
                  eq_refl) as (Hok & Hfiles & Hout & Hfd').
      repeat split; [done..| |done].
      rewrite Hout. cbn [outfd set_outfd]. by rewrite <- app_assoc.
    + rewrite render_task_no_address_space by done.
      assert (Hlines : Run.fd_lines task = [LNoAddressSpace])
        by (unfold Run.fd_lines; by rewrite Hvm).
      assert (Hstep : Run.fd_step (pe_profile s) f task = f)
        by (unfold Run.fd_step; by rewrite Hvm).
      rewrite Hlines, Hstep.
      destruct (IH f (set_outfd (outfd s ++ [LNoAddressSpace]) s) Hfd)
        as (Hok & Hfiles & Hout & Hfd').
      repeat split; [done..| |done].
      rewrite Hout. cbn [outfd set_outfd]. by rewrite <- app_assoc.
Qed.

(** X7. With a file object of the caller, [ProcExeDump.render] never
    fails and never looks at the dump directory: it creates no file,
    reports every process (dumped or skipped), and writes every image it
    finds into the one file object, each from offset 0 over what the
    processes before it left there. *)
Theorem ProcExeDump_render_with_fd (s : state) (f : Sink.t) :
  fd s = Some f →
  let run := ProcExeDump.render s in
  run.1 = Ok tt
  ∧ files run.2 = files s
  ∧ outfd run.2 = outfd s ++ process_list s ≫= Run.fd_lines
  ∧ fd run.2 = Some (foldl (Run.fd_step (pe_profile s)) f (process_list s)).
Proof.
  intros Hfd run. subst run. unfold ProcExeDump.render.
  rewrite bind_filter_processes.
  apply (render_tasks_with_fd (process_list s) f
           (set_enum_calls (S (enum_calls s)) s)). done.
Qed.

Lemma ProcExeDump_render_with_fd_witness :
  (ProcExeDump.render
     (Fixture.plugin (Some "/nowhere") (Some (Sink.open "caller"))
        [Fixture.task3; Fixture.task2])).1
  = Ok tt.
Proof.
  apply (ProcExeDump_render_with_fd
           (Fixture.plugin (Some "/nowhere") (Some (Sink.open "caller"))
              [Fixture.task3; Fixture.task2])
           (Sink.open "caller")).
  reflexivity.
Defined.

(** C8, as the code has it.  A file object of the caller stands in for
    the dump directory: with one, [ProcExeDump.render] does not look at
    the directory, ends normally, creates no file, and reconstructs every
    process whose address space is there into that object.  Without one,
    a dump directory that is unset or not a directory means that no file
    is created, no image is reconstructed and nothing is reported as
    dumped, and a run over processes of which one has its address space
    ends with the configuration error. *)
Theorem ProcExeDump_render_bad_dump_dir (s : state) :
  Py.truthy_opt_str (dump_dir s) = false
  ∨ isdir s (default "" (dump_dir s)) = false →
  let run := ProcExeDump.render s in
  match fd s with
  | Some f =>
      run.1 = Ok tt
      ∧ files run.2 = files s
      ∧ outfd run.2 = outfd s ++ process_list s ≫= Run.fd_lines
      ∧ fd run.2 = Some (foldl (Run.fd_step (pe_profile s)) f (process_list s))
  | None =>
      files run.2 = files s
      ∧ fd run.2 = None
      ∧ (∀ l, l ∈ outfd run.2 → l ∈ outfd s ∨ l = LNoAddressSpace)
      ∧ ((∃ task, task ∈ process_list s
                  ∧ is_Some (Task.get_process_address_space task))
         → ∃ msg, run.1 = Raise (PluginError msg))
  end.
Proof.
  intros Hbad run. subst run. unfold ProcExeDump.render.
  rewrite bind_filter_processes.
  destruct (fd s) as [f|] eqn:Hfd.
  - by apply (render_tasks_with_fd (process_list s) f
                (set_enum_calls (S (enum_calls s)) s)).
  - pose proof (render_tasks_bad_dump_dir (process_list s)
                  (set_enum_calls (S (enum_calls s)) s) Hfd Hbad) as Hrun.
    cbv zeta in Hrun.
    destruct (for_each (process_list s) ProcExeDump.render_task _) as [r s1].
    cbn [fst snd outfd files set_enum_calls] in *.
    destruct Hrun as (Hfiles & Hfd1 & [k Hout] & Hres).
    split; [done|]. split; [done|]. split.
    + intros l Hl. rewrite Hout in Hl.
      apply elem_of_app in Hl as [Hl|Hl]; [by left|right].
      by apply elem_of_replicate in Hl as [-> _].
    + intros (task & Htask & Hvm). destruct r as [[]|e].
      * rewrite (Hres task Htask) in Hvm. by destruct Hvm.
      * destruct Hres as [[msg ->] _]. by exists msg.
Qed.

Lemma ProcExeDump_render_bad_dump_dir_witness :
  let run :=
    ProcExeDump.render
      (Fixture.plugin None None [Fixture.task3; Fixture.task2; Fixture.task1]) in
  files run.2 = [] ∧ fd run.2 = None ∧ ∃ msg, run.1 = Raise (PluginError msg).
Proof.
  intros run.
  destruct (ProcExeDump_render_bad_dump_dir
              (Fixture.plugin None None
                 [Fixture.task3; Fixture.task2; Fixture.task1])
              (or_introl eq_refl)) as (Hfiles & Hfd & _ & Habort).
  split; [exact Hfiles|]. split; [exact Hfd|].
  apply Habort. exists Fixture.task2.
  split; [apply list_elem_of_further, list_elem_of_here|by eexists].
Defined.

Lemma render_task_to_file (task : Task.t) (vm : AddressSpace.t) (d : string)
    (s : state) :
  fd s = None → dump_dir s = Some d →
  Py.truthy_str d = true → isdir s d = true →
  Task.get_process_address_space task = Some vm →
  ProcExeDump.render_task task s
  = (Ok tt,
     set_files (files s ++ Run.task_files (pe_profile s) d task)
       (set_outfd (outfd s ++ Run.file_lines d task) s)).
Proof.
  intros Hfd Hdir Htruthy Hisdir Hvm.
  unfold ProcExeDump.render_task, Run.file_lines, Run.task_files.
  rewrite Hvm, bind_get, Hfd. unfold bind at 1. rewrite check_dump_dir_eq.
  rewrite Hdir. cbn [Py.truthy_opt_str]. change (default "" (Some d)) with d.
  rewrite Htruthy, Hisdir.
  cbn [negb]. rewrite bind_join_dump_dir, Hdir.
  rewrite !bind_outfd_write. unfold dump_to_new_file.
  cbn [pe_profile set_outfd files outfd]. fold (Run.exe_path d task).
  pose proof (run_WritePEFile_Ok (pe_profile s) (Sink.open (Run.exe_path d task))
                vm (Task.Peb_ImageBaseAddress task)) as Hok.
  destruct (PEDump.run_WritePEFile _ _ vm _) as [r st]. simpl in Hok. subst r.
  cbn [snd]. by rewrite <- app_assoc.
Qed.

(** X8. With no file object and a dump directory that is one,
    [ProcExeDump.render] ends normally and creates one file for each
    process whose address space is there, in enumeration order: the file
    [executable.<sanitized image name>_<pid>.exe] in the dump directory,
    holding what [WritePEFile] makes of the process's image base.  The
    other processes get the skip line and no file. *)
Theorem ProcExeDump_render_to_files (s : state) (d : string) :
  fd s = None → dump_dir s = Some d →
  Py.truthy_str d = true → isdir s d = true →
  let run := ProcExeDump.render s in
  run.1 = Ok tt
  ∧ outfd run.2 = outfd s ++ process_list s ≫= Run.file_lines d
  ∧ files run.2 = files s ++ process_list s ≫= Run.task_files (pe_profile s) d.
Proof.
  intros Hfd Hdir Htruthy Hisdir run. subst run. unfold ProcExeDump.render.
  rewrite bind_filter_processes.
  set (s0 := set_enum_calls (S (enum_calls s)) s).
  change (outfd s) with (outfd s0). change (files s) with (files s0).
  change (pe_profile s) with (pe_profile s0).
  assert (Hfd0 : fd s0 = None) by done.
  assert (Hdir0 : dump_dir s0 = Some d) by done.
  assert (Hisdir0 : isdir s0 d = true) by done.
  clearbody s0. clear Hfd Hdir Hisdir.
  revert s0 Hfd0 Hdir0 Hisdir0.
  induction (process_list s) as [|task tasks IH]; intros s0 Hfd0 Hdir0 Hisdir0.
  - simpl. by rewrite !app_nil_r.
  - rewrite for_each_cons, !bind_cons.
    destruct (Task.get_process_address_space task) as [vm|] eqn:Hvm.
    + rewrite (render_task_to_file task vm d) by done.
      destruct (IH (set_files (files s0 ++ Run.task_files (pe_profile s0) d task)
                      (set_outfd (outfd s0 ++ Run.file_lines d task) s0)))
        as (Hok & Hout & Hfiles); [done..|].
      split; [done|]. rewrite Hout, Hfiles.
      cbn [outfd files pe_profile set_files set_outfd].
      by rewrite <- !app_assoc.
    + rewrite render_task_no_address_space by done.
      assert (Hlines : Run.file_lines d task = [LNoAddressSpace])
        by (unfold Run.file_lines; by rewrite Hvm).
      assert (Hnone : Run.task_files (pe_profile s0) d task = [])
        by (unfold Run.task_files; by rewrite Hvm).
      rewrite Hlines, Hnone.
      destruct (IH (set_outfd (outfd s0 ++ [LNoAddressSpace]) s0))
        as (Hok & Hout & Hfiles); [done..|].
      split; [done|]. rewrite Hout, Hfiles.
      cbn [outfd files pe_profile set_files set_outfd app].
      by rewrite <- !app_assoc.
Qed.

Lemma ProcExeDump_render_to_files_witness :
  outfd (ProcExeDump.render
           (Fixture.plugin (Some "/dumps") None [Fixture.task3; Fixture.task2])).2
  = [] ++ [Fixture.task3; Fixture.task2] ≫= Run.file_lines "/dumps".
Proof.
  apply (ProcExeDump_render_to_files
           (Fixture.plugin (Some "/dumps") None [Fixture.task3; Fixture.task2])
           "/dumps"); reflexivity.
Defined.

(** The files of that run, by name. *)
Example ProcExeDump_render_file_names :
  fst <$> files (ProcExeDump.render
                   (Fixture.plugin (Some "/dumps") None
                      [Fixture.task3; Fixture.task2])).2
  = ["/dumps/executable.evil_exe_1234.exe"].
Proof. reflexivity. Qed.

(** ** The names of the files of processes *)

Lemma append_assoc (a b c : string) : (a +:+ b) +:+ c = a +:+ b +:+ c.
Proof.
  induction a as [|x a IH]; [done|].
  change (String x ((a +:+ b) +:+ c) = String x (a +:+ b +:+ c)). by rewrite IH.
Qed.

Lemma all_chars_app (test : Ascii.ascii → bool) (a b : string) :
  Run.all_chars test (a +:+ b) = Run.all_chars test a && Run.all_chars test b.
Proof.
  induction a as [|x a IH]; [done|].
  change (String x a +:+ b) with (String x (a +:+ b)). simpl.
  by rewrite IH, andb_assoc.
Qed.

Lemma all_chars_impl (p q : Ascii.ascii → bool) (s : string) :
  (∀ c, p c = true → q c = true) →
  Run.all_chars p s = true → Run.all_chars q s = true.
Proof.
  intros Hpq. induction s as [|x s IH]; simpl; [done|].
  intros [Hx Hs]%andb_true_iff. by rewrite (Hpq x Hx), IH.
Qed.

Lemma in_name_class_not_slash (c : Ascii.ascii) :
  Py.in_name_class c = true → Run.not_slash c = true.
Proof.
  unfold Run.not_slash. destruct (Ascii.eqb_spec c "/"%char) as [->|]; [|done].
  by compute.
Qed.

Lemma sanitize_in_name_class (s : string) :
  Run.all_chars Py.in_name_class (Py.sanitize s) = true.
Proof.
  induction s as [|x s IH]; simpl; [done|]. rewrite IH, andb_true_r.
  destruct (Py.in_name_class x) eqn:Hx; [done|]. by compute.
Qed.

Lemma length_sanitize (s : string) :
  String.length (Py.sanitize s) = String.length s.
Proof. induction s as [|x s IH]; simpl; [done|]. by rewrite IH. Qed.

Lemma string_of_uint_not_slash (d : Decimal.uint) :
  Run.all_chars Run.not_slash (NilEmpty.string_of_uint d) = true.
Proof. induction d; simpl; done. Qed.

Lemma dec_not_slash (n : N) : Run.all_chars Run.not_slash (Py.dec n) = true.
Proof.
  unfold Py.dec, NilZero.string_of_uint.
  destruct (N.to_uint n) as [|d|d|d|d|d|d|d|d|d|d]; [done|..];
    match goal with
    | |- context [NilEmpty.string_of_uint ?u] => apply (string_of_uint_not_slash u)
    end.
Qed.

(** X9. The file of a process cannot leave the dump directory, whatever
    the image name found in memory: the sanitized name has the length of
    the image name and only characters of [a-zA-Z0-9-_]; the file name
    built from it has no [/]; and the path is the dump directory, a [/]
    unless the directory ends in one, and that file name. *)
Theorem exe_path_stays_in_dump_dir (d image : string) (pid : N) :
  let name := ProcExeDump.exe_filename (Py.sanitize image) pid in
  Run.all_chars Py.in_name_class (Py.sanitize image) = true
  ∧ String.length (Py.sanitize image) = String.length image
  ∧ Run.all_chars Run.not_slash name = true
  ∧ Py.path_join d name
    = (if Py.truthy_str d && negb (Py.ends_with_slash d) then d +:+ "/" else d)
        +:+ name.
Proof.
  intros name. subst name.
  split; [apply sanitize_in_name_class|]. split; [apply length_sanitize|]. split.
  - unfold ProcExeDump.exe_filename. rewrite !all_chars_app.
    rewrite dec_not_slash.
    rewrite (all_chars_impl Py.in_name_class Run.not_slash (Py.sanitize image))
      by (apply in_name_class_not_slash || apply sanitize_in_name_class).
    done.
  - unfold ProcExeDump.exe_filename.
    set (rest := Py.sanitize image +:+ "_" +:+ Py.dec pid +:+ ".exe").
    change ("executable." +:+ rest) with (String "e" ("xecutable." +:+ rest)).
    unfold Py.path_join. cbn match.
    destruct (Py.truthy_str d && negb (Py.ends_with_slash d)).
    + by rewrite append_assoc.
    + done.
Qed.

(** A hostile image name. *)
Example exe_path_of_hostile_name :
  Py.path_join "/dumps" (ProcExeDump.exe_filename (Py.sanitize "../../etc/x y") 7)
  = "/dumps/executable.______etc_x_y_7.exe".
Proof. reflexivity. Qed.

(** ** DLLDump.render: what a run dumps and where it stops *)

Lemma extend_nil (s : state) : DllRun.extend [] [] s = s.
Proof. destruct s. unfold DllRun.extend. simpl. by rewrite !app_nil_r. Qed.

Lemma extend_extend (l1 l2 : list line) (f1 f2 : list (string * Sink.t))
    (s : state) :
  DllRun.extend l2 f2 (DllRun.extend l1 f1 s)
  = DllRun.extend (l1 ++ l2) (f1 ++ f2) s.
Proof. unfold DllRun.extend. simpl. by rewrite !app_assoc. Qed.

Lemma bind_dump_to_new_file (path : string) (vm : AddressSpace.t) (base : Z)
    (s : state) :
  dump_to_new_file path vm base s
  = (Ok tt,
     set_files
       (files s ++
          [(path, PEDump.fd (PEDump.run_WritePEFile (pe_profile s) (Sink.open path)
                               vm base).2)]) s).
Proof.
  unfold dump_to_new_file.
  pose proof (run_WritePEFile_Ok (pe_profile s) (Sink.open path) vm base) as Hok.
  destruct (PEDump.run_WritePEFile _ _ vm base) as [r st]. simpl in Hok. by subst r.
Qed.

Section dll_render.

Variables (task : Task.t) (vm : AddressSpace.t) (offset : N) (d : string).
Hypothesis Hvm : Task.get_process_address_space task = Some vm.
Hypothesis Hoffset : AddressSpace.vtop vm (Task.obj_offset task) = Some offset.
Hypothesis Htruthy : (offset =? 0)%N = false.

Lemma render_module_translated (module : LdrModule.t) (s : state) :
  dump_dir s = Some d →
  DLLDump.render_module task module s
  = (Ok tt,
     DllRun.extend (DllRun.module_lines (regex_search s) task offset module)
       (DllRun.module_files (pe_profile s) (regex_search s) d task vm offset module)
       s).
Proof using Hvm Hoffset Htruthy.
  intros Hdir. unfold DLLDump.render_module, DllRun.module_lines, DllRun.module_files.
  rewrite Hvm. cbn [mbind option_bind]. rewrite Hoffset.
  cbn [DLLDump.truthy_offset]. rewrite Htruthy. cbn [negb].
  rewrite bind_get.
  destruct (regex_search s (LdrModule.BaseDllName module)); cbn [negb].
  - rewrite bind_outfd_write, bind_join_dump_dir. cbn [dump_dir set_outfd].
    rewrite Hdir, bind_dump_to_new_file. reflexivity.
  - by rewrite extend_nil.
Qed.

Lemma render_modules_translated (modules : list LdrModule.t) (s : state) :
  dump_dir s = Some d →
  for_each modules (DLLDump.render_module task) s
  = (Ok tt,
     DllRun.extend (modules ≫= DllRun.module_lines (regex_search s) task offset)
       (modules ≫= DllRun.module_files (pe_profile s) (regex_search s) d task vm offset)
       s).
Proof using Hvm Hoffset Htruthy.
  revert s. induction modules as [|module modules IH]; intros s Hdir.
  - simpl. by rewrite extend_nil.
  - rewrite for_each_cons, render_module_translated by done.
    rewrite IH by done. rewrite extend_extend, !bind_cons. reflexivity.
Qed.

End dll_render.

Lemma translates_Some (task : Task.t) :
  DllRun.translates task = true →
  ∃ vm offset,
    Task.get_process_address_space task = Some vm
    ∧ AddressSpace.vtop vm (Task.obj_offset task) = Some offset
    ∧ (offset =? 0)%N = false.
Proof.
  unfold DllRun.translates, DllRun.process_offset.
  destruct (Task.get_process_address_space task) as [vm|]; [|done]. simpl.
  destruct (AddressSpace.vtop vm (Task.obj_offset task)) as [offset|] eqn:Hoffset;
    [|done].
  simpl. intros Hz%negb_true_iff. by exists vm, offset.
Qed.

Lemma render_modules_of_translated (task : Task.t) (d : string) (s : state) :
  DllRun.translates task = true → dump_dir s = Some d →
  for_each (Task.get_load_modules task) (DLLDump.render_module task) s
  = (Ok tt,
     DllRun.extend (DllRun.dll_lines (regex_search s) task)
       (DllRun.dll_files (pe_profile s) (regex_search s) d task) s).
Proof.
  intros (vm & offset & Hvm & Hoffset & Hz)%translates_Some Hdir.
  rewrite (render_modules_translated task vm offset d) by done.
  unfold DllRun.dll_lines, DllRun.dll_files, DllRun.process_offset.
  rewrite Hvm. simpl. by rewrite Hoffset.
Qed.

(** Without a translation the first module ends the run. *)
Lemma render_modules_untranslated (task : Task.t) (s : state) :
  DllRun.translates task = false →
  for_each (Task.get_load_modules task) (DLLDump.render_module task) s
  = match Task.get_load_modules task with
    | [] => (Ok tt, s)
    | _ :: _ => (Raise (NameError "proc"), s)
    end.
Proof.
  intros Hno. destruct (Task.get_load_modules task) as [|module modules]; [done|].
  rewrite for_each_cons. unfold DLLDump.render_module.
  unfold DllRun.translates, DllRun.process_offset in Hno.
  destruct (Task.get_process_address_space task) as [vm|]; [|done]. simpl in *.
  destruct (AddressSpace.vtop vm (Task.obj_offset task)) as [offset|]; [|done].
  simpl in *. by rewrite Hno.
Qed.

Lemma dll_render_start (s : state) (d : string) :
  dump_dir s = Some d → Py.truthy_str d = true → isdir s d = true →
  DLLDump.render s
  = for_each (process_list s)
      (λ task, for_each (Task.get_load_modules task) (DLLDump.render_module task))
      (set_enum_calls (S (enum_calls s)) s).
Proof.
  intros Hdir Htruthy Hisdir. unfold DLLDump.render.
  rewrite bind_get. unfold bind at 1. rewrite check_dump_dir_eq, Hdir.
  cbn [Py.truthy_opt_str]. change (default "" (Some d)) with d.
  rewrite Htruthy, Hisdir. cbn [negb]. by rewrite bind_filter_processes.
Qed.

(** X10. With a good dump directory, and every process record
    translating in its own address space, [DLLDump.render] ends normally
    and reports and dumps exactly the modules whose names match, process
    by process and module by module in enumeration order, each into
    [module.<pid>.<process offset>.<module base>.dll] in the dump
    directory. *)
Theorem DLLDump_render_dumps_matches (s : state) (d : string) :
  dump_dir s = Some d → Py.truthy_str d = true → isdir s d = true →
  (∀ task, task ∈ process_list s → DllRun.translates task = true) →
  let run := DLLDump.render s in
  run.1 = Ok tt
  ∧ outfd run.2 = outfd s ++ process_list s ≫= DllRun.dll_lines (regex_search s)
  ∧ files run.2
    = files s ++ process_list s ≫= DllRun.dll_files (pe_profile s) (regex_search s) d.
Proof.
  intros Hdir Htruthy Hisdir Hall run. subst run.
  rewrite (dll_render_start s d) by done.
  set (s0 := set_enum_calls (S (enum_calls s)) s).
  change (outfd s) with (outfd s0). change (files s) with (files s0).
  change (pe_profile s) with (pe_profile s0).
  change (regex_search s) with (regex_search s0).
  assert (Hdir0 : dump_dir s0 = Some d) by done.
  clearbody s0. clear Hdir Hisdir. revert s0 Hdir0.
  induction (process_list s) as [|task tasks IH]; intros s0 Hdir0.
  - simpl. by rewrite !app_nil_r.
  - rewrite for_each_cons, !bind_cons.
    rewrite (render_modules_of_translated task d)
      by (done || apply Hall, list_elem_of_here).
    destruct (IH (λ t Ht, Hall t (list_elem_of_further _ _ _ Ht))
                (DllRun.extend (DllRun.dll_lines (regex_search s0) task)
                   (DllRun.dll_files (pe_profile s0) (regex_search s0) d task) s0))
      as (Hok & Hout & Hfiles); [done|].
    split; [done|]. rewrite Hout, Hfiles. unfold DllRun.extend.
    cbn [outfd files pe_profile regex_search set_files set_outfd].
    by rewrite <- !app_assoc.
Qed.

Lemma DLLDump_render_dumps_matches_witness :
  outfd (DLLDump.render (Fixture.plugin (Some "/dumps") None [Fixture.task2])).2
  = [] ++ [Fixture.task2] ≫= DllRun.dll_lines Fixture.matches_evil.
Proof.
  apply (DLLDump_render_dumps_matches
           (Fixture.plugin (Some "/dumps") None [Fixture.task2]) "/dumps");
    try reflexivity.
  intros task Htask. apply list_elem_of_singleton in Htask as ->. reflexivity.
Defined.

Lemma dll_lines_no_modules (regex : string → bool) (task : Task.t) :
  Task.get_load_modules task = [] → DllRun.dll_lines regex task = [].
Proof.
  intros Hmods. unfold DllRun.dll_lines. rewrite Hmods.
  by destruct (DllRun.process_offset task).
Qed.

Lemma dll_files_no_modules (profile : PEProfile.t) (regex : string → bool)
    (d : string) (task : Task.t) :
  Task.get_load_modules task = [] → DllRun.dll_files profile regex d task = [].
Proof.
  intros Hmods. unfold DllRun.dll_files. rewrite Hmods.
  destruct (Task.get_process_address_space task); [|done].
  by destruct (DllRun.process_offset task).
Qed.

Lemma dll_lines_dumping (regex : string → bool) (task : Task.t) (l : line) :
  l ∈ DllRun.dll_lines regex task →
  ∃ name image base dump_file, l = LDumpingModule name image base dump_file.
Proof.
  unfold DllRun.dll_lines. destruct (DllRun.process_offset task) as [offset|].
  - intros (module & Hl & _)%list_elem_of_bind. unfold DllRun.module_lines in Hl.
    destruct (regex (LdrModule.BaseDllName module)).
    + apply list_elem_of_singleton in Hl as ->. by eexists _, _, _, _.
    + by apply elem_of_nil in Hl.
  - intros Hl. by apply elem_of_nil in Hl.
Qed.

(** The loop over the processes runs up to the first process that has a
    module and does not translate, and stops there. *)
Lemma render_tasks_outcome (tasks : list Task.t) (d : string) (s0 : state) :
  dump_dir s0 = Some d →
  let body := λ task,
    for_each (Task.get_load_modules task) (DLLDump.render_module task) in
  let upto := λ done : list Task.t,
    DllRun.extend (done ≫= DllRun.dll_lines (regex_search s0))
      (done ≫= DllRun.dll_files (pe_profile s0) (regex_search s0) d) s0 in
  (for_each tasks body s0 = (Ok tt, upto tasks)
   ∧ ∀ task, task ∈ tasks → Task.get_load_modules task ≠ [] →
             DllRun.translates task = true)
  ∨ ∃ before task after,
      tasks = before ++ task :: after
      ∧ (∀ t, t ∈ before → Task.get_load_modules t ≠ [] →
              DllRun.translates t = true)
      ∧ Task.get_load_modules task ≠ []
      ∧ DllRun.translates task = false
      ∧ for_each tasks body s0 = (Raise (NameError "proc"), upto before).
Proof.
  intros Hdir body upto. subst upto. cbv beta.
  revert s0 Hdir. induction tasks as [|task tasks IH]; intros s0 Hdir.
  - left. split; [simpl; by rewrite extend_nil|].
    intros t Ht. by apply elem_of_nil in Ht.
  - rewrite for_each_cons. subst body. cbv beta.
    destruct (DllRun.translates task) eqn:Htask.
    + rewrite (render_modules_of_translated task d) by done.
      set (s1 := DllRun.extend (DllRun.dll_lines (regex_search s0) task)
                   (DllRun.dll_files (pe_profile s0) (regex_search s0) d task) s0).
      assert (Hdir1 : dump_dir s1 = Some d) by exact Hdir.
      destruct (IH s1 Hdir1)
        as [[Hrun Hall]|(before & t & after & -> & Hbefore & Hmods & Hno & Hrun)];
        change (regex_search s1) with (regex_search s0) in Hrun;
        change (pe_profile s1) with (pe_profile s0) in Hrun;
        rewrite Hrun; subst s1; rewrite extend_extend.
      * left. split; [by rewrite !bind_cons|].
        intros t [->|Ht]%elem_of_cons Hmods; [done|by apply Hall].
      * right. exists (task :: before), t, after.
        split; [done|]. split.
        { intros t' [->|Ht']%elem_of_cons Hmods'; [done|by apply Hbefore]. }
        split; [done|]. split; [done|]. by rewrite !bind_cons.
    + rewrite render_modules_untranslated by done.
      destruct (Task.get_load_modules task) as [|module modules] eqn:Hmods.
      * destruct (IH s0 Hdir)
          as [[Hrun Hall]|(before & t & after & -> & Hbefore & Hmods' & Hno & Hrun)];
          rewrite Hrun.
        -- left. split.
           ++ by rewrite !bind_cons, dll_lines_no_modules, dll_files_no_modules.
           ++ intros t [->|Ht]%elem_of_cons Hmods'; [congruence|by apply Hall].
        -- right. exists (task :: before), t, after.
           split; [done|]. split.
           { intros t' [->|Ht']%elem_of_cons Hmods''; [congruence|by apply Hbefore]. }
           split; [done|]. split; [done|].
           by rewrite !bind_cons, dll_lines_no_modules, dll_files_no_modules.
      * right. exists [], task, tasks.
        split; [done|]. split; [intros t Ht; by apply elem_of_nil in Ht|].
        split; [congruence|]. split; [done|]. simpl. by rewrite extend_nil.
Qed.




(** X11. With a good dump directory, [DLLDump.render] either ends
    normally, and then every process that has modules translated and the
    matching modules of all processes are reported and dumped; or it
    stops on the unbound name [proc] of its skip message, at the first
    process that has a module and does not translate (no address space,
    no translation, or physical offset 0), and then the matching modules
    of the processes before that one are reported and dumped and nothing
    from it on.  The skip message itself is never written. *)
Theorem DLLDump_render_outcome (s : state) (d : string) :
  dump_dir s = Some d → Py.truthy_str d = true → isdir s d = true →
  let run := DLLDump.render s in
  let lines_of := λ tasks : list Task.t,
    tasks ≫= DllRun.dll_lines (regex_search s) in
  let files_of := λ tasks : list Task.t,
    tasks ≫= DllRun.dll_files (pe_profile s) (regex_search s) d in
  ((run.1 = Ok tt
    ∧ (∀ task, task ∈ process_list s → Task.get_load_modules task ≠ [] →
               DllRun.translates task = true)
    ∧ outfd run.2 = outfd s ++ lines_of (process_list s)
    ∧ files run.2 = files s ++ files_of (process_list s))
   ∨ (run.1 = Raise (NameError "proc")
      ∧ ∃ before task after,
          process_list s = before ++ task :: after
          ∧ (∀ t, t ∈ before → Task.get_load_modules t ≠ [] →
                  DllRun.translates t = true)
          ∧ Task.get_load_modules task ≠ []
          ∧ DllRun.translates task = false
          ∧ outfd run.2 = outfd s ++ lines_of before
          ∧ files run.2 = files s ++ files_of before))
  ∧ ∀ image name base,
      LCannotDump image name base ∈ outfd run.2 →
      LCannotDump image name base ∈ outfd s.
Proof.
  intros Hdir Htruthy Hisdir run lines_of files_of.
  subst run lines_of files_of. cbv beta.
  assert (Hlines : ∀ tasks image name base,
            LCannotDump image name base
              ∈ outfd s ++ tasks ≫= DllRun.dll_lines (regex_search s) →
            LCannotDump image name base ∈ outfd s).
  { intros tasks image name base [Hl|Hl]%elem_of_app; [done|].
    apply list_elem_of_bind in Hl as (task & Hl & _).
    by apply dll_lines_dumping in Hl as (? & ? & ? & ? & ?). }
  rewrite (dll_render_start s d) by done.
  pose proof (render_tasks_outcome (process_list s) d
                (set_enum_calls (S (enum_calls s)) s) Hdir) as Hrun.
  cbv zeta beta in Hrun.
  cbn [regex_search pe_profile set_enum_calls] in Hrun.
  destruct Hrun
    as [[Hrun Hall]|(before & task & after & Hlist & Hbefore & Hmods & Hno & Hrun)];
    rewrite Hrun; unfold DllRun.extend;
    cbn [fst snd outfd files set_files set_outfd set_enum_calls].
  - split; [by left|]. apply Hlines.
  - split; [|apply Hlines]. right. split; [done|].
    by exists before, task, after.
Qed.

Lemma DLLDump_render_outcome_witness :
  let run :=
    DLLDump.render
      (Fixture.plugin (Some "/dumps") None [Fixture.task2; Fixture.task3]) in
  run.1 = Raise (NameError "proc")
  ∧ ∀ image name base, LCannotDump image name base ∉ outfd run.2.
Proof.
  intros run.
  destruct (DLLDump_render_outcome
              (Fixture.plugin (Some "/dumps") None [Fixture.task2; Fixture.task3])
              "/dumps" eq_refl eq_refl eq_refl) as [[[Hok _]|[Herr _]] Hskip].
  - discriminate Hok.
  - split; [exact Herr|]. intros image name base Hl.
    apply Hskip in Hl. by apply elem_of_nil in Hl.
Defined.

Lemma DLLDump_render_bad_dump_dir_witness :
  ∃ msg,
    DLLDump.render (Fixture.plugin (Some "/nowhere") None [Fixture.task2])
    = (Raise (PluginError msg),
       Fixture.plugin (Some "/nowhere") None [Fixture.task2]).
Proof.
  apply (DLLDump_render_bad_dump_dir
           (Fixture.plugin (Some "/nowhere") None [Fixture.task2])).
  right. reflexivity.
Defined.

(** ** ModDump.render *)

Lemma ModDump_render_bad_dump_dir_witness :
  ∃ msg,
    ModDump.render (Fixture.plugin None None [Fixture.task2])
    = (Raise (PluginError msg), Fixture.plugin None None [Fixture.task2]).
Proof.
  apply (ModDump_render_bad_dump_dir (Fixture.plugin None None [Fixture.task2])).
  left. reflexivity.
Defined.

Lemma render_drivers (modules : list LdrModule.t) (d : string) (s : state) :
  processes s = None → dump_dir s = Some d →
  let candidates :=
    Some (kernel_address_space s)
      :: (Task.get_process_address_space <$> process_list s) in
  let run :=
    for_each modules (λ module,
      let* s := get in
      if regex_search s (LdrModule.BaseDllName module) then
        let* address_space := ModDump.find_space (LdrModule.DllBase module) in
        match address_space with
        | Some vm =>
            let dump_file := ModDump.driver_filename (LdrModule.DllBase module) in
            outfd_write (LDumpingDriver (LdrModule.BaseDllName module)
                           (LdrModule.DllBase module) dump_file) ;;
            let* path := join_dump_dir dump_file in
            dump_to_new_file path vm (LdrModule.DllBase module)
        | None => ret tt
        end
      else ret tt) s in
  run.1 = Ok tt
  ∧ outfd run.2
    = outfd s ++ modules ≫= DllRun.driver_lines (regex_search s) candidates
  ∧ files run.2
    = files s
        ++ modules ≫= DllRun.driver_files (pe_profile s) (regex_search s) d candidates
  ∧ enum_calls run.2
    = (enum_calls s
       + length (List.filter (λ m, regex_search s (LdrModule.BaseDllName m)) modules))%nat.
Proof.
  match goal with |- context [for_each _ ?b] => set (body := b) end.
  revert s. induction modules as [|module modules IH];
    intros s Hp Hdir candidates run; subst run.
  - simpl. by rewrite !app_nil_r, Nat.add_0_r.
  - rewrite for_each_cons, !bind_cons.
    unfold DllRun.driver_lines at 1, DllRun.driver_files at 1. cbn [List.filter].
    destruct (regex_search s (LdrModule.BaseDllName module)) eqn:Hmatch.
    + destruct (ModDump.search candidates (LdrModule.DllBase module)) as [vm|]
        eqn:Hsearch.
      * set (st := DllRun.extend
                     [LDumpingDriver (LdrModule.BaseDllName module)
                        (LdrModule.DllBase module)
                        (ModDump.driver_filename (LdrModule.DllBase module))]
                     [(Py.path_join d
                         (ModDump.driver_filename (LdrModule.DllBase module)),
                       PEDump.fd
                         (PEDump.run_WritePEFile (pe_profile s)
                            (Sink.open
                               (Py.path_join d
                                  (ModDump.driver_filename (LdrModule.DllBase module))))
                            vm (LdrModule.DllBase module)).2)]
                     (set_address_spaces (Some candidates)
                        (set_enum_calls (S (enum_calls s)) s))).
        assert (Hstep : body module s = (Ok tt, st)).
        { subst body. cbv beta. rewrite bind_get, Hmatch. unfold bind at 1.
          rewrite find_space_build by done. fold candidates. rewrite Hsearch.
          rewrite bind_outfd_write, bind_join_dump_dir.
          cbn [dump_dir set_outfd set_address_spaces set_enum_calls].
          rewrite Hdir, bind_dump_to_new_file. reflexivity. }
        rewrite Hstep.
        destruct (IH st Hp Hdir) as (Hok & Hout & Hfiles & Hcalls).
        split; [done|]. rewrite Hout, Hfiles, Hcalls. subst st.
        unfold DllRun.extend.
        cbn [outfd files pe_profile regex_search enum_calls kernel_address_space
               process_list set_files set_outfd set_address_spaces set_enum_calls
               length].
        fold candidates. rewrite <- !app_assoc. repeat split; (done || lia).
      * set (st := set_address_spaces (Some candidates)
                     (set_enum_calls (S (enum_calls s)) s)).
        assert (Hstep : body module s = (Ok tt, st)).
        { subst body. cbv beta. rewrite bind_get, Hmatch. unfold bind at 1.
          rewrite find_space_build by done. fold candidates. by rewrite Hsearch. }
        rewrite Hstep.
        destruct (IH st Hp Hdir) as (Hok & Hout & Hfiles & Hcalls).
        split; [done|]. rewrite Hout, Hfiles, Hcalls. subst st.
        cbn [outfd files pe_profile regex_search enum_calls kernel_address_space
               process_list set_files set_outfd set_address_spaces set_enum_calls
               length app].
        fold candidates. repeat split; (done || lia).
    + assert (Hstep : body module s = (Ok tt, s)).
      { subst body. cbv beta. by rewrite bind_get, Hmatch. }
      rewrite Hstep. destruct (IH s Hp Hdir) as (Hok & Hout & Hfiles & Hcalls).
      split; [done|]. rewrite Hout, Hfiles, Hcalls. cbn [app].
      repeat split; (done || lia).
Qed.

(** X12. With a good dump directory and [processes] unset,
    [ModDump.render] ends normally.  It reports and dumps the drivers
    whose names match and whose base the first valid candidate address
    space holds, into [driver.<base>.sys] in the dump directory; a
    matching driver whose base no candidate holds is passed over without
    a line.  Every matching driver costs one more enumeration of the
    processes. *)
Theorem ModDump_render_dumps_drivers (s : state) (d : string) :
  dump_dir s = Some d → Py.truthy_str d = true → isdir s d = true →
  processes s = None →
  let candidates :=
    Some (kernel_address_space s)
      :: (Task.get_process_address_space <$> process_list s) in
  let run := ModDump.render s in
  run.1 = Ok tt
  ∧ outfd run.2
    = outfd s ++ lsmod s ≫= DllRun.driver_lines (regex_search s) candidates
  ∧ files run.2
    = files s
        ++ lsmod s ≫= DllRun.driver_files (pe_profile s) (regex_search s) d candidates
  ∧ enum_calls run.2
    = (enum_calls s
       + length (List.filter (λ m, regex_search s (LdrModule.BaseDllName m))
                   (lsmod s)))%nat.
Proof.
  intros Hdir Htruthy Hisdir Hp candidates run. subst run.
  pose proof (render_drivers (lsmod s) d s Hp Hdir) as Hrun.
  cbv zeta in Hrun.
  assert (Heq : ∀ body : LdrModule.t → M state unit,
            (let* s := get in
             ProcExeDump.check_dump_dir (dump_dir s) ;; for_each (lsmod s) body) s
            = for_each (lsmod s) body s).
  { intros body. rewrite bind_get. unfold bind at 1.
    rewrite check_dump_dir_eq, Hdir. cbn [Py.truthy_opt_str].
    change (default "" (Some d)) with d. by rewrite Htruthy, Hisdir. }
  unfold ModDump.render. rewrite Heq. exact Hrun.
Qed.

Lemma ModDump_render_dumps_drivers_witness :
  (ModDump.render (Fixture.plugin (Some "/dumps") None [Fixture.task2])).1 = Ok tt.
Proof.
  apply (ModDump_render_dumps_drivers
           (Fixture.plugin (Some "/dumps") None [Fixture.task2]) "/dumps");
    reflexivity.
Defined.

(** The run on the sample drivers: one matches, and its base is found in
    the address space of the process. *)
Example ModDump_render_run :
  let run := ModDump.render (Fixture.plugin (Some "/dumps") None [Fixture.task2]) in
  outfd run.2 = [LDumpingDriver "evil.dll" 0x1000 "driver.1000.sys"]
  ∧ fst <$> files run.2 = ["/dumps/driver.1000.sys"]
  ∧ enum_calls run.2 = 1%nat.
Proof. repeat split; reflexivity. Qed.

(** ** ProcMemDump.replace_header_field: reading back and composing *)

Lemma replace_header_field_lookup (sect : SectionHeader.t) (header : list byte)
    (item : NativeType.t) (value : Z) (result : list byte) :
  ProcMemDump.replace_header_field sect header item value = Ok result →
  ProcMemDump.member_fits (Z.of_nat (length header)) sect item →
  ∃ newval,
    Struct.pack (NativeType.format_string item) value = Ok newval
    ∧ length result = length header
    ∧ ∀ i : nat,
        result !! i
        = if decide (ProcMemDump.member_start sect item ≤ Z.of_nat i
                     < ProcMemDump.member_end sect item)%Z
          then newval !! (i - Z.to_nat (ProcMemDump.member_start sect item))%nat
          else header !! i.
Proof.
  intros Hreplace Hfits.
  destruct (replace_header_field_shape _ _ _ _ _ Hreplace Hfits)
    as (newval & Hpack & -> & Hlen & Hse & Heh).
  destruct Hfits as (Hstart & Hend & Hsize).
  exists newval. split; [done|]. split; [by apply splice_length|].
  intros i. case_decide as Hi.
  - apply splice_lookup_inside; lia.
  - destruct (decide (Z.of_nat i < ProcMemDump.member_start sect item)%Z).
    + apply splice_lookup_before; lia.
    + apply splice_lookup_after; lia.
Qed.

Lemma replace_header_field_packs (sect : SectionHeader.t) (header : list byte)
    (item : NativeType.t) (value : Z) (newval : list byte) :
  Struct.pack (NativeType.format_string item) value = Ok newval →
  ∃ result, ProcMemDump.replace_header_field sect header item value = Ok result.
Proof.
  intros Hpack. unfold ProcMemDump.replace_header_field. rewrite Hpack. simpl.
  by eexists.
Qed.

(** X13. Round trip: after [replace_header_field] the member that was
    replaced reads back, from the new block, as the value passed. *)
Theorem replace_then_read (sect : SectionHeader.t) (header : list byte)
    (item : NativeType.t) (value : Z) (result : list byte) :
  ProcMemDump.replace_header_field sect header item value = Ok result →
  ProcMemDump.member_fits (Z.of_nat (length header)) sect item →
  ProcMemDump.header_field sect result item = Ok value.
Proof. intros Hreplace Hfits. by apply (header_field_replaced _ header). Qed.

Lemma replace_then_read_witness :
  ProcMemDump.header_field (Fixture.section 0x1178 0x60 0x100 0x60 0x40)
    Fixture.patched_block (Fixture.member 0x1178 20 0x40)
  = Ok 0x1000%Z.
Proof.
  apply (replace_then_read (Fixture.section 0x1178 0x60 0x100 0x60 0x40)
           Fixture.header_block (Fixture.member 0x1178 20 0x40) 0x1000
           Fixture.patched_block eq_refl).
  unfold ProcMemDump.member_fits, ProcMemDump.member_end, ProcMemDump.member_start.
  simpl. lia.
Defined.

(** X14. The other members keep their values: a member whose bytes lie
    apart from the member replaced reads back from the new block as it
    did from the old one. *)
Theorem replace_keeps_other_members (sect : SectionHeader.t) (header : list byte)
    (item other : NativeType.t) (value : Z) (result : list byte) :
  ProcMemDump.replace_header_field sect header item value = Ok result →
  ProcMemDump.member_fits (Z.of_nat (length header)) sect item →
  ProcMemDump.member_fits (Z.of_nat (length header)) sect other →
  ProcMemDump.members_apart sect item other →
  ProcMemDump.header_field sect result other
  = ProcMemDump.header_field sect header other.
Proof.
  intros Hreplace Hfits Hother Hapart. by apply (header_field_kept _ _ item value).
Qed.

Lemma replace_keeps_other_members_witness :
  ProcMemDump.header_field (Fixture.section 0x1178 0x60 0x100 0x60 0x40)
    Fixture.patched_block (Fixture.member 0x1178 16 0x60)
  = ProcMemDump.header_field (Fixture.section 0x1178 0x60 0x100 0x60 0x40)
      Fixture.header_block (Fixture.member 0x1178 16 0x60).
Proof.
  apply (replace_keeps_other_members (Fixture.section 0x1178 0x60 0x100 0x60 0x40)
           Fixture.header_block (Fixture.member 0x1178 20 0x40)
           (Fixture.member 0x1178 16 0x60) 0x1000 Fixture.patched_block eq_refl);
    unfold ProcMemDump.member_fits, ProcMemDump.members_apart,
      ProcMemDump.member_end, ProcMemDump.member_start; simpl; lia.
Defined.

(** X15. The last replacement wins: replacing a member twice gives the
    block that the second replacement alone gives. *)
Theorem replace_twice (sect : SectionHeader.t) (header : list byte)
    (item : NativeType.t) (v1 v2 : Z) (h1 h2 : list byte) :
  ProcMemDump.replace_header_field sect header item v1 = Ok h1 →
  ProcMemDump.replace_header_field sect h1 item v2 = Ok h2 →
  ProcMemDump.member_fits (Z.of_nat (length header)) sect item →
  ProcMemDump.replace_header_field sect header item v2 = Ok h2.
Proof.
  intros H1 H2 Hfits.
  destruct (replace_header_field_lookup _ _ _ _ _ H1 Hfits)
    as (nv1 & Hpack1 & Hlen1 & Hlook1).
  assert (Hfits1 : ProcMemDump.member_fits (Z.of_nat (length h1)) sect item)
    by (by rewrite Hlen1).
  destruct (replace_header_field_lookup _ _ _ _ _ H2 Hfits1)
    as (nv2 & Hpack2 & Hlen2 & Hlook2).
  destruct (replace_header_field_packs sect header item v2 nv2 Hpack2) as [h2' H2'].
  destruct (replace_header_field_lookup _ _ _ _ _ H2' Hfits)
    as (nv2' & Hpack2' & Hlen2' & Hlook2').
  assert (nv2' = nv2) as -> by congruence.
  rewrite H2'. f_equal. apply list_eq. intros i.
  rewrite Hlook2, Hlook2'. case_decide; [done|].
  rewrite Hlook1. by rewrite decide_False.
Qed.

Lemma replace_twice_witness :
  ProcMemDump.replace_header_field (Fixture.section 0x1178 0x60 0x100 0x60 0x40)
    Fixture.header_block (Fixture.member 0x1178 20 0x40) 0x1000
  = Ok Fixture.patched_block.
Proof.
  apply (replace_twice (Fixture.section 0x1178 0x60 0x100 0x60 0x40)
           Fixture.header_block (Fixture.member 0x1178 20 0x40) 0x77 0x1000
           (replicate 20 xff ++ [x77; x00; x00; x00] ++ replicate 16 xff)
           Fixture.patched_block eq_refl eq_refl).
  unfold ProcMemDump.member_fits, ProcMemDump.member_end, ProcMemDump.member_start.
  simpl. lia.
Defined.

(** X16. Replacements of members that lie apart commute: the two orders
    give the same block. *)
Theorem replace_commutes (sect : SectionHeader.t) (header : list byte)
    (a b : NativeType.t) (va vb : Z) (ha hab : list byte) :
  ProcMemDump.replace_header_field sect header a va = Ok ha →
  ProcMemDump.replace_header_field sect ha b vb = Ok hab →
  ProcMemDump.member_fits (Z.of_nat (length header)) sect a →
  ProcMemDump.member_fits (Z.of_nat (length header)) sect b →
  ProcMemDump.members_apart sect a b →
  ∃ hb,
    ProcMemDump.replace_header_field sect header b vb = Ok hb
    ∧ ProcMemDump.replace_header_field sect hb a va = Ok hab.
Proof.
  intros Ha Hab Hfa Hfb Hapart.
  destruct (replace_header_field_lookup _ _ _ _ _ Ha Hfa)
    as (nva & Hpacka & Hlena & Hlooka).
  assert (Hfb_a : ProcMemDump.member_fits (Z.of_nat (length ha)) sect b)
    by (by rewrite Hlena).
  destruct (replace_header_field_lookup _ _ _ _ _ Hab Hfb_a)
    as (nvb & Hpackb & Hlenab & Hlookab).
  destruct (replace_header_field_packs sect header b vb nvb Hpackb) as [hb Hb].
  destruct (replace_header_field_lookup _ _ _ _ _ Hb Hfb)
    as (nvb' & Hpackb' & Hlenb & Hlookb).
  assert (nvb' = nvb) as -> by congruence.
  destruct (replace_header_field_packs sect hb a va nva Hpacka) as [hba Hba].
  assert (Hfa_b : ProcMemDump.member_fits (Z.of_nat (length hb)) sect a)
    by (by rewrite Hlenb).
  destruct (replace_header_field_lookup _ _ _ _ _ Hba Hfa_b)
    as (nva' & Hpacka' & Hlenba & Hlookba).
  assert (nva' = nva) as -> by congruence.
  exists hb. split; [done|]. rewrite Hba. f_equal. apply list_eq. intros i.
  rewrite Hlookab, Hlookba, Hlooka, Hlookb.
  unfold ProcMemDump.members_apart in Hapart.
  destruct Hfa as (? & ? & ?), Hfb as (? & ? & ?).
  unfold ProcMemDump.member_end in *.
  repeat case_decide; try done; lia.
Qed.

Lemma replace_commutes_witness :
  ∃ hb,
    ProcMemDump.replace_header_field (Fixture.section 0x1178 0x60 0x100 0x60 0x40)
      Fixture.header_block (Fixture.member 0x1178 16 0x60) 0x2000 = Ok hb
    ∧ ProcMemDump.replace_header_field (Fixture.section 0x1178 0x60 0x100 0x60 0x40)
        hb (Fixture.member 0x1178 20 0x40) 0x1000
      = Ok (replicate 16 xff ++ [x00; x20; x00; x00; x00; x10; x00; x00]
              ++ replicate 16 xff).
Proof.
  apply (replace_commutes (Fixture.section 0x1178 0x60 0x100 0x60 0x40)
           Fixture.header_block (Fixture.member 0x1178 20 0x40)
           (Fixture.member 0x1178 16 0x60) 0x1000 0x2000
           Fixture.patched_block _ eq_refl eq_refl);
    unfold ProcMemDump.member_fits, ProcMemDump.members_apart,
      ProcMemDump.member_end, ProcMemDump.member_start; simpl; lia.
Defined.

(** ** ProcMemDump.get_image: positions, layout and failures *)

Lemma patch_header_length (addr_space : AddressSpace.t) (shs : N)
    (sect_sizes : list Z) (counter : nat) (sect : SectionHeader.t)
    (header : list byte) :
  ProcMemDump.well_laid_out shs sect →
  length (AddressSpace.read addr_space (SectionHeader.obj_offset sect) shs)
  = N.to_nat shs →
  ProcMemDump.patch_header addr_space shs sect_sizes counter sect = Ok header →
  length header = N.to_nat shs.
Proof.
  intros (Hptr & Hraw & Hvs & _) Hlen. unfold ProcMemDump.patch_header.
  set (h0 := AddressSpace.read addr_space (SectionHeader.obj_offset sect) shs) in *.
  destruct (ProcMemDump.replace_header_field sect h0 _ _) as [h1|] eqn:H1;
    simpl; [|done].
  unfold ProcMemDump.index.
  destruct (sect_sizes !! counter) as [size|]; simpl; [|done].
  destruct (ProcMemDump.replace_header_field sect h1 _ _) as [h2|] eqn:H2;
    simpl; [|done].
  destruct (ProcMemDump.replace_header_field sect h2 _ _) as [h3|] eqn:H3;
    simpl; [|done].
  intros [= <-].
  assert (Hlen1 : length h1 = length h0).
  { apply (replace_header_field_length _ _ _ _ _ H1).
    apply (member_fits_length (Z.of_N shs)); [lia|done]. }
  assert (Hlen2 : length h2 = length h1).
  { apply (replace_header_field_length _ _ _ _ _ H2).
    apply (member_fits_length (Z.of_N shs)); [lia|done]. }
  rewrite (replace_header_field_length _ _ _ _ _ H3); [lia|].
  apply (member_fits_length (Z.of_N shs)); [lia|done].
Qed.

Lemma replace_header_field_raises (sect : SectionHeader.t) (header : list byte)
    (item : NativeType.t) (value : Z) (e : exn) :
  ProcMemDump.replace_header_field sect header item value = Raise e →
  e = StructError
  ∧ Struct.in_range (NativeType.format_string item) value = false.
Proof.
  unfold ProcMemDump.replace_header_field, Struct.pack.
  destruct (Struct.in_range _ value); simpl; [done|]. by intros [= <-].
Qed.

Lemma patch_header_raises (addr_space : AddressSpace.t) (shs : N)
    (sect_sizes : list Z) (counter : nat) (sect : SectionHeader.t) (e : exn) :
  is_Some (sect_sizes !! counter) →
  ProcMemDump.patch_header addr_space shs sect_sizes counter sect = Raise e →
  e = StructError.
Proof.
  intros [size Hsize]. unfold ProcMemDump.patch_header, ProcMemDump.index.
  rewrite Hsize.
  destruct (ProcMemDump.replace_header_field sect _ _ _) as [h1|e1] eqn:H1; simpl.
  2:{ intros [= <-]. by apply replace_header_field_raises in H1 as [-> _]. }
  destruct (ProcMemDump.replace_header_field sect h1 _ _) as [h2|e2] eqn:H2; simpl.
  2:{ intros [= <-]. by apply replace_header_field_raises in H2 as [-> _]. }
  destruct (ProcMemDump.replace_header_field sect h2 _ _) as [h3|e3] eqn:H3; simpl.
  2:{ intros [= <-]. by apply replace_header_field_raises in H3 as [-> _]. }
  done.
Qed.

Lemma headers_loop_outcome (addr_space : AddressSpace.t) (shs : N)
    (sect_sizes : list Z) (start_addr : Z) (sects : list SectionHeader.t)
    (counter : nat) :
  (counter + length sects ≤ length sect_sizes)%nat →
  let loop :=
    ProcMemDump.headers_loop addr_space shs sect_sizes start_addr sects counter in
  outcome loop = Ok tt ∨ outcome loop = Raise StructError.
Proof.
  revert counter. induction sects as [|sect sects IH]; intros counter Hlen; simpl.
  - by left.
  - simpl in Hlen.
    destruct (ProcMemDump.patch_header _ _ _ counter sect) as [h|e] eqn:Hpatch; simpl.
    + apply IH. lia.
    + right. f_equal. apply (patch_header_raises _ _ _ _ _ _) in Hpatch; [done|].
      apply lookup_lt_is_Some. lia.
Qed.

Lemma headers_loop_stops (addr_space : AddressSpace.t) (shs : N)
    (sect_sizes : list Z) (start_addr : Z) (sects : list SectionHeader.t)
    (counter k : nat) (sect : SectionHeader.t) (e : exn) :
  sects !! k = Some sect →
  ProcMemDump.patch_header addr_space shs sect_sizes (counter + k) sect = Raise e →
  let loop :=
    ProcMemDump.headers_loop addr_space shs sect_sizes start_addr sects counter in
  outcome loop ≠ Ok tt ∧ (length (yielded loop) ≤ k)%nat.
Proof.
  revert counter k. induction sects as [|first sects IH]; intros counter k; [done|].
  destruct k as [|k]; simpl.
  - intros [= ->]. rewrite Nat.add_0_r. intros ->. simpl. split; [done|lia].
  - intros Hk Hpatch.
    destruct (ProcMemDump.patch_header _ _ _ counter first) as [h|e']; simpl.
    + rewrite <- Nat.add_succ_comm in Hpatch.
      destruct (IH _ _ Hk Hpatch) as [Hout Hlen]. split; [done|lia].
    + split; [done|lia].
Qed.

Lemma patch_header_negative_size (addr_space : AddressSpace.t) (shs : N)
    (sect_sizes : list Z) (counter : nat) (sect : SectionHeader.t) (size : Z) :
  sect_sizes !! counter = Some size → (size < 0)%Z →
  Struct.signed (NativeType.format_string (SectionHeader.SizeOfRawData sect)) = false →
  ∃ e, ProcMemDump.patch_header addr_space shs sect_sizes counter sect = Raise e.
Proof.
  intros Hsize Hneg Hunsigned.
  unfold ProcMemDump.patch_header, ProcMemDump.index. rewrite Hsize.
  destruct (ProcMemDump.replace_header_field sect _ _ _) as [h1|e1]; simpl;
    [|by eexists].
  unfold ProcMemDump.replace_header_field at 1, Struct.pack, Struct.in_range.
  rewrite Hunsigned. destruct (Z.leb_spec 0 size); [lia|]. simpl. by eexists.
Qed.

(** X17. Where the headers go: after the image, the [k]-th item that
    [get_image] yields is the header of the [k]-th section, for the file
    position [SizeOfOptionalHeader + (OptionalHeader.obj_offset -
    base_addr) + k * shs]; and with a header block of [shs] bytes read
    and the members inside it, the rewritten header has [shs] bytes. *)
Theorem get_image_header_positions (self : ProcMemDump.t)
    (addr_space : AddressSpace.t) (base_addr : Z)
    (k : nat) (offset : Z) (header : list byte) :
  let nt_header := ProcMemDump.get_nt_header self addr_space base_addr in
  let sects := NTHeader.get_sections nt_header (ProcMemDump.unsafe self) in
  let shs := PEProfile.get_obj_size_IMAGE_SECTION_HEADER (ProcMemDump.pe_profile self) in
  let start_addr :=
    (Z.of_N (FileHeader.SizeOfOptionalHeader (NTHeader.FileHeader nt_header))
     + (OptionalHeader.obj_offset (NTHeader.OptionalHeader nt_header) - base_addr))%Z in
  yielded (ProcMemDump.get_image self addr_space base_addr) !! S k
  = Some (offset, header) →
  offset = (start_addr + Z.of_nat k * Z.of_N shs)%Z
  ∧ ∃ sect,
      sects !! k = Some sect
      ∧ (ProcMemDump.well_laid_out shs sect →
         length (AddressSpace.read addr_space (SectionHeader.obj_offset sect) shs)
         = N.to_nat shs →
         length header = N.to_nat shs).
Proof.
  intros nt_header sects shs start_addr Hyield.
  unfold ProcMemDump.get_image in Hyield. cbn [yielded gen_yield] in Hyield.
  change ((?x :: ?l) !! S k) with (l !! k) in Hyield.
  apply headers_loop_yielded in Hyield as (sect & Hk & Hpatch & ->).
  split; [done|]. exists sect. split; [done|].
  intros Hlayout Hread. by eapply patch_header_length.
Qed.

Lemma get_image_header_positions_witness :
  ∃ header,
    yielded (ProcMemDump.get_image Fixture.remap_plugin Fixture.image_space 0x1000)
      !! 2%nat = Some (416%Z, header).
Proof.
  eexists. 
  assert (Hyield : ∃ offset,
             yielded (ProcMemDump.get_image Fixture.remap_plugin Fixture.image_space
                        0x1000) !! 2%nat = Some (offset, _))
    by (eexists; reflexivity).
  destruct Hyield as [offset Hyield].
  destruct (get_image_header_positions Fixture.remap_plugin Fixture.image_space
              0x1000 1 offset _ Hyield) as [Hoffset _].
  simpl in Hoffset. rewrite Hyield, Hoffset. reflexivity.
Defined.

(** X18. The remapped sections follow one another in the file without
    gap or overlap: in the headers yielded for two consecutive sections,
    the new [PointerToRawData] plus the new [SizeOfRawData] of the first
    is the new [PointerToRawData] of the second. *)
Theorem get_image_sections_contiguous (self : ProcMemDump.t)
    (addr_space : AddressSpace.t) (base_addr : Z)
    (i : nat) (sect next : SectionHeader.t) (offset offset' : Z)
    (header header' : list byte) :
  let nt_header := ProcMemDump.get_nt_header self addr_space base_addr in
  let sects := NTHeader.get_sections nt_header (ProcMemDump.unsafe self) in
  let shs := PEProfile.get_obj_size_IMAGE_SECTION_HEADER (ProcMemDump.pe_profile self) in
  let image := ProcMemDump.get_image self addr_space base_addr in
  (∀ sect, sect ∈ sects → ProcMemDump.well_laid_out shs sect) →
  (∀ sect, sect ∈ sects →
     length (AddressSpace.read addr_space (SectionHeader.obj_offset sect) shs)
     = N.to_nat shs) →
  sects !! i = Some sect → sects !! S i = Some next →
  yielded image !! S i = Some (offset, header) →
  yielded image !! S (S i) = Some (offset', header') →
  ∃ pointer size pointer',
    ProcMemDump.header_field sect header (SectionHeader.PointerToRawData sect)
    = Ok pointer
    ∧ ProcMemDump.header_field sect header (SectionHeader.SizeOfRawData sect)
      = Ok size
    ∧ ProcMemDump.header_field next header' (SectionHeader.PointerToRawData next)
      = Ok pointer'
    ∧ (pointer + size = pointer')%Z.
Proof.
  intros nt_header sects shs image Hlayout Hread Hi Hnext Hyield Hyield'.
  subst image. unfold ProcMemDump.get_image in Hyield, Hyield'.
  cbn [yielded gen_yield] in Hyield, Hyield'.
  change ((?x :: ?l) !! S i) with (l !! i) in Hyield.
  change ((?x :: ?l) !! S (S i)) with (l !! S i) in Hyield'.
  apply headers_loop_yielded in Hyield as (sect0 & Hi0 & Hpatch & _).
  apply headers_loop_yielded in Hyield' as (next0 & Hnext0 & Hpatch' & _).
  fold nt_header in Hi0, Hnext0. fold sects in Hi0, Hnext0.
  assert (sect0 = sect) as -> by congruence.
  assert (next0 = next) as -> by congruence.
  apply patch_header_fields in Hpatch as (size & Hsize & Hptr & Hraw & _);
    [|apply Hlayout|apply Hread]; [|by eapply list_elem_of_lookup_2..].
  apply patch_header_fields in Hpatch' as (size' & _ & Hptr' & _);
    [|apply Hlayout|apply Hread]; [|by eapply list_elem_of_lookup_2..].
  unfold sects, nt_header in *. cbn [Nat.add] in Hsize.
  rewrite (compute_sect_sizes_lookup _ _ _ _ sect) in Hsize by done.
  rewrite Hnext in Hsize. injection Hsize as <-.
  exists (ProcMemDump.va sect), (ProcMemDump.va next - ProcMemDump.va sect)%Z,
    (ProcMemDump.va next).
  repeat split; [done..|lia].
Qed.

(** X19. The loops of [get_image] end normally or with [struct.error]:
    the list of sizes has an entry for every section, so the index into
    it never fails. *)
Theorem get_image_outcome (self : ProcMemDump.t) (addr_space : AddressSpace.t)
    (base_addr : Z) :
  let image := ProcMemDump.get_image self addr_space base_addr in
  (outcome image = Ok tt ∨ outcome image = Raise StructError)
  ∧ (1 ≤ length (yielded image))%nat.
Proof.
  intros image. subst image. unfold ProcMemDump.get_image.
  cbn [outcome yielded gen_yield length]. split; [|lia].
  apply headers_loop_outcome. rewrite length_compute_sect_sizes. lia.
Qed.

(** X20. A section table that is not in ascending order of virtual
    address stops the remap: when a section is followed by one at a
    lower virtual address and its [SizeOfRawData] is an unsigned member,
    [get_image] ends with [struct.error], having yielded no header from
    that section on. *)
Theorem get_image_descending_sections (self : ProcMemDump.t)
    (addr_space : AddressSpace.t) (base_addr : Z)
    (i : nat) (sect next : SectionHeader.t) :
  let nt_header := ProcMemDump.get_nt_header self addr_space base_addr in
  let sects := NTHeader.get_sections nt_header (ProcMemDump.unsafe self) in
  let image := ProcMemDump.get_image self addr_space base_addr in
  sects !! i = Some sect → sects !! S i = Some next →
  (ProcMemDump.va next < ProcMemDump.va sect)%Z →
  Struct.signed (NativeType.format_string (SectionHeader.SizeOfRawData sect)) = false →
  outcome image = Raise StructError ∧ (length (yielded image) ≤ S i)%nat.
Proof.
  intros nt_header sects image Hi Hnext Hlt Hunsigned.
  subst image. unfold ProcMemDump.get_image.
  cbn [outcome yielded gen_yield length].
  fold nt_header. fold sects.
  set (sizes := ProcMemDump.compute_sect_sizes self _ sects).
  assert (Hall : (0 + length sects ≤ length sizes)%nat).
  { subst sizes. rewrite length_compute_sect_sizes. lia. }
  assert (Hsize : sizes !! i = Some (ProcMemDump.va next - ProcMemDump.va sect)%Z).
  { subst sizes. rewrite (compute_sect_sizes_lookup _ _ _ _ sect) by done.
    by rewrite Hnext. }
  destruct (patch_header_negative_size addr_space
              (PEProfile.get_obj_size_IMAGE_SECTION_HEADER (ProcMemDump.pe_profile self))
              sizes i sect _ Hsize ltac:(lia) Hunsigned) as [e Hpatch].
  match goal with
  | |- context [ProcMemDump.headers_loop ?a ?b ?c ?start ?l 0] =>
      destruct (headers_loop_stops a b c start l 0 i sect e Hi Hpatch)
        as [Hne Hlen];
      destruct (headers_loop_outcome a b c start l 0 Hall) as [Hok|Herr]
  end; [done|].
  split; [exact Herr|lia].
Qed.

Lemma remap_sections_laid_out (sect : SectionHeader.t) :
  sect ∈ Fixture.remap_sections → ProcMemDump.well_laid_out 40 sect.
Proof.
  intros Hin. unfold Fixture.remap_sections in Hin.
  repeat (apply elem_of_cons in Hin as [->|Hin]);
    [..|by apply elem_of_nil in Hin];
    unfold ProcMemDump.well_laid_out, ProcMemDump.member_fits,
      ProcMemDump.members_apart, ProcMemDump.member_end,
      ProcMemDump.member_start; simpl; lia.
Qed.

Lemma get_image_sections_contiguous_witness :
  ∃ header header',
    yielded (ProcMemDump.get_image Fixture.remap_plugin Fixture.image_space 0x1000)
      !! 1%nat = Some (376%Z, header)
    ∧ yielded (ProcMemDump.get_image Fixture.remap_plugin Fixture.image_space 0x1000)
        !! 2%nat = Some (416%Z, header')
    ∧ ∃ pointer size pointer',
        ProcMemDump.header_field (Fixture.section 0x1178 0x1800 0x1000 0x600 0x400)
          header (Fixture.member 0x1178 20 0x400) = Ok pointer
        ∧ ProcMemDump.header_field (Fixture.section 0x1178 0x1800 0x1000 0x600 0x400)
            header (Fixture.member 0x1178 16 0x600) = Ok size
        ∧ ProcMemDump.header_field (Fixture.section 0x11a0 0x1234 0x3000 0x200 0xa00)
            header' (Fixture.member 0x11a0 20 0xa00) = Ok pointer'
        ∧ (pointer + size = pointer')%Z.
Proof.
  eexists _, _. split; [reflexivity|]. split; [reflexivity|].
  apply (get_image_sections_contiguous Fixture.remap_plugin Fixture.image_space
           0x1000 0 (Fixture.section 0x1178 0x1800 0x1000 0x600 0x400)
           (Fixture.section 0x11a0 0x1234 0x3000 0x200 0xa00) 376 416 _ _
           remap_sections_laid_out (λ _ _, eq_refl) eq_refl eq_refl eq_refl eq_refl).
Defined.

Lemma get_image_descending_sections_witness :
  outcome (ProcMemDump.get_image Unsorted.plugin Fixture.image_space 0x1000)
  = Raise StructError
  ∧ (length (yielded (ProcMemDump.get_image Unsorted.plugin Fixture.image_space
                        0x1000)) ≤ 1)%nat.
Proof.
  apply (get_image_descending_sections Unsorted.plugin Fixture.image_space 0x1000
           0 (Fixture.section 0x1178 0x1800 0x3000 0x600 0x400)
           (Fixture.section 0x11a0 0x1234 0x1000 0x200 0xa00) eq_refl eq_refl).
  - vm_compute. reflexivity.
  - reflexivity.
Defined.
